(** * GQL python driver (src/python/gql.py): a shallow embedding

    The development follows the layout of [gql.py]:
    - Python-level preliminaries (strings, exceptions, the file system and
      subprocesses as an explicit world);
    - [_Instance] (job construction and the retry loop of [_Instance.run]);
    - [GQL] (session entry points [eval], [run], file helpers and the cache);
    - the tidy TSV codec ([_TidyTSVParser], [_TidyTSVWriter]);
    - the profiling sampler ([_Instance.__pprof]) as a timed trace;
    - the parameter parsing and the jobs of the wrapper script run.py.

    Strings are sequences of code points below 256 ([string] of the
    standard library).  Python integers are [Z]. *)

From Stdlib Require Import ZArith Lia List String Ascii.
From Stdlib Require Import DecimalString DecimalPos DecimalZ.
From stdpp Require Import gmap strings list.

Set Default Proof Using "Type".

(** ** Python values shared by all parts *)

(** The exceptions that the embedded code can raise.  [Exception] carries the
    message of an explicit [raise Exception(...)] of gql.py; the others are
    raised by the interpreter or by library calls. *)
Inductive exn :=
| Exception (msg : string)
| ValueError (msg : string)
| TypeError
| OverflowError
| IndexError
| AssertionError
| FileNotFoundError (path : string)
| OSError (path : string)
| CalledProcessError (argv : list string) (status : Z)
| CsvError (msg : string).

Inductive result (A : Type) :=
| Ok (a : A)
| Raise (e : exn).
Arguments Ok {A} a.
Arguments Raise {A} e.

Definition is_ok {A} (r : result A) : bool :=
  match r with Ok _ => true | Raise _ => false end.

Global Instance result_ret : MRet result := λ A a, Ok a.
Global Instance result_bind : MBind result := λ A B f r,
  match r with Ok a => f a | Raise e => Raise e end.
Global Instance result_fmap : FMap result := λ A B f r,
  match r with Ok a => Ok (f a) | Raise e => Raise e end.

(** Output operations on files, and what the outside observes of a run:
    the successful file operations and every program started through
    [subprocess.call] or [subprocess.check_call] with the exit status it
    returned. *)
Inductive io_op :=
| OpOpen (path : string)
| OpWrite (path data : string)
| OpClose (path : string).

Inductive event :=
| EvIO (op : io_op)
| EvCall (argv : list string) (status : Z).

(** The world outside the interpreter: the local file system (regular files
    only, path to content; paths are compared as strings) and the trace of
    events so far, oldest first. *)
Record world := World {
  files : gmap string string;
  trace : list event;
}.

Definition emit (ev : event) (w : world) : world :=
  {| files := files w; trace := trace w ++ [ev] |}.

Definition set_files (fs : gmap string string) (w : world) : world :=
  {| files := fs; trace := trace w |}.

(** Code with side effects threads the world and may raise; effects made
    before an exception stay in the world. *)
Definition M (A : Type) : Type := world → result A * world.

Global Instance M_ret : MRet M := λ A a w, (Ok a, w).
Global Instance M_bind : MBind M := λ A B f m w,
  match m w with
  | (Ok a, w') => f a w'
  | (Raise e, w') => (Raise e, w')
  end.

Definition raise {A} (e : exn) : M A := λ w, (Raise e, w).

Definition lift {A} (r : result A) : M A := λ w, (r, w).

(** [try: body finally: cleanup] *)
Definition try_finally {A} (body : M A) (cleanup : M unit) : M A := λ w,
  let '(r, w1) := body w in
  match cleanup w1 with
  | (Ok _, w2) => (r, w2)
  | (Raise e, w2) => (Raise e, w2)
  end.

(** [try: body except: handler; raise] *)
Definition try_except_reraise {A} (body : M A) (handler : M unit) : M A := λ w,
  match body w with
  | (Ok a, w1) => (Ok a, w1)
  | (Raise e, w1) =>
      match handler w1 with
      | (Ok _, w2) => (Raise e, w2)
      | (Raise e', w2) => (Raise e', w2)
      end
  end.

(** ** Strings *)

Module Str.

Fixpoint startswith (p s : string) : bool :=
  match p, s with
  | EmptyString, _ => true
  | String a p', String b s' => if Ascii.eqb a b then startswith p' s' else false
  | String _ _, EmptyString => false
  end.

Definition endswith (p s : string) : bool :=
  startswith (String.rev p) (String.rev s).

(** [s.replace(a, b)] for one-character [a]. *)
Fixpoint replace_char (a : ascii) (b : string) (s : string) : string :=
  match s with
  | EmptyString => EmptyString
  | String c s' =>
      if Ascii.eqb c a then b +:+ replace_char a b s'
      else String c (replace_char a b s')
  end.

Fixpoint contains_char (a : ascii) (s : string) : bool :=
  match s with
  | EmptyString => false
  | String c s' => Ascii.eqb c a || contains_char a s'
  end.

(** [s.replace(old, new)] for non-empty [old]: occurrences are replaced
    from the left and do not overlap; [skip] counts the characters of a
    replaced occurrence still to be passed over. *)
Fixpoint replace_go (old new : string) (skip : nat) (s : string) : string :=
  match s with
  | EmptyString => EmptyString
  | String c s' =>
      match skip with
      | S k => replace_go old new k s'
      | O =>
          if startswith old s
          then new +:+ replace_go old new (String.length old - 1) s'
          else String c (replace_go old new 0 s')
      end
  end.

Definition replace (old new s : string) : string := replace_go old new 0 s.

(** [sep.join(l)] *)
Definition join (sep : string) (l : list string) : string := String.concat sep l.

(** [str(z)] and [f'{z}'] for an integer. *)
Definition of_Z (z : Z) : string := NilZero.string_of_int (Z.to_int z).

(** The characters for which [str.isspace] holds, among code points below
    256: TAB..CR, FS..US, space, NEL (0x85) and NBSP (0xA0). *)
Definition isspace (c : ascii) : bool :=
  let n := nat_of_ascii c in
  ((9 <=? n) && (n <=? 13)) || ((28 <=? n) && (n <=? 32))
  || (n =? 133) || (n =? 160).

Fixpoint lstrip (s : string) : string :=
  match s with
  | EmptyString => EmptyString
  | String c s' => if isspace c then lstrip s' else s
  end.

Definition rstrip (s : string) : string := String.rev (lstrip (String.rev s)).

(** [s.strip()] *)
Definition strip (s : string) : string := rstrip (lstrip s).

End Str.

(** ** [os.path] (posixpath) *)

Module OsPath.

(** Split [s] at the last occurrence of [c], as [s.rfind(c)] locates it:
    [Some (s[:i], s[i+1:])], or [None] when [c] does not occur. *)
Fixpoint rpartition (c : ascii) (s : string) : option (string * string) :=
  match s with
  | EmptyString => None
  | String a s' =>
      match rpartition c s' with
      | Some (h, t) => Some (String a h, t)
      | None => if Ascii.eqb a c then Some (EmptyString, s') else None
      end
  end.

Fixpoint all_char (c : ascii) (s : string) : bool :=
  match s with
  | EmptyString => true
  | String a s' => Ascii.eqb a c && all_char c s'
  end.

Fixpoint lstrip_char (c : ascii) (s : string) : string :=
  match s with
  | EmptyString => EmptyString
  | String a s' => if Ascii.eqb a c then lstrip_char c s' else s
  end.

(** [s.rstrip(c)] *)
Definition rstrip_char (c : ascii) (s : string) : string :=
  String.rev (lstrip_char c (String.rev s)).

(** [os.path.join(a, b)] *)
Definition join (a b : string) : string :=
  if Str.startswith "/" b then b
  else if bool_decide (a = "") || Str.endswith "/" a then a +:+ b
  else a +:+ "/" +:+ b.

(** [os.path.basename(p)]: [p[i:]] with [i = p.rfind('/') + 1]. *)
Definition basename (p : string) : string :=
  match rpartition "/" p with
  | Some (_, t) => t
  | None => p
  end.

(** [os.path.dirname(p)]: [head = p[:i]], stripped of trailing slashes
    unless it consists of slashes only. *)
Definition dirname (p : string) : string :=
  match rpartition "/" p with
  | Some (h, _) =>
      let head := h +:+ "/" in
      if all_char "/" head then head else rstrip_char "/" head
  | None => ""
  end.

(** [os.path.splitext(p)]: the extension starts at the last dot of the
    last path component, provided a character other than a dot comes
    before it in that component. *)
Definition splitext (p : string) : string * string :=
  let '(dir, name) :=
    match rpartition "/" p with
    | Some (h, t) => (h +:+ "/", t)
    | None => ("", p)
    end in
  match rpartition "." name with
  | Some (stem, e) =>
      if all_char "." stem then (p, "")
      else (dir +:+ stem, "." +:+ e)
  | None => (p, "")
  end.

End OsPath.

(** ** Numbers *)

(** IEEE doubles, as Python's [float] and numpy's [float64] provide them.
    [f64] is the type of the doubles other than NaN; the conversions are
    those of the interpreter. *)
Class Float64 := {
  f64 : Type;
  f64_eq_dec :: EqDecision f64;
  (** [float(s)]: [None] when it raises [ValueError] *)
  float_of_str : string → option (option f64);
  (** [f'{x}'], the shortest representation that reads back as [x] *)
  str_of_float : f64 → string;
  (** [float(z)] for a 64-bit integer *)
  float_of_int : Z → f64;
}.

(** A cell of a data frame, and any Python value handled by the codec:
    an integer, a float ([None] is NaN), a string or [None]. *)
Inductive value `{Float64} :=
| VInt (z : Z)
| VFloat (x : option f64)
| VStr (s : string)
| VNone.

Abbreviation NaN := (VFloat None).

(** The column types [np.int], [np.float] and [object]. *)
Inductive dtype := np_int | np_float | object.

Global Instance dtype_eq_dec : EqDecision dtype.
Proof. solve_decision. Defined.

Global Instance value_eq_dec `{Float64} : EqDecision value.
Proof. solve_decision. Defined.

(** The missing-value marker for integer columns. *)
Definition SENTINEL : Z := (-9999999)%Z.

Definition is_digit (c : ascii) : bool :=
  let n := nat_of_ascii c in (48 <=? n) && (n <=? 57).

Definition digit_val (c : ascii) : Z := Z.of_nat (nat_of_ascii c - 48).

(** The digits of an integer literal: underscores are allowed between
    digits only.  [prev] tells whether the previous character was a digit. *)
Fixpoint int_digits (prev : bool) (acc : Z) (s : string) : option Z :=
  match s with
  | EmptyString => if prev then Some acc else None
  | String c s' =>
      if is_digit c then int_digits true (10 * acc + digit_val c)%Z s'
      else if Ascii.eqb c "_" then (if prev then int_digits false acc s' else None)
      else None
  end.

(** [int(s)] for a string: surrounding white space, an optional sign, then
    digits.  [None] when it raises [ValueError]. *)
Definition py_int (s : string) : option Z :=
  match Str.strip s with
  | String "+" r => int_digits false 0 r
  | String "-" r => Z.opp <$> int_digits false 0 r
  | r => int_digits false 0 r
  end.

Definition in_int64 (z : Z) : bool :=
  ((-9223372036854775808 <=? z) && (z <=? 9223372036854775807))%Z.

(** The value of a decimal numeral read after the digits worth [acc]. *)
Fixpoint uint_value (acc : Z) (d : Decimal.uint) : Z :=
  match d with
  | Decimal.Nil => acc
  | Decimal.D0 l => uint_value (10 * acc + 0) l
  | Decimal.D1 l => uint_value (10 * acc + 1) l
  | Decimal.D2 l => uint_value (10 * acc + 2) l
  | Decimal.D3 l => uint_value (10 * acc + 3) l
  | Decimal.D4 l => uint_value (10 * acc + 4) l
  | Decimal.D5 l => uint_value (10 * acc + 5) l
  | Decimal.D6 l => uint_value (10 * acc + 6) l
  | Decimal.D7 l => uint_value (10 * acc + 7) l
  | Decimal.D8 l => uint_value (10 * acc + 8) l
  | Decimal.D9 l => uint_value (10 * acc + 9) l
  end%Z.

(** Strings of decimal digits. *)
Definition all_digits (s : string) : Prop :=
  ∀ c, Str.contains_char c s = true → is_digit c = true.

(** ** Text files and CSV *)

(** The lines of a file opened in text mode (universal newlines): CR LF and
    lone CR read as LF; every line keeps its LF, except possibly the last. *)
Fixpoint file_lines_go (cur : string) (s : string) : list string :=
  match s with
  | EmptyString => if bool_decide (cur = "") then [] else [cur]
  | String c s' =>
      if Ascii.eqb c "010" then (cur +:+ String "010" "") :: file_lines_go "" s'
      else if Ascii.eqb c "013" then
        match s' with
        | String "010" s'' => (cur +:+ String "010" "") :: file_lines_go "" s''
        | _ => (cur +:+ String "010" "") :: file_lines_go "" s'
        end
      else file_lines_go (cur +:+ String c "") s'
  end.

Definition file_lines (content : string) : list string := file_lines_go "" content.

(** [_comment_stripper]: [n] is the number of lines that were neither
    comments nor blank so far. *)
Fixpoint _comment_stripper_from (n : nat) (it : list string) : list string :=
  match it with
  | [] => []
  | line :: rest =>
      if Str.startswith "#" line then _comment_stripper_from n rest
      else if bool_decide (Str.strip line = "") then _comment_stripper_from n rest
      else if bool_decide (S n = 1) then _comment_stripper_from (S n) rest
      else line :: _comment_stripper_from (S n) rest
  end.

Definition _comment_stripper (it : list string) : list string :=
  _comment_stripper_from 0 it.

(** [csv.reader(lines, delimiter='\t')]: the reader of CPython's [_csv]
    module with the default dialect otherwise (the double quote as quote
    character, doubled quotes, no escape character, not strict). *)
Module Csv.

Inductive state :=
| START_RECORD | START_FIELD | IN_FIELD
| IN_QUOTED_FIELD | QUOTE_IN_QUOTED_FIELD | EAT_CRNL.

Global Instance state_eq_dec : EqDecision state.
Proof. solve_decision. Defined.

Record parser := Parser {
  st : state;
  fields : list string;
  field : string;
  field_len : Z;
}.

Definition field_limit : Z := 131072.
Definition delimiter : ascii := "009".
Definition quotechar : ascii := "034".

Definition parse_reset : parser :=
  {| st := START_RECORD; fields := []; field := ""; field_len := 0 |}.

Definition set_state (s : state) (p : parser) : parser :=
  {| st := s; fields := fields p; field := field p; field_len := field_len p |}.

Definition parse_save_field (p : parser) : parser :=
  {| st := st p; fields := fields p ++ [field p]; field := ""; field_len := 0 |}.

Definition parse_add_char (c : ascii) (p : parser) : result parser :=
  if (field_len p >=? field_limit)%Z
  then Raise (CsvError "field larger than field limit (131072)")
  else Ok {| st := st p; fields := fields p;
             field := field p +:+ String c ""; field_len := field_len p + 1 |}.

Definition is_nl (c : option ascii) : bool :=
  match c with
  | Some a => Ascii.eqb a "010" || Ascii.eqb a "013"
  | None => false
  end.

(** After a field ended at a line end: [START_RECORD] at the end-of-line
    marker, [EAT_CRNL] at a newline character. *)
Definition after_eol (c : option ascii) : state :=
  match c with None => START_RECORD | Some _ => EAT_CRNL end.

Definition start_field (c : option ascii) (p : parser) : result parser :=
  match c with
  | None => Ok (set_state START_RECORD (parse_save_field p))
  | Some a =>
      if is_nl c then Ok (set_state EAT_CRNL (parse_save_field p))
      else if Ascii.eqb a quotechar then Ok (set_state IN_QUOTED_FIELD p)
      else if Ascii.eqb a delimiter then Ok (parse_save_field p)
      else set_state IN_FIELD <$> parse_add_char a p
  end.

(** [parse_process_char]; [None] is the end-of-line marker that the reader
    feeds after the characters of each line. *)
Definition parse_process_char (c : option ascii) (p : parser) : result parser :=
  match st p with
  | START_RECORD =>
      match c with
      | None => Ok p
      | Some _ =>
          if is_nl c then Ok (set_state EAT_CRNL p)
          else start_field c (set_state START_FIELD p)
      end
  | START_FIELD => start_field c p
  | IN_FIELD =>
      match c with
      | None => Ok (set_state START_RECORD (parse_save_field p))
      | Some a =>
          if is_nl c then Ok (set_state EAT_CRNL (parse_save_field p))
          else if Ascii.eqb a delimiter then Ok (set_state START_FIELD (parse_save_field p))
          else parse_add_char a p
      end
  | IN_QUOTED_FIELD =>
      match c with
      | None => Ok p
      | Some a =>
          if Ascii.eqb a quotechar then Ok (set_state QUOTE_IN_QUOTED_FIELD p)
          else parse_add_char a p
      end
  | QUOTE_IN_QUOTED_FIELD =>
      match c with
      | None => Ok (set_state START_RECORD (parse_save_field p))
      | Some a =>
          if Ascii.eqb a quotechar then set_state IN_QUOTED_FIELD <$> parse_add_char a p
          else if Ascii.eqb a delimiter then Ok (set_state START_FIELD (parse_save_field p))
          else if is_nl c then Ok (set_state EAT_CRNL (parse_save_field p))
          else set_state IN_FIELD <$> parse_add_char a p
      end
  | EAT_CRNL =>
      match c with
      | None => Ok (set_state START_RECORD p)
      | Some _ =>
          if is_nl c then Ok p
          else Raise (CsvError "new-line character seen in unquoted field")
      end
  end.

(** The characters of one line, then the end-of-line marker. *)
Fixpoint parse_line (line : string) (p : parser) : result parser :=
  match line with
  | EmptyString => parse_process_char None p
  | String c rest =>
      if Ascii.eqb c "000" then Raise (CsvError "line contains NULL byte")
      else
        match parse_process_char (Some c) p with
        | Ok p' => parse_line rest p'
        | Raise e => Raise e
        end
  end.

(** The records read from the remaining lines; [p] is the parser state
    inside the current record.  The reader is lazy: the records before an
    error are delivered, then the error is raised. *)
Fixpoint read_records (lines : list string) (p : parser) : list (list string) * option exn :=
  match lines with
  | [] =>
      if bool_decide (field_len p ≠ 0%Z) || bool_decide (st p = IN_QUOTED_FIELD)
      then ([fields (parse_save_field p)], None)
      else ([], None)
  | line :: rest =>
      match parse_line line p with
      | Raise e => ([], Some e)
      | Ok p' =>
          if bool_decide (st p' = START_RECORD)
          then let '(rs, e) := read_records rest parse_reset in (fields p' :: rs, e)
          else read_records rest p'
      end
  end.

Definition reader (lines : list string) : list (list string) * option exn :=
  read_records lines parse_reset.

End Csv.

(** A character that a TSV field carries unchanged: not TAB, LF, CR or NUL. *)
Definition plain_char (c : ascii) : bool :=
  negb (Ascii.eqb c "009" || Ascii.eqb c "010" || Ascii.eqb c "013" || Ascii.eqb c "000").

Fixpoint plain_chars (s : string) : bool :=
  match s with
  | EmptyString => true
  | String c s' => plain_char c && plain_chars s'
  end.

(** A field that the format carries unchanged: plain characters, no double
    quote at the start, and no longer than the reader's field limit. *)
Definition plain (s : string) : Prop :=
  plain_chars s = true
  ∧ Str.startswith (String Csv.quotechar "") s = false
  ∧ (Z.of_nat (String.length s) ≤ Csv.field_limit)%Z.

(** A character of a line: not LF, CR or NUL. *)
Definition line_char (c : ascii) : bool :=
  negb (Ascii.eqb c "010" || Ascii.eqb c "013" || Ascii.eqb c "000").

Fixpoint line_chars (s : string) : bool :=
  match s with
  | EmptyString => true
  | String c s' => line_char c && line_chars s'
  end.

(** ** Data frames (pandas) *)

(** A column of a data frame. *)
Record Series `{Float64} := {
  s_name : string;
  s_dtype : dtype;
  s_values : list value;
}.

(** A data frame: [nrows] is the length of its index; every column holds
    [nrows] cells. *)
Record DataFrame `{Float64} := {
  nrows : nat;
  series : list Series;
}.

(** [pd.DataFrame(rows, columns=names)] for a list of rows: the widest row
    must have as many cells as there are names; shorter rows are padded with
    [None].  Column types are settled by [astype] below. *)
Definition frame_of_rows `{Float64} (rows : list (list value)) (names : list string)
    : result DataFrame :=
  if bool_decide (rows ≠ []) && negb (max_list (length <$> rows) =? length names)
  then Raise (ValueError "columns passed, passed data had a different number of columns")
  else Ok {| nrows := length rows;
             series := imap (λ j n, {| s_name := n; s_dtype := object;
                                       s_values := (λ r, default VNone (r !! j)) <$> rows |})
                            names |}.

(** Lookup in the [dict] built from a list of pairs: the last pair with
    the key wins. *)
Fixpoint dict_get {A} (k : string) (l : list (string * A)) : option A :=
  match l with
  | [] => None
  | (k', v) :: rest =>
      match dict_get k rest with
      | Some x => Some x
      | None => if bool_decide (k = k') then Some v else None
      end
  end.

(** The cast of one cell by [astype].  The cells of a frame built by
    [_TidyTSVParser.read] are strings, NaN, the sentinel and [None]; the
    cast of a float other than NaN to an integer does not arise there and is
    not modelled further. *)
Definition astype_value `{Float64} (t : dtype) (v : value) : result value :=
  match t with
  | np_int =>
      match v with
      | VStr s =>
          match py_int s with
          | Some z => if in_int64 z then Ok (VInt z) else Raise OverflowError
          | None => Raise (ValueError "invalid literal for int() with base 10")
          end
      | VInt z => if in_int64 z then Ok (VInt z) else Raise OverflowError
      | VFloat None => Raise (ValueError "cannot convert float NaN to integer")
      | VFloat (Some _) => Raise TypeError
      | VNone => Raise TypeError
      end
  | np_float =>
      match v with
      | VStr s =>
          match float_of_str s with
          | Some x => Ok (VFloat x)
          | None => Raise (ValueError "could not convert string to float")
          end
      | VInt z => Ok (VFloat (Some (float_of_int z)))
      | VFloat x => Ok (VFloat x)
      | VNone => Ok NaN
      end
  | object => Ok v
  end.

(** [df.astype({name: type for name, type in cols})]: every column whose
    name is a key is cast, column by column. *)
Definition astype `{Float64} (df : DataFrame) (cols : list (string * dtype))
    : result DataFrame :=
  ss ← mapM (λ s,
         match dict_get (s_name s) cols with
         | Some t =>
             vs ← mapM (astype_value t) (s_values s);
             Ok {| s_name := s_name s; s_dtype := t; s_values := vs |}
         | None => Ok s
         end) (series df);
  Ok {| nrows := nrows df; series := ss |}.

(** The type of the array that holds one row of a frame with these column
    types: [object] beside any [object] column, else [float] beside any
    [float] column. *)
Definition common_dtype (ts : list dtype) : dtype :=
  if bool_decide (object ∈ ts) then object
  else if bool_decide (np_float ∈ ts) then np_float
  else np_int.

Definition upcast `{Float64} (t : dtype) (v : value) : value :=
  match t, v with
  | np_float, VInt z => VFloat (Some (float_of_int z))
  | _, _ => v
  end.

(** [df.iterrows()]: each row comes as one array, so its cells are
    converted to the common type of the columns. *)
Definition iterrows `{Float64} (df : DataFrame) : list (list value) :=
  let t := common_dtype (s_dtype <$> series df) in
  (λ i, (λ s, upcast t (default VNone (s_values s !! i))) <$> series df) <$> seq 0 (nrows df).

(** ** The tidy TSV codec: pure parts *)

(** [_tidy_data_dictionary_path] *)
Definition _tidy_data_dictionary_path (tsv_path : string) : result string :=
  let '(base, ext) := OsPath.splitext tsv_path in
  if bool_decide (ext = ".tsv") then Ok (base +:+ "_data_dictionary.tsv")
  else Raise AssertionError.

(** [_TidyTSVParser.parse_type] *)
Definition parse_type (name : string) : dtype :=
  if bool_decide (name = "int") then np_int
  else if bool_decide (name = "float") then np_float
  else object.

(** [_TidyTSVParser.__hack_na]; [i] is the index of the first cell of
    [row] within the whole row. *)
Fixpoint __hack_na_from `{Float64} (i : nat) (row : list string)
    (cols : list (string * dtype)) : result (list value) :=
  match row with
  | [] => Ok []
  | v :: rest =>
      x ← (if bool_decide (v ≠ "NA") then Ok (VStr v)
           else match cols !! i with
                | None => Raise IndexError
                | Some (_, np_float) => Ok NaN
                | Some (_, np_int) => Ok (VInt SENTINEL)
                | Some (_, object) => Ok VNone
                end);
      xs ← __hack_na_from (S i) rest cols;
      Ok (x :: xs)
  end.

Definition __hack_na `{Float64} (row : list string) (cols : list (string * dtype))
    : result (list value) :=
  __hack_na_from 0 row cols.

(** The cell that [__hack_na] makes of field [v] at index [j]. *)
Definition hack_cell `{Float64} (cols : list (string * dtype)) (j : nat) (v : string) : value :=
  if bool_decide (v ≠ "NA") then VStr v
  else match cols !! j with
       | Some (_, np_float) => NaN
       | Some (_, np_int) => VInt SENTINEL
       | _ => VNone
       end.

(** A lazy sequence that may end in an exception, consumed by a loop whose
    body may raise: the first exception in program order is raised. *)
Fixpoint consume {A B} (body : A → result B) (items : list A) (stop : option exn)
    : result (list B) :=
  match items with
  | [] => match stop with Some e => Raise e | None => Ok [] end
  | x :: rest =>
      y ← body x;
      ys ← consume body rest stop;
      Ok (y :: ys)
  end.

(** The loop of [_TidyTSVParser.__read_dictionary] over the rows of the
    dictionary file. *)
Definition dictionary_of_rows (rows : list (list string) * option exn)
    : result (list (string * dtype)) :=
  consume (λ row,
    match row with
    | n :: t :: _ => Ok (n, parse_type t)
    | _ => Raise IndexError
    end) rows.1 rows.2.

(** The body of [_TidyTSVParser.read] once both files are open. *)
Definition frame_of_tsv `{Float64} (cols : list (string * dtype))
    (rows : list (list string) * option exn) : result DataFrame :=
  rs ← consume (λ row, __hack_na row cols) rows.1 rows.2;
  df ← frame_of_rows rs (cols.*1);
  astype df cols.

(** The decoding as the specification words it.  One field of a column of
    type [t]: the token NA becomes the column's missing value (the sentinel
    integer, NaN or an absent value); any other field is kept and cast to
    [t]. *)
Definition tidy_cell `{Float64} (t : dtype) (v : string) : result value :=
  if bool_decide (v = "NA") then
    Ok match t with
       | np_int => VInt SENTINEL
       | np_float => NaN
       | object => VNone
       end
  else astype_value t (VStr v).

(** The table of the specification: column [j] of the dictionary holds the
    decoded [j]-th field of every row. *)
Definition decode_table `{Float64} (cols : list (string * dtype))
    (rows : list (list string)) : result DataFrame :=
  ss ← mapM (λ jc : nat * (string * dtype),
         vs ← mapM (λ row, tidy_cell jc.2.2 (default "" (row !! jc.1))) rows;
         Ok {| s_name := jc.2.1; s_dtype := jc.2.2; s_values := vs |})
       (imap pair cols);
  Ok {| nrows := length rows; series := ss |}.

(** [_TidyTSVWriter.numpy_type_to_tidy] *)
Definition numpy_type_to_tidy (t : dtype) : string :=
  match t with
  | np_int => "int"
  | np_float => "float"
  | object => "string"
  end.

(** [_TidyTSVWriter.numpy_value_to_tidy]: [v in (None, -9999999)] compares
    with [==], so the float equal to the sentinel is caught too. *)
Definition numpy_value_to_tidy `{Float64} (v : value) : string :=
  match v with
  | VNone => "NA"
  | VInt z => if bool_decide (z = SENTINEL) then "NA" else Str.of_Z z
  | VFloat None => "NA"
  | VFloat (Some x) =>
      if bool_decide (x = float_of_int SENTINEL) then "NA" else str_of_float x
  | VStr s => s
  end.

Definition TAB : string := String "009" "".
Definition LF : string := String "010" "".

(** The lines printed into the dictionary file and into the data file. *)
Definition dictionary_lines `{Float64} (df : DataFrame) : list string :=
  ("column_name" +:+ TAB +:+ "type" +:+ TAB +:+ "description")
  :: ((λ s, s_name s +:+ TAB +:+ numpy_type_to_tidy (s_dtype s) +:+ TAB +:+ "Unknown")
        <$> series df).

Definition data_lines `{Float64} (df : DataFrame) : list string :=
  Str.join TAB (s_name <$> series df)
  :: ((λ np_row, Str.join TAB (numpy_value_to_tidy <$> np_row)) <$> iterrows df).

(** The text of a file into which [lines] were printed. *)
Definition printed (lines : list string) : string :=
  String.concat "" ((λ l, l +:+ LF) <$> lines).

(** *** Tables that the file pair carries unchanged *)

(** A cell of a column of type [t] that is read back as it was written: it
    has the column's type; an integer fits 64 bits; a float is NaN, or is
    not the sentinel, is printed as something other than NA and is read back
    from its printed form; a string is not NA. *)
Definition cell_ok `{Float64} (t : dtype) (v : value) : Prop :=
  match t, v with
  | np_int, VInt z => in_int64 z = true
  | np_float, VFloat None => True
  | np_float, VFloat (Some x) =>
      x ≠ float_of_int SENTINEL
      ∧ str_of_float x ≠ "NA"
      ∧ float_of_str (str_of_float x) = Some (Some x)
  | object, VStr s => s ≠ "NA"
  | object, VNone => True
  | _, _ => False
  end.

Record tidy_safe `{Float64} (df : DataFrame) : Prop := {
  (** every column has [nrows] cells *)
  safe_shape : Forall (λ s, length (s_values s) = nrows df) (series df);
  (** no column name occurs twice *)
  safe_names : NoDup (s_name <$> series df);
  (** the cells have the types of their columns and are read back *)
  safe_cells : Forall (λ s, Forall (cell_ok (s_dtype s)) (s_values s)) (series df);
  (** every name and every printed cell is a plain field *)
  safe_fields :
    Forall (λ s, plain (s_name s)
                 ∧ Forall (λ v, plain (numpy_value_to_tidy v)) (s_values s))
           (series df);
  (** [iterrows] converts no cell: not both an int and a float column
      without an object column *)
  safe_rows :
    object ∈ (s_dtype <$> series df) ∨ np_float ∉ (s_dtype <$> series df)
    ∨ np_int ∉ (s_dtype <$> series df);
  (** no printed line is a comment or blank *)
  safe_lines :
    Forall (λ l, Str.startswith "#" l = false ∧ Str.strip l ≠ "")
           (dictionary_lines df ++ data_lines df);
}.

(** The fields of the dictionary rows and of the data rows. *)
Definition dictionary_rows `{Float64} (df : DataFrame) : list (list string) :=
  (λ s, [s_name s; numpy_type_to_tidy (s_dtype s); "Unknown"]) <$> series df.

Definition tidy_rows `{Float64} (df : DataFrame) : list (list string) :=
  (λ np_row : list value, numpy_value_to_tidy <$> np_row) <$> iterrows df.

(** ** The session object *)

(** The fields of a [GQL] object.  [seq] is the next value of the
    [itertools.count()] behind [self.__seq]. *)
Record GQL := {
  gql_path : string;
  grail_file_path : string;
  default_flags : list string;
  default_params : list (string * string);
  default_max_retries : Z;
  seq : Z;
  log_dir : string;
}.

Definition next_seq (q : GQL) : GQL :=
  {| gql_path := gql_path q; grail_file_path := grail_file_path q;
     default_flags := default_flags q; default_params := default_params q;
     default_max_retries := default_max_retries q;
     seq := seq q + 1; log_dir := log_dir q |}.

(** The fields of an [_Instance] that [run] reads. *)
Record Instance := {
  i_gql : GQL;
  i_label : string;
  i_script_path : string;
  i_gql_flags : list string;
  i_gql_params : list (string * string);
  i_max_retries : Z;
  i_log_prefix : string;
}.

(** A file-like object returned by [GQL.create_file]: a local file, or an
    [_S3FileWriter] with its local staging file. *)
Inductive writer :=
| LocalFile (path : string)
| S3FileWriter (s3_path local_path : string).

Definition backing (h : writer) : string :=
  match h with
  | LocalFile p => p
  | S3FileWriter _ l => l
  end.

(** [k, v = key] on a string: it must have exactly two characters. *)
Definition unpack2 (key : string) : result (string * string) :=
  match key with
  | String a (String b EmptyString) => Ok (String a "", String b "")
  | String _ (String _ (String _ _)) =>
      Raise (ValueError "too many values to unpack (expected 2)")
  | _ => Raise (ValueError "not enough values to unpack")
  end.

(** [[f'--{k}={v}' for k, v in self.gql_params]]: iterating a [dict]
    yields its keys, in insertion order. *)
Definition render_params (gql_params : list (string * string)) : result (list string) :=
  mapM (λ key, '(k, v) ← unpack2 key; Ok ("--" +:+ k +:+ "=" +:+ v)) (gql_params.*1).

(** The paths that one job writes, from its [log_prefix]. *)
Definition log_path_of (log_prefix : string) : string := log_prefix +:+ "log.txt".

(** [temp_path] of [GQL.eval] *)
Definition temp_path_of (q : GQL) (label : string) (seq : Z) : string :=
  log_dir q +:+ "-" +:+ label +:+ "-expr_to_dataframe_tmp-" +:+ Str.of_Z seq +:+ ".tsv".


(** ** The sampler thread ([_Instance.__pprof]) on a time line

    One sampler thread is sequential code whose only contact with the other
    threads is the flag [self.done] and the condition variable.  Its run is
    modelled against a clock: [stop] is the time at which [__join_pprof]
    sets the flag and notifies; [cpu k] and [heap k] are the times that the
    two [go tool pprof] calls of snapshot [k] take.  Computation takes no
    time.  [done_cv.wait(30)] entered at [now] returns at [stop] when the
    notification arrives during the wait, and at [now + 30] otherwise (a
    notification sent before the wait began is not seen by it). *)
Module Sampler.

Inductive activity :=
| Wait (from until : nat)
| FetchCpu (k : nat) (from until : nat)
| FetchHeap (k : nat) (from until : nat)
| Sleep (from until : nat).

Definition interval : nat := 30.

(** [__wait_pprof_timeout] entered at [now]: the time it returns and its
    result [not self.done]. *)
Definition __wait_pprof_timeout (stop now : nat) : nat * bool :=
  let woke := if (now <? stop) && (stop <? now + interval) then stop else now + interval in
  (woke, negb (stop <=? woke)).

(** [__pprof]: the activities of the thread from [now] on, with snapshot
    counter [k], and the time at which it returns.  [None] when [fuel]
    iterations of the loop were not enough. *)
Fixpoint __pprof (fuel : nat) (stop : nat) (cpu heap : nat → nat) (k now : nat)
    : option (list activity * nat) :=
  match fuel with
  | O => None
  | S fuel' =>
      let '(woke, go_on) := __wait_pprof_timeout stop now in
      if go_on then
        let t1 := woke + cpu k in
        let t2 := t1 + heap k in
        let t3 := t2 + interval in
        match __pprof fuel' stop cpu heap (S k) t3 with
        | Some (acts, fin) =>
            Some (Wait now woke :: FetchCpu k woke t1 :: FetchHeap k t1 t2
                  :: Sleep t2 t3 :: acts, fin)
        | None => None
        end
      else Some ([Wait now woke], woke)
  end.





End Sampler.

(** ** The environment of a run *)

(** What the code takes from outside the interpreter. *)
Class Env := {
  (** What an external program does when started with [argv] in a given
      world: its exit status and the local files it leaves behind.  This
      covers the query engine, [grail-file cp], and [go tool pprof]. *)
  exec : list string → world → Z * gmap string string;
  (** Whether an output operation succeeds in a given world (the directory
      exists, the disk is not full, ...). *)
  io_ok : world → io_op → bool;
  (** [os.path.abspath], which depends on the working directory. *)
  os_path_abspath : string → string;
  (** The built-in [hash] on strings (seeded per interpreter). *)
  py_hash : string → Z;
  (** The candidate names drawn by [tempfile] for one file: the [k]-th
      random component tried in a given world. *)
  temp_candidate : world → nat → string;
  (** [os.environ['USER']] *)
  USER : string;
}.

(** ** Environments used in examples *)

(** A small exact instance of [Float64] for examples: finite decimals
    [m / 10^e], kept with [m] not divisible by 10 unless [e = 0]. *)
Module Dec.

Fixpoint normalize (fuel : nat) (m : Z) (e : nat) : Z * nat :=
  match fuel, e with
  | S fuel', S e' => if (m mod 10 =? 0)%Z then normalize fuel' (m / 10)%Z e' else (m, e)
  | _, _ => (m, e)
  end.

(** Digits, with at most one point; [seen] is the number of digits after
    the point once it was met. *)
Fixpoint digits (acc : Z) (seen : option nat) (any : bool) (s : string)
    : option (Z * nat) :=
  match s with
  | EmptyString => if any then Some (acc, default 0 seen) else None
  | String c s' =>
      if is_digit c then digits (10 * acc + digit_val c)%Z (S <$> seen) true s'
      else if Ascii.eqb c "." then
        match seen with
        | None => digits acc (Some 0) any s'
        | Some _ => None
        end
      else None
  end.

Definition of_str (s : string) : option (option (Z * nat)) :=
  let s := Str.strip s in
  if bool_decide (s = "nan") || bool_decide (s = "NaN") then Some None
  else
    let '(neg, body) :=
      match s with
      | String "-" r => (true, r)
      | String "+" r => (false, r)
      | _ => (false, s)
      end in
    match digits 0 None false body with
    | Some (m, e) => Some (Some (normalize e (if neg then - m else m)%Z e))
    | None => None
    end.

(** Insert the point [e] digits from the right of the digits [ds]. *)
Definition to_str (x : Z * nat) : string :=
  let '(m, e) := x in
  let ds := Str.of_Z (Z.abs m) in
  let pad := String.concat "" (replicate (S e - String.length ds) "0") +:+ ds in
  let n := String.length pad - e in
  (if (m <? 0)%Z then "-" else "") +:+ String.substring 0 n pad +:+ "."
  +:+ (if bool_decide (e = 0) then "0" else String.substring n e pad).

Global Instance float64 : Float64 := {|
  f64 := Z * nat;
  float_of_str := of_str;
  str_of_float := to_str;
  float_of_int := λ z, (z, 0);
|}.

End Dec.

(** An engine that exits with a fixed status and touches no file. *)
Definition exec_exit (status : Z) : list string → world → Z * gmap string string :=
  λ _ w, (status, files w).

(** An engine that fails until it was started [n] times, then succeeds. *)
Definition exec_fail_first (n : nat) : list string → world → Z * gmap string string :=
  λ _ w, (if length (trace w) <? n then 1%Z else 0%Z, files w).

(** [grail-file cp src dst]: the copy arrives at a local destination. *)
Definition exec_cp : list string → world → Z * gmap string string :=
  λ argv w,
    match argv with
    | [_; "cp"; src; dst] =>
        if Str.startswith "s3:" dst then (0%Z, files w)
        else (0%Z, <[dst := "data"]> (files w))
    | _ => (0%Z, files w)
    end.

Definition io_always : world → io_op → bool := λ _ _, true.

Definition temp_names : world → nat → string := λ _ k, "tmp" +:+ Str.of_Z (Z.of_nat k).

Definition empty_world : world := {| files := ∅; trace := [] |}.

Definition test_session : GQL :=
  {| gql_path := "/bin/grail-query"; grail_file_path := "/bin/grail-file";
     default_flags := []; default_params := []; default_max_retries := 1;
     seq := 0; log_dir := "/tmp/log2018-08-01T00-00-00Z" |}.

(** A tidy table on disk: the dictionary and the data of the scenario of
    the specification, with a comment and a blank line in the data file. *)
Definition example_dictionary_text : string :=
  "column_name" +:+ TAB +:+ "type" +:+ TAB +:+ "description" +:+ LF
  +:+ "A" +:+ TAB +:+ "int" +:+ TAB +:+ "first" +:+ LF
  +:+ "B" +:+ TAB +:+ "string" +:+ TAB +:+ "second" +:+ LF
  +:+ "D" +:+ TAB +:+ "float" +:+ TAB +:+ "third" +:+ LF.

Definition example_data_text : string :=
  "# a comment" +:+ LF
  +:+ "A" +:+ TAB +:+ "B" +:+ TAB +:+ "D" +:+ LF
  +:+ "1" +:+ TAB +:+ "/a" +:+ TAB +:+ "2.5" +:+ LF
  +:+ LF
  +:+ "2" +:+ TAB +:+ "s3://a" +:+ TAB +:+ "NA" +:+ LF.

Definition example_world : world :=
  {| files := {[ "/data/data2_data_dictionary.tsv" := example_dictionary_text;
                 "/data/data2.tsv" := example_data_text ]};
     trace := [] |}.

(** The table of the scenario; the float 2.5 is [(25, 1)] in [Dec]. *)
Definition example_frame : @DataFrame Dec.float64 :=
  {| nrows := 2;
     series :=
       [ {| s_name := "A"; s_dtype := np_int; s_values := [VInt 1; VInt 2] |};
         {| s_name := "B"; s_dtype := object;
            s_values := [VStr "/a"; VStr "s3://a"] |};
         {| s_name := "D"; s_dtype := np_float;
            s_values := [VFloat (Some (25%Z, 1)); NaN] |} ] |}.

(** The environment of the examples, around a given behaviour of the
    external programs. *)
Definition test_env (ex : list string → world → Z * gmap string string) : Env :=
  {| exec := ex; io_ok := io_always; os_path_abspath := λ p, p;
     py_hash := λ _, 7%Z; temp_candidate := temp_names; USER := "u" |}.

(** ** Subprocesses and files *)

Section Driver.

Context `{Env} `{Float64}.

(** [subprocess.call(argv, ...)] *)
Definition launch (argv : list string) (w : world) : Z * world :=
  let '(st, fs) := exec argv w in
  (st, emit (EvCall argv st) (set_files fs w)).

Definition subprocess_call (argv : list string) : M Z := λ w,
  let '(st, w') := launch argv w in (Ok st, w').

(** [subprocess.check_call(argv)] *)
Definition subprocess_check_call (argv : list string) : M unit :=
  st ← subprocess_call argv;
  if (st =? 0)%Z then mret tt else raise (CalledProcessError argv st).

(** An output operation: it either fails with [OSError], leaving no trace,
    or takes effect on the files and is recorded. *)
Definition do_io (op : io_op) : M unit := λ w,
  if io_ok w op then
    let fs :=
      match op with
      | OpOpen path => <[path := ""]> (files w)
      | OpWrite path data => <[path := default "" (files w !! path) +:+ data]> (files w)
      | OpClose _ => files w
      end in
    (Ok tt, emit (EvIO op) (set_files fs w))
  else
    (Raise (OSError match op with OpOpen p | OpWrite p _ | OpClose p => p end), w).

(** [open(path).read()] *)
Definition read_file (path : string) : M string := λ w,
  match files w !! path with
  | Some c => (Ok c, w)
  | None => (Raise (FileNotFoundError path), w)
  end.

(** [os.path.exists(path)] *)
Definition os_path_exists (path : string) : M bool := λ w,
  (Ok (bool_decide (is_Some (files w !! path))), w).

(** ** [GQL]: file helpers *)

(** [CACHE_DIR] *)
Definition CACHE_DIR : string := "/tmp/gql_python_cache_" +:+ USER.

(** [_removeall]: [os.remove] and [shutil.rmtree], errors ignored.  The
    modelled file system holds regular files only. *)
Definition _removeall (path : string) : M unit := λ w,
  if Str.startswith "s3://" path then (Ok tt, w)
  else (Ok tt, set_files (delete path (files w)) w).

(** [abspath] *)
Definition abspath (path : string) : string :=
  if Str.startswith "s3:" path then path else os_path_abspath path.

(** [GQL.copy_file] *)
Definition copy_file (q : GQL) (from_path to_path : string) : M unit :=
  try_finally
    (subprocess_check_call [grail_file_path q; "cp"; abspath from_path; abspath to_path])
    (_removeall to_path).

(** [GQL.maybe_cache_file] *)
Definition maybe_cache_file (q : GQL) (path : string) : M string :=
  if Str.startswith "s3://" path then
    let local_path := OsPath.join CACHE_DIR (Str.replace_char "/" "_" path) in
    ex ← os_path_exists local_path;
    (if negb ex then copy_file q path local_path else mret tt);;
    mret local_path
  else mret path.

(** [GQL.open_file(path).read()] *)
Definition open_file (q : GQL) (path : string) : M string :=
  p ← maybe_cache_file q path;
  read_file p.

(** [GQL.file_exists] *)
Definition file_exists (q : GQL) (path : string) : M bool := λ w,
  match open_file q path w with
  | (Ok _, w') => (Ok true, w')
  | (Raise (CalledProcessError _ _), w') => (Ok false, w')
  | (Raise (FileNotFoundError _), w') => (Ok false, w')
  | (Raise e, w') => (Raise e, w')
  end.

(** [GQL.create_file], with [_S3FileWriter.__init__] *)
Definition create_file (q : GQL) (path : string) : M writer :=
  if Str.startswith "s3://" path then
    let local_path := OsPath.join CACHE_DIR (Str.replace_char "/" "_" path +:+ "tmp") in
    do_io (OpOpen local_path);;
    mret (S3FileWriter path local_path)
  else
    do_io (OpOpen path);;
    mret (LocalFile path).

(** [fd.write(data)] *)
Definition writer_write (h : writer) (data : string) : M unit :=
  do_io (OpWrite (backing h) data).

(** [print(line, file=fd)]: the text, then the line end. *)
Definition print (h : writer) (line : string) : M unit :=
  writer_write h line;;
  writer_write h LF.

(** [fd.close()], with [_S3FileWriter.close] *)
Definition writer_close (q : GQL) (h : writer) : M unit :=
  match h with
  | LocalFile p => do_io (OpClose p)
  | S3FileWriter s3_path local_path =>
      do_io (OpClose local_path);;
      copy_file q local_path s3_path
  end.

(** [with fd: body]: [__exit__] closes the file; after an exception in the
    body an [_S3FileWriter] only closes its local file, and the exception
    goes on. *)
Definition with_writer (q : GQL) (h : writer) (body : M unit) : M unit := λ w,
  match body w with
  | (Ok _, w1) => writer_close q h w1
  | (Raise e, w1) =>
      match do_io (OpClose (backing h)) w1 with
      | (Ok _, w2) => (Raise e, w2)
      | (Raise e', w2) => (Raise e', w2)
      end
  end.

Fixpoint for_each {A} (l : list A) (body : A → M unit) : M unit :=
  match l with
  | [] => mret tt
  | x :: rest => body x;; for_each rest body
  end.

(** [GQL.open_tsv] *)
Definition open_tsv (q : GQL) (path : string) : M (list (list string) * option exn) :=
  path ← maybe_cache_file q path;
  path ← (if Str.endswith ".btsv" path then
            let tsv_path := Str.replace ".btsv" ".tsv" path in
            ex ← os_path_exists tsv_path;
            (if negb ex then
               subprocess_check_call
                 ["grail-query"; "-overwrite-files"; "-eval";
                  "read(`" +:+ path +:+ "`) | write(`" +:+ tsv_path +:+ "`)"]
             else mret tt);;
            mret tsv_path
          else mret path);
  content ← read_file path;
  mret (Csv.reader (_comment_stripper (file_lines content))).

(** ** [_TidyTSVParser] and [_TidyTSVWriter] *)

(** [_TidyTSVParser.__read_dictionary] *)
Definition __read_dictionary (q : GQL) (tsv_path : string) : M (list (string * dtype)) :=
  dict_path ← lift (_tidy_data_dictionary_path tsv_path);
  rows ← open_tsv q dict_path;
  lift (dictionary_of_rows rows).

(** [_TidyTSVParser.read] *)
Definition TidyTSVParser_read (q : GQL) (tsv_path : string) : M DataFrame :=
  cols ← __read_dictionary q tsv_path;
  rows ← open_tsv q tsv_path;
  lift (frame_of_tsv cols rows).

(** [_TidyTSVWriter.write] *)
Definition TidyTSVWriter_write (q : GQL) (df : DataFrame) (tsv_path : string) : M unit :=
  dict_path ← lift (_tidy_data_dictionary_path tsv_path);
  fd ← create_file q dict_path;
  with_writer q fd (for_each (dictionary_lines df) (print fd));;
  fd ← create_file q tsv_path;
  with_writer q fd (for_each (data_lines df) (print fd)).

(** [GQL.tidytsv_to_dataframe] and [GQL.dataframe_to_tidytsv] *)
Definition tidytsv_to_dataframe (q : GQL) (path : string) : M DataFrame :=
  TidyTSVParser_read q path.

Definition dataframe_to_tidytsv (q : GQL) (df : DataFrame) (path : string) : M unit :=
  TidyTSVWriter_write q df path.

(** The writer that [create_file] returns for a path. *)
Definition writer_for (path : string) : writer :=
  if Str.startswith "s3://" path
  then S3FileWriter path
         (OsPath.join CACHE_DIR (Str.replace_char "/" "_" path +:+ "tmp"))
  else LocalFile path.

(** The events of printing [lines] into the file at [b]. *)
Definition line_events (b : string) (lines : list string) : list event :=
  flat_map (λ l, [EvIO (OpWrite b l); EvIO (OpWrite b LF)]) lines.

(** The events of closing a writer with success: the file is closed, and an
    [_S3FileWriter] uploads its local file. *)
Definition closing_events (q : GQL) (h : writer) : list event :=
  EvIO (OpClose (backing h))
  :: match h with
     | LocalFile _ => []
     | S3FileWriter s3_path local_path =>
         [EvCall [grail_file_path q; "cp"; abspath local_path; abspath s3_path] 0]
     end.

(** The events of writing [lines] completely through a writer: the file is
    opened, every line is printed, and the writer is closed. *)
Definition written_events (q : GQL) (h : writer) (lines : list string) : list event :=
  EvIO (OpOpen (backing h)) :: line_events (backing h) lines ++ closing_events q h.

(** An operation on the file at [path]. *)
Definition touches (path : string) (ev : event) : Prop :=
  match ev with
  | EvIO (OpOpen p) | EvIO (OpWrite p _) | EvIO (OpClose p) => p = path
  | EvCall _ _ => False
  end.

(** ** [_Instance] *)

Definition TMP_MAX : nat := 100 * 100.

(** [tempfile.NamedTemporaryFile(mode='w', delete=False, dir=dir,
    prefix=pre, suffix=suf)]: candidate names are tried until one does not
    exist; the file is created and its absolute name returned.  [n] is the
    number of attempts left and [k] the index of the next candidate. *)
Fixpoint mkstemp_from (n k : nat) (dir pre suf : string) (w : world) : result string * world :=
  match n with
  | O => (Raise (OSError "No usable temporary file name found"), w)
  | S n' =>
      let file := os_path_abspath (OsPath.join dir (pre +:+ temp_candidate w k +:+ suf)) in
      if bool_decide (is_Some (files w !! file))
      then mkstemp_from n' (S k) dir pre suf w
      else (do_io (OpOpen file);; mret file) w
  end.

Definition NamedTemporaryFile (dir pre suf : string) : M string :=
  mkstemp_from TMP_MAX 0 dir pre suf.

(** [_Instance.__init__] *)
Definition Instance_init (q : GQL) (label script_path expr : string)
    (gql_flags : list string) (gql_params : list (string * string))
    (max_retries : Z) : M Instance :=
  if bool_decide (script_path = "") && bool_decide (expr = "") then
    raise (Exception "Exactly one of script_path or expr must be set")
  else if bool_decide (label = "") then
    raise (Exception "label cannot be empty")
  else
    let log_prefix := OsPath.join (log_dir q) label in
    script_path ←
      (if bool_decide (expr ≠ "") then
         let prefix := log_prefix +:+ "scripttmp" in
         name ← NamedTemporaryFile (OsPath.dirname prefix) (OsPath.basename prefix) ".gql";
         do_io (OpWrite name expr);;
         do_io (OpClose name);;
         mret name
       else mret script_path);
    mret {| i_gql := q; i_label := label; i_script_path := script_path;
            i_gql_flags := gql_flags; i_gql_params := gql_params;
            i_max_retries := max_retries; i_log_prefix := log_prefix |}.

(** The retry loop of [_Instance.run] (gql.py lines 443-451).  [retries]
    counts from 0; [status] is [self.status].  The loop is bounded by [fuel]
    iterations; [None] means that the bound was too small. *)
Fixpoint retry_loop (fuel : nat) (cmdline : list string) (max_retries : Z)
    (retries : Z) (status : Z) (w : world) : option (Z * world) :=
  if (retries <=? max_retries)%Z then
    match fuel with
    | O => None
    | S fuel' =>
        let '(st, w') := launch cmdline w in
        if (st =? 0)%Z then Some (st, w')
        else retry_loop fuel' cmdline max_retries (retries + 1) st w'
    end
  else Some (status, w).

(** The loop with the bound it needs: [max_retries + 1] iterations. *)
Definition run_loop (cmdline : list string) (max_retries : Z) : M Z := λ w,
  match retry_loop (Z.to_nat (max_retries + 1)) cmdline max_retries 0 0 w with
  | Some (st, w') => (Ok st, w')
  | None => (Ok 0%Z, w)
  end.

(** The command line composed by [_Instance.run]. *)
Definition cmdline_of (i : Instance) : result (list string) :=
  let log_path := log_path_of (i_log_prefix i) in
  let bm_port := (2000 + py_hash log_path `mod` 20000)%Z in
  let main_port := (22000 + py_hash log_path `mod` 20000)%Z in
  let gql_flags := i_gql_flags i ++
    ["--pprof=:" +:+ Str.of_Z main_port;
     "--bigslice.http=:" +:+ Str.of_Z bm_port;
     "--bigslice.parallelism=8192";
     "--bigslice.system=ec2-gql"] in
  gql_params ← render_params (i_gql_params i);
  Ok ([gql_path (i_gql i)] ++ gql_flags ++ [i_script_path i] ++ gql_params).

(** [_Instance.run], as the calling thread executes it.  The two sampler
    threads started and joined around the loop are modelled apart, in
    [Sampler]. *)
Definition Instance_run (i : Instance) : M Z :=
  do_io (OpOpen (log_path_of (i_log_prefix i)));;
  cmdline ← lift (cmdline_of i);
  run_loop cmdline (i_max_retries i).

(** ** [GQL.eval] and [GQL.run] *)

(** [GQL.eval]; the session object comes back with its counter advanced. *)
Definition GQL_eval (q : GQL) (expr script_path label : string) (flags : list string)
    (gql_params : list (string * string)) (max_retries : Z) (w : world)
    : result DataFrame * GQL * world :=
  if bool_decide (bool_decide (expr = "") = bool_decide (script_path = "")) then
    (Raise (Exception "run: Exactly one of expr or script_path must be set"), q, w)
  else
    let label := if bool_decide (label = "") then "anon_expr" else label in
    let flags := if bool_decide (flags = []) then default_flags q else flags in
    let max_retries := if (max_retries <? 0)%Z then default_max_retries q else max_retries in
    let gql_params := if bool_decide (gql_params = []) then default_params q else gql_params in
    let temp_path := temp_path_of q label (seq q) in
    let q := next_seq q in
    let '(r, w') :=
      (instance ← Instance_init q label script_path expr
                    (flags ++ ["--output=" +:+ temp_path]) gql_params max_retries;
       status ← Instance_run instance;
       if bool_decide (status ≠ 0%Z) then
         raise (Exception ("eval " +:+ expr +:+ ": gql finished with status " +:+ Str.of_Z status))
       else tidytsv_to_dataframe q temp_path) w in
    (r, q, w').

(** [GQL.run] *)
Definition GQL_run (q : GQL) (expr script_path label : string) (flags : list string)
    (gql_params : list (string * string)) (max_retries : Z) : M Z :=
  if bool_decide (bool_decide (expr = "") = bool_decide (script_path = "")) then
    raise (Exception "run: Exactly one of expr or script_path must be set")
  else
    let label := if bool_decide (label = "") then "anon_run" else label in
    let flags := if bool_decide (flags = []) then default_flags q else flags in
    let max_retries := if (max_retries <? 0)%Z then default_max_retries q else max_retries in
    let gql_params := if bool_decide (gql_params = []) then default_params q else gql_params in
    instance ← Instance_init q label script_path expr flags gql_params max_retries;
    Instance_run instance.

(** [GQL.copy_tsv] *)
Definition copy_tsv (q : GQL) (from_path to_path : string) : M Z :=
  let from_path := abspath from_path in
  let to_path := abspath to_path in
  try_except_reraise
    (instance ← Instance_init q "copy_tsv" ""
                  ("read(`" +:+ from_path +:+ "`) | write(`" +:+ to_path +:+ "`)")
                  ["-overwrite-files"] [] 0;
     Instance_run instance)
    (_removeall to_path).

End Driver.

(** ** Tables written and read back in examples *)

Definition one_column (t : dtype) (v : @value Dec.float64) : @DataFrame Dec.float64 :=
  {| nrows := 1; series := [ {| s_name := "B"; s_dtype := t; s_values := [v] |} ] |}.

Definition no_rows : @DataFrame Dec.float64 :=
  {| nrows := 0; series := [ {| s_name := "B"; s_dtype := object; s_values := [] |} ] |}.

(** An integer column beside a float column, and no string column. *)
Definition mixed_frame : @DataFrame Dec.float64 :=
  {| nrows := 1;
     series :=
       [ {| s_name := "A"; s_dtype := np_int; s_values := [VInt 1] |};
         {| s_name := "D"; s_dtype := np_float;
            s_values := [VFloat (Some (25%Z, 1))] |} ] |}.

(** [dataframe_to_tidytsv(df, '/tmp/t.tsv')] in a world without files, then
    [tidytsv_to_dataframe('/tmp/t.tsv')]: the outcome of each call. *)
Definition written_and_read (df : @DataFrame Dec.float64)
    : result unit * result (@DataFrame Dec.float64) :=
  let E := test_env (exec_exit 0) in
  let wr := @dataframe_to_tidytsv E Dec.float64 test_session df "/tmp/t.tsv" empty_world in
  (wr.1, (@tidytsv_to_dataframe E Dec.float64 test_session "/tmp/t.tsv" wr.2).1).

(** ** Jobs and caches used in examples *)

(** A job of the example session with a given [max_retries]. *)
Definition example_job (m : Z) : Instance :=
  {| i_gql := test_session; i_label := "job"; i_script_path := "x.gql";
     i_gql_flags := []; i_gql_params := []; i_max_retries := m;
     i_log_prefix := "/tmp/log2018-08-01T00-00-00Z/job" |}.

(** A world in which the cache holds a copy made for [s3://bucket/x/y]. *)
Definition cached_world : world :=
  {| files := {[ "/tmp/gql_python_cache_u/s3:__bucket_x_y" := "old" ]};
     trace := [] |}.

(** * run.py *)

Module RunPy.

(** [s] cut at its first equals sign: the text before and the text after. *)
Fixpoint split_eq (s : string) : option (string * string) :=
  match s with
  | EmptyString => None
  | String c s' =>
      if Ascii.eqb c "=" then Some (EmptyString, s')
      else match split_eq s' with
           | Some (k, v) => Some (String c k, v)
           | None => None
           end
  end.

(** The longest prefix without a line feed: what a dot under a star
    matches. *)
Fixpoint until_newline (s : string) : string :=
  match s with
  | EmptyString => EmptyString
  | String c s' => if Ascii.eqb c "010" then EmptyString else String c (until_newline s')
  end.

(** The [re.match] of [main] on one parameter: two dashes, group 1 (one
    or more characters other than the equals sign), an equals sign, group 2
    (any characters other than a line feed).  The result holds the two
    groups, if the pattern matches at the start of [param]: the key is the
    non-empty text between the dashes and the first equals sign, the value
    runs to the end of the line. *)
Definition match_param (param : string) : option (string * string) :=
  match param with
  | String "-" (String "-" rest) =>
      match split_eq rest with
      | Some (k, v) => if bool_decide (k = "") then None else Some (k, until_newline v)
      | None => None
      end
  | _ => None
  end.

(** [d[k] = v] on a [dict] kept as the list of its items in insertion
    order: a present key keeps its place. *)
Fixpoint dict_set (k v : string) (d : list (string * string)) : list (string * string) :=
  match d with
  | [] => [(k, v)]
  | (k', v') :: rest =>
      if bool_decide (k = k') then (k, v) :: rest else (k', v') :: dict_set k v rest
  end.

(** The loop of [main] over [args.params] (run.py lines 40-45), from the
    dictionary [d] built so far. *)
Fixpoint parse_params (params : list string) (d : list (string * string))
    : result (list (string * string)) :=
  match params with
  | [] => Ok d
  | param :: rest =>
      match match_param param with
      | None =>
          Raise (Exception ("GQL param must be in form --key=value, but got " +:+ param))
      | Some (k, v) => parse_params rest (dict_set k v d)
      end
  end.

Section Main.

Context `{Env} `{Float64}.


(** The call of the callback when [--quintile] is not given. *)
Definition single_job (q : GQL) (script : string) (gql_params : list (string * string))
    : M Z :=
  GQL_run q "" script "" [] gql_params 0.

End Main.

End RunPy.

(** * Properties *)

(** ** Facts about strings *)

Lemma app_cons c a b : String c a +:+ b = String c (a +:+ b).
Proof. reflexivity. Qed.

Lemma app_nil_l_s a : "" +:+ a = a.
Proof. reflexivity. Qed.

Lemma app_nil_r_s a : a +:+ "" = a.
Proof. induction a as [|c a IH]; [done|]. by rewrite app_cons, IH. Qed.

Lemma app_assoc_s a b c : (a +:+ b) +:+ c = a +:+ (b +:+ c).
Proof. induction a as [|x a IH]; [done|]. by rewrite !app_cons, IH. Qed.

Lemma ascii_eqb_eq a b : Ascii.eqb a b = true ↔ a = b.
Proof. apply Ascii.eqb_eq. Qed.

Lemma startswith_app a s : Str.startswith a (a +:+ s) = true.
Proof.
  induction a as [|c a IH]; [done|].
  rewrite app_cons. simpl. by rewrite Ascii.eqb_refl.
Qed.

Lemma startswith_spec a s : Str.startswith a s = true → ∃ t, s = a +:+ t.
Proof.
  revert s. induction a as [|c a IH]; intros s Hs; [by exists s|].
  destruct s as [|d s]; [done|]. simpl in Hs.
  destruct (Ascii.eqb c d) eqn:Hcd; [|done].
  apply Ascii.eqb_eq in Hcd as ->.
  destruct (IH s Hs) as [t ->]. by exists t.
Qed.


Lemma contains_char_app c a b :
  Str.contains_char c (a +:+ b) = Str.contains_char c a || Str.contains_char c b.
Proof.
  induction a as [|x a IH]; [done|].
  rewrite app_cons. simpl. rewrite IH. by rewrite orb_assoc.
Qed.



(** *** Decimal numerals *)

Lemma string_of_uint_digits d : all_digits (NilEmpty.string_of_uint d).
Proof.
  induction d; intros c Hc; cbn [NilEmpty.string_of_uint Str.contains_char] in Hc;
    try done;
    apply orb_true_iff in Hc as [<-%Ascii.eqb_eq|Hc]; try done; by apply IHd.
Qed.

Lemma of_Z_nonneg_digits z : (0 ≤ z)%Z → all_digits (Str.of_Z z).
Proof.
  intros Hz. unfold Str.of_Z. destruct z as [|p|p]; [| |lia].
  - intros c Hc. cbn [Str.contains_char NilZero.string_of_int Z.to_int NilZero.string_of_uint] in Hc.
    apply orb_true_iff in Hc as [<-%Ascii.eqb_eq|Hc]; done.
  - simpl. pose proof (DecimalPos.Unsigned.to_uint_nonnil p) as Hnil.
    destruct (Pos.to_uint p) eqn:Hp; try done;
      rewrite <- Hp; unfold NilZero.string_of_uint; rewrite Hp; rewrite <- Hp;
      apply string_of_uint_digits.
Qed.

Lemma of_Z_inj z1 z2 : Str.of_Z z1 = Str.of_Z z2 → z1 = z2.
Proof.
  unfold Str.of_Z. intros Heq. apply DecimalZ.to_int_inj.
  assert (Hn : ∀ z, Z.to_int z ≠ Decimal.Pos Decimal.Nil ∧ Z.to_int z ≠ Decimal.Neg Decimal.Nil).
  { intros [|p|p]; simpl; split; try done; intros [=Hp]; by apply (DecimalPos.Unsigned.to_uint_nonnil p). }
  assert (Some (Z.to_int z1) = Some (Z.to_int z2)) as [=]; [|done].
  rewrite <- (NilZero.isi (Z.to_int z1)), <- (NilZero.isi (Z.to_int z2)) by apply Hn.
  by rewrite Heq.
Qed.


(** *** Reversal and stripping *)

Lemma rev_app_acc s : ∀ acc, String.rev_app s acc = String.rev_app s "" +:+ acc.
Proof.
  induction s as [|c s IH]; intros acc; [done|]. simpl.
  rewrite (IH (String c acc)), (IH (String c "")), app_assoc_s. done.
Qed.

Lemma rev_cons c s : String.rev (String c s) = String.rev s +:+ String c "".
Proof. unfold String.rev. simpl. apply rev_app_acc. Qed.

Lemma rev_app_s a b : String.rev (a +:+ b) = String.rev b +:+ String.rev a.
Proof.
  induction a as [|c a IH]; [by rewrite app_nil_l_s, app_nil_r_s|].
  rewrite app_cons, !rev_cons, IH, app_assoc_s. done.
Qed.

Lemma rev_involutive_s s : String.rev (String.rev s) = s.
Proof.
  induction s as [|c s IH]; [done|].
  rewrite rev_cons, rev_app_s, IH. done.
Qed.

Lemma contains_char_rev c s :
  Str.contains_char c (String.rev s) = Str.contains_char c s.
Proof.
  induction s as [|a s IH]; [done|].
  rewrite rev_cons, contains_char_app, IH. simpl.
  rewrite orb_false_r. apply orb_comm.
Qed.

(** A string of white space only. *)
Lemma contains_char_head a s : Str.contains_char a (String a s) = true.
Proof. cbn [Str.contains_char]. by rewrite Ascii.eqb_refl. Qed.

Lemma contains_char_tail c a s :
  Str.contains_char c s = true → Str.contains_char c (String a s) = true.
Proof. intros Hc. cbn [Str.contains_char]. by rewrite Hc, orb_true_r. Qed.

Lemma contains_char_cons c a s :
  Str.contains_char c (String a s) = true → a = c ∨ Str.contains_char c s = true.
Proof.
  cbn [Str.contains_char]. intros [Hc%Ascii.eqb_eq|Hc]%orb_true_iff; auto.
Qed.

Lemma lstrip_empty s :
  Str.lstrip s = "" ↔ ∀ c, Str.contains_char c s = true → Str.isspace c = true.
Proof.
  induction s as [|a s IH]; [done|]. cbn [Str.lstrip]. split.
  - intros Hl c Hc. destruct (Str.isspace a) eqn:Ha; [|done].
    apply contains_char_cons in Hc as [<-|Hc]; [done|]. by apply IH.
  - intros Hall. rewrite (Hall a) by apply contains_char_head.
    apply IH. intros c Hc. apply Hall. by apply contains_char_tail.
Qed.

Lemma lstrip_head s a t : Str.lstrip s = String a t → Str.isspace a = false.
Proof.
  induction s as [|b s IH]; [done|]. cbn [Str.lstrip].
  destruct (Str.isspace b) eqn:Hb; [done|]. by intros [= <- _].
Qed.

Lemma strip_empty s :
  Str.strip s = "" ↔ ∀ c, Str.contains_char c s = true → Str.isspace c = true.
Proof.
  rewrite <- lstrip_empty. unfold Str.strip, Str.rstrip. split.
  - intros Hs. apply (f_equal String.rev) in Hs.
    rewrite rev_involutive_s in Hs. change (String.rev "") with "" in Hs.
    destruct (Str.lstrip s) as [|a t] eqn:Hl; [done|]. exfalso.
    pose proof (lstrip_head _ _ _ Hl) as Ha.
    rewrite lstrip_empty in Hs. rewrite (Hs a) in Ha; [done|].
    rewrite contains_char_rev. apply contains_char_head.
  - by intros ->.
Qed.

Lemma lstrip_id s :
  (∀ c, Str.contains_char c s = true → Str.isspace c = false) → Str.lstrip s = s.
Proof.
  destruct s as [|a s]; [done|]. intros Hall. cbn [Str.lstrip].
  by rewrite (Hall a) by apply contains_char_head.
Qed.

Lemma strip_id s :
  (∀ c, Str.contains_char c s = true → Str.isspace c = false) → Str.strip s = s.
Proof.
  intros Hall. unfold Str.strip, Str.rstrip. rewrite (lstrip_id s Hall).
  rewrite lstrip_id, rev_involutive_s; [done|].
  intros c. rewrite contains_char_rev. apply Hall.
Qed.

(** A line stays blank, or a comment, when its line end is added. *)
Lemma strip_line_end line :
  Str.strip line ≠ "" → Str.strip (line +:+ LF) ≠ "".
Proof.
  rewrite !strip_empty. intros Hn Hall. apply Hn. intros c Hc.
  apply Hall. by rewrite contains_char_app, Hc.
Qed.

Lemma startswith_line_end p line :
  line ≠ "" → Str.startswith (String p "") (line +:+ LF) = Str.startswith (String p "") line.
Proof.
  destruct line as [|c l]; [done|]. intros _. rewrite app_cons.
  cbn [Str.startswith]. by destruct (Ascii.eqb p c).
Qed.

(** *** Reading back a printed integer *)

Lemma int_digits_uint d : ∀ prev acc,
  d ≠ Decimal.Nil ∨ prev = true →
  int_digits prev acc (NilEmpty.string_of_uint d) = Some (uint_value acc d).
Proof.
  induction d; intros prev acc Hd;
    [destruct Hd as [?| ->]; done | cbn [NilEmpty.string_of_uint int_digits uint_value]..];
    change (is_digit _) with true; cbn iota;
    (rewrite IHd by (by right)); done.
Qed.

Lemma uint_value_acc d : ∀ acc,
  Z.pos (Pos.of_uint_acc d acc) = uint_value (Z.pos acc) d.
Proof.
  induction d; intros acc; cbn [Pos.of_uint_acc uint_value]; [done|..];
    rewrite IHd; f_equal; lia.
Qed.

Lemma uint_value_of_uint d : Z.of_N (Pos.of_uint d) = uint_value 0 d.
Proof.
  induction d; cbn [Pos.of_uint uint_value]; [done|by rewrite IHd|..];
    cbn [Z.of_N]; by rewrite uint_value_acc.
Qed.

Lemma digit_not_space c : is_digit c = true → Str.isspace c = false.
Proof.
  unfold is_digit, Str.isspace. set (n := nat_of_ascii c). cbv zeta.
  intros [H1%Nat.leb_le H2%Nat.leb_le]%andb_true_iff.
  repeat (apply orb_false_iff; split); try apply andb_false_iff;
    rewrite ?Nat.leb_gt, ?Nat.eqb_neq; lia.
Qed.

Lemma string_of_uint_nonnil d :
  d ≠ Decimal.Nil → NilZero.string_of_uint d = NilEmpty.string_of_uint d.
Proof. by destruct d. Qed.

Lemma py_int_digits d :
  d ≠ Decimal.Nil → py_int (NilEmpty.string_of_uint d) = Some (uint_value 0 d).
Proof.
  intros Hd. unfold py_int. rewrite strip_id.
  2:{ intros c Hc. by apply digit_not_space, (string_of_uint_digits d). }
  rewrite <- (int_digits_uint d false 0) by (by left).
  destruct d; done.
Qed.

Lemma py_int_of_Z z : py_int (Str.of_Z z) = Some z.
Proof.
  unfold Str.of_Z. destruct z as [|p|p]; [done|..]; cbn [Z.to_int NilZero.string_of_int];
    pose proof (DecimalPos.Unsigned.to_uint_nonnil p) as Hnil;
    rewrite string_of_uint_nonnil by done.
  - rewrite py_int_digits by done.
    by rewrite <- uint_value_of_uint, DecimalPos.Unsigned.of_to.
  - unfold py_int. rewrite strip_id.
    + rewrite int_digits_uint by (by left).
      by rewrite <- uint_value_of_uint, DecimalPos.Unsigned.of_to.
    + intros c [<-|Hc]%contains_char_cons; [done|].
      by apply digit_not_space, (string_of_uint_digits (Pos.to_uint p)).
Qed.

(** *** Paths *)

Lemma rpartition_app c s h t :
  OsPath.rpartition c s = Some (h, t) → s = h +:+ String c t.
Proof.
  revert h t. induction s as [|a s IH]; intros h t Hp; simpl in Hp; [done|].
  destruct (OsPath.rpartition c s) as [[h' t']|].
  - injection Hp as <- <-. rewrite app_cons. f_equal. by apply IH.
  - destruct (Ascii.eqb a c) eqn:Hac; [|done].
    apply Ascii.eqb_eq in Hac as ->. by injection Hp as <- <-.
Qed.

Lemma splitext_app p b e : OsPath.splitext p = (b, e) → p = b +:+ e.
Proof.
  unfold OsPath.splitext.
  destruct (OsPath.rpartition "/" p) as [[h t]|] eqn:Hs.
  - apply rpartition_app in Hs as ->.
    destruct (OsPath.rpartition "." t) as [[stem x]|] eqn:Hd.
    + apply rpartition_app in Hd as ->.
      destruct (OsPath.all_char "." stem); intros [= <- <-].
      * by rewrite app_nil_r_s.
      * by rewrite !app_assoc_s.
    + intros [= <- <-]. by rewrite app_nil_r_s.
  - destruct (OsPath.rpartition "." p) as [[stem x]|] eqn:Hd.
    + apply rpartition_app in Hd as ->.
      destruct (OsPath.all_char "." stem); intros [= <- <-].
      * by rewrite app_nil_r_s.
      * done.
    + intros [= <- <-]. by rewrite app_nil_r_s.
Qed.

Lemma tidy_data_dictionary_path_app tsv_path dict_path :
  _tidy_data_dictionary_path tsv_path = Ok dict_path →
  ∃ base, tsv_path = base +:+ ".tsv" ∧ dict_path = base +:+ "_data_dictionary.tsv".
Proof.
  unfold _tidy_data_dictionary_path.
  destruct (OsPath.splitext tsv_path) as [base ext] eqn:Hs.
  case_bool_decide as Hext; [|done]. subst ext. intros [= <-].
  exists base. split; [|done]. by apply splitext_app.
Qed.

(** Whether a string begins with [p] does not depend on what follows
    a common beginning, when the next character does not occur in [p]. *)
Lemma startswith_app_notin p b c x d y :
  Str.contains_char c p = false → Str.contains_char d p = false →
  Str.startswith p (b +:+ String c x) = Str.startswith p (b +:+ String d y).
Proof.
  revert b. induction p as [|a p IH]; intros b Hc Hd; [done|].
  simpl in Hc, Hd.
  apply orb_false_iff in Hc as [Hac Hc]. apply orb_false_iff in Hd as [Had Hd].
  destruct b as [|e b].
  - rewrite !app_nil_l_s. simpl. by rewrite Hac, Had.
  - rewrite !app_cons. simpl. destruct (Ascii.eqb a e); [|done]. by apply IH.
Qed.

Lemma replace_char_app a b s t :
  Str.replace_char a b (s +:+ t) = Str.replace_char a b s +:+ Str.replace_char a b t.
Proof.
  induction s as [|c s IH]; [done|].
  rewrite app_cons. simpl. rewrite IH.
  destruct (Ascii.eqb c a); [by rewrite app_assoc_s|done].
Qed.

(** ** Reading back printed lines *)

Lemma concat_empty_cons x xs :
  String.concat "" (x :: xs) = x +:+ String.concat "" xs.
Proof. destruct xs; simpl; [by rewrite app_nil_r_s|done]. Qed.

Lemma printed_cons l lines : printed (l :: lines) = (l +:+ LF) +:+ printed lines.
Proof. unfold printed. rewrite fmap_cons. apply concat_empty_cons. Qed.


Lemma length_app_s a b : String.length (a +:+ b) = String.length a + String.length b.
Proof. induction a as [|c a IH]; [done|]. rewrite app_cons. simpl. by rewrite IH. Qed.

Lemma plain_line_char c : plain_char c = true → line_char c = true.
Proof.
  unfold plain_char, line_char. intros Hc%negb_true_iff. apply negb_true_iff.
  repeat apply orb_false_iff in Hc as [Hc ?]. by repeat (apply orb_false_iff; split).
Qed.

Lemma plain_line_chars s : plain_chars s = true → line_chars s = true.
Proof.
  induction s as [|c s IH]; [done|]. simpl.
  intros [Hc Hs]%andb_true_iff. by rewrite plain_line_char, IH.
Qed.

Lemma line_chars_app a b : line_chars (a +:+ b) = line_chars a && line_chars b.
Proof.
  induction a as [|c a IH]; [done|]. rewrite app_cons. simpl.
  by rewrite IH, andb_assoc.
Qed.

Lemma line_chars_join cells :
  Forall plain cells → line_chars (Str.join TAB cells) = true.
Proof.
  unfold Str.join. induction 1 as [|c cells [Hc _] _ IH]; [done|].
  destruct cells as [|c2 cells].
  - simpl. by apply plain_line_chars.
  - change (String.concat TAB (c :: c2 :: cells))
      with (c +:+ TAB +:+ String.concat TAB (c2 :: cells)).
    rewrite !line_chars_app, IH, plain_line_chars by done. done.
Qed.

(** Lines without line ends inside are read back as they were printed. *)
Lemma file_lines_go_line l : ∀ cur rest,
  line_chars l = true →
  file_lines_go cur (l +:+ LF +:+ rest) = (cur +:+ l +:+ LF) :: file_lines_go "" rest.
Proof.
  induction l as [|c l IH]; intros cur rest Hl.
  - rewrite !app_nil_l_s. reflexivity.
  - simpl in Hl. apply andb_true_iff in Hl as [Hc Hl].
    rewrite app_cons. cbn [file_lines_go].
    unfold line_char in Hc. apply negb_true_iff in Hc.
    apply orb_false_iff in Hc as [[H10 H13]%orb_false_iff _].
    rewrite H10, H13, IH by done.
    by rewrite app_assoc_s.
Qed.

Lemma file_lines_printed lines :
  Forall (λ l, line_chars l = true) lines →
  file_lines (printed lines) = (λ l, l +:+ LF) <$> lines.
Proof.
  unfold file_lines. induction 1 as [|l lines Hl _ IH]; [done|].
  rewrite printed_cons, app_assoc_s, file_lines_go_line by done.
  by rewrite IH.
Qed.

Lemma comment_stripper_kept lines : ∀ n,
  Forall (λ l, Str.startswith "#" l = false ∧ Str.strip l ≠ "") lines →
  _comment_stripper_from (S n) ((λ l, l +:+ LF) <$> lines) = (λ l, l +:+ LF) <$> lines.
Proof.
  induction lines as [|l lines IH]; intros n Hall; [done|].
  apply Forall_cons in Hall as [[Hc Hb] Hall].
  rewrite fmap_cons. cbn [_comment_stripper_from].
  assert (Hne : l ≠ "") by (by intros ->).
  rewrite (startswith_line_end "#" l Hne), Hc.
  rewrite bool_decide_eq_false_2 by (by apply strip_line_end).
  rewrite bool_decide_eq_false_2 by lia.
  by rewrite IH.
Qed.

Lemma comment_stripper_printed header lines :
  Forall (λ l, Str.startswith "#" l = false ∧ Str.strip l ≠ "") (header :: lines) →
  _comment_stripper ((λ l, l +:+ LF) <$> (header :: lines)) = (λ l, l +:+ LF) <$> lines.
Proof.
  intros [[Hc Hb] Hall]%Forall_cons.
  unfold _comment_stripper. rewrite fmap_cons. cbn [_comment_stripper_from].
  assert (Hne : header ≠ "") by (by intros ->).
  rewrite (startswith_line_end "#" header Hne), Hc.
  rewrite bool_decide_eq_false_2 by (by apply strip_line_end).
  rewrite bool_decide_eq_true_2 by done.
  by apply comment_stripper_kept.
Qed.

(** *** The CSV reader on plain fields *)

Lemma csv_in_field s : ∀ rest fs f n,
  plain_chars s = true →
  (n + Z.of_nat (String.length s) ≤ Csv.field_limit)%Z →
  Csv.parse_line (s +:+ rest) (Csv.Parser Csv.IN_FIELD fs f n)
  = Csv.parse_line rest
      (Csv.Parser Csv.IN_FIELD fs (f +:+ s) (n + Z.of_nat (String.length s))).
Proof.
  induction s as [|c s IH]; intros rest fs f n Hs Hlen.
  - rewrite app_nil_l_s, app_nil_r_s. simpl. by rewrite Z.add_0_r.
  - simpl in Hs. apply andb_true_iff in Hs as [Hc Hs].
    unfold plain_char in Hc. apply negb_true_iff in Hc.
    apply orb_false_iff in Hc as [[[H9 H10]%orb_false_iff H13]%orb_false_iff H0].
    rewrite app_cons. cbn [Csv.parse_line]. rewrite H0.
    unfold Csv.parse_process_char. cbn [Csv.st Csv.is_nl].
    rewrite H10, H13. cbn [orb]. unfold Csv.delimiter. rewrite H9.
    unfold Csv.parse_add_char. cbn [Csv.field_len Csv.fields Csv.field Csv.st].
    cbn [String.length] in Hlen.
    destruct (Z.geb_spec n Csv.field_limit) as [Hge|_]; [lia|].
    rewrite IH by (done || lia).
    replace (n + 1 + Z.of_nat (String.length s))%Z
      with (n + Z.of_nat (String.length (String c s)))%Z
      by (cbn [String.length]; lia).
    by rewrite app_assoc_s.
Qed.

(** One field and the character that ends it, TAB or LF. *)
Lemma csv_field cell (t : ascii) rest fs :
  plain cell →
  t = "009"%char ∨ t = "010"%char →
  Csv.parse_line (cell +:+ String t rest) (Csv.Parser Csv.START_FIELD fs "" 0)
  = Csv.parse_line rest
      (Csv.Parser (if Ascii.eqb t "009" then Csv.START_FIELD else Csv.EAT_CRNL)
         (fs ++ [cell]) "" 0).
Proof.
  intros (Hchars & Hq & Hlen) Ht. destruct cell as [|c s].
  - rewrite app_nil_l_s. destruct Ht as [-> | ->]; reflexivity.
  - simpl in Hchars. apply andb_true_iff in Hchars as [Hc Hs].
    unfold plain_char in Hc. apply negb_true_iff in Hc.
    apply orb_false_iff in Hc as [[[H9 H10]%orb_false_iff H13]%orb_false_iff H0].
    cbn [Str.startswith] in Hq.
    assert (Hcq : Ascii.eqb c Csv.quotechar = false).
    { rewrite Ascii.eqb_sym. by destruct (Ascii.eqb Csv.quotechar c). }
    rewrite app_cons. cbn [Csv.parse_line]. rewrite H0.
    unfold Csv.parse_process_char, Csv.start_field. cbn [Csv.st Csv.is_nl].
    rewrite H10, H13, Hcq. cbn [orb]. unfold Csv.delimiter at 1. rewrite H9.
    unfold Csv.parse_add_char. cbn [Csv.field_len Csv.fields Csv.field Csv.st].
    cbn [String.length] in Hlen.
    change (0 >=? Csv.field_limit)%Z with false. cbn [fmap result_fmap].
    unfold Csv.set_state. cbn [Csv.field_len Csv.fields Csv.field Csv.st].
    rewrite csv_in_field by (done || lia).
    destruct Ht as [-> | ->]; reflexivity.
Qed.

(** One printed row, read from the start of a field. *)
Lemma csv_row cells : ∀ fs,
  cells ≠ [] →
  Forall plain cells →
  Csv.parse_line (Str.join TAB cells +:+ LF) (Csv.Parser Csv.START_FIELD fs "" 0)
  = Ok (Csv.Parser Csv.START_RECORD (fs ++ cells) "" 0).
Proof.
  unfold Str.join. induction cells as [|c cells IH]; intros fs Hne Hall; [done|].
  apply Forall_cons in Hall as [Hc Hall].
  destruct cells as [|c2 cells].
  - change (String.concat TAB [c]) with c. unfold LF.
    rewrite csv_field by (done || by right). reflexivity.
  - change (String.concat TAB (c :: c2 :: cells))
      with (c +:+ TAB +:+ String.concat TAB (c2 :: cells)).
    rewrite !app_assoc_s. unfold TAB at 1. rewrite app_cons, app_nil_l_s.
    rewrite csv_field by (done || by left).
    change (Ascii.eqb "009" "009") with true. cbv iota.
    rewrite IH by done. by rewrite <- app_assoc.
Qed.

Lemma csv_start_record line :
  line ≠ "" → line_chars line = true →
  Csv.parse_line (line +:+ LF) Csv.parse_reset
  = Csv.parse_line (line +:+ LF) (Csv.Parser Csv.START_FIELD [] "" 0).
Proof.
  destruct line as [|c l]; [done|]. intros _ Hl.
  simpl in Hl. apply andb_true_iff in Hl as [Hc _].
  unfold line_char in Hc. apply negb_true_iff in Hc.
  apply orb_false_iff in Hc as [[H10 H13]%orb_false_iff H0].
  assert (Heq : Csv.parse_process_char (Some c) Csv.parse_reset
            = Csv.parse_process_char (Some c) (Csv.Parser Csv.START_FIELD [] "" 0)).
  { unfold Csv.parse_process_char. cbn [Csv.st Csv.parse_reset Csv.is_nl].
    rewrite H10, H13. reflexivity. }
  rewrite app_cons. cbn [Csv.parse_line]. by rewrite H0, Heq.
Qed.

(** Printed rows of plain fields come back as they were. *)
Lemma csv_reader_rows rows :
  Forall (λ cells, Forall plain cells ∧ Str.strip (Str.join TAB cells) ≠ "") rows →
  Csv.reader ((λ l, l +:+ LF) <$> (Str.join TAB <$> rows)) = (rows, None).
Proof.
  unfold Csv.reader. induction 1 as [|cells rows [Hp Hb] _ IH]; [done|].
  rewrite !fmap_cons. cbn [Csv.read_records].
  assert (Hne : Str.join TAB cells ≠ "") by (by intros Heq; rewrite Heq in Hb).
  assert (Hcells : cells ≠ []) by (by intros ->).
  rewrite csv_start_record by (done || by apply line_chars_join).
  rewrite csv_row by done.
  rewrite bool_decide_eq_true_2 by done. rewrite IH. done.
Qed.

(** ** Decoding rows into a frame *)

Section Decoding.

Context `{Float64}.

Lemma mapM_result_cons {A B} (f : A → result B) x l :
  mapM f (x :: l) =
    match f x with
    | Ok y => match mapM f l with Ok k => Ok (y :: k) | Raise e => Raise e end
    | Raise e => Raise e
    end.
Proof. reflexivity. Qed.

Lemma mapM_result_ext_in {A B} (f g : A → result B) l :
  (∀ x, x ∈ l → f x = g x) → mapM f l = mapM g l.
Proof.
  induction l as [|x l IH]; intros Hfg; [done|].
  rewrite !mapM_result_cons, (Hfg x) by left.
  rewrite IH; [done|]. intros y Hy. apply Hfg. by right.
Qed.

Lemma mapM_result_fmap {A B C} (f : B → result C) (g : A → B) l :
  mapM f (g <$> l) = mapM (f ∘ g) l.
Proof.
  induction l as [|x l IH]; [done|].
  rewrite fmap_cons, !mapM_result_cons, IH. done.
Qed.

Lemma mapM_result_ok {A B} (f : A → result B) (g : A → B) l :
  (∀ x, x ∈ l → f x = Ok (g x)) → mapM f l = Ok (g <$> l).
Proof.
  induction l as [|x l IH]; intros Hfg; [done|].
  rewrite mapM_result_cons, (Hfg x) by left.
  rewrite IH; [done|]. intros y Hy. apply Hfg. by right.
Qed.

Lemma mapM_result_imap {A B C} (f : B → result C) (g : nat → A → B) l :
  mapM f (imap g l) = mapM (λ jx, f (g jx.1 jx.2)) (imap pair l).
Proof.
  revert g. induction l as [|x l IH]; intros g; [done|].
  rewrite !imap_cons, !mapM_result_cons, IH. simpl.
  replace (imap (pair ∘ S) l) with ((λ jx : nat * A, (S jx.1, jx.2)) <$> imap pair l).
  - by rewrite mapM_result_fmap.
  - rewrite fmap_imap. by apply imap_ext.
Qed.

Lemma elem_of_imap_pair {A} (l : list A) j x :
  (j, x) ∈ imap pair l ↔ l !! j = Some x.
Proof.
  rewrite list_elem_of_lookup. split.
  - intros [i Hi]. rewrite list_lookup_imap in Hi.
    destruct (l !! i) eqn:Hl; simpl in Hi; [|done]. by injection Hi as <- <-.
  - intros Hl. exists j. by rewrite list_lookup_imap, Hl.
Qed.

Lemma consume_none {A B} (f : A → result B) items :
  consume f items None = mapM f items.
Proof.
  induction items as [|x l IH]; [done|].
  rewrite mapM_result_cons, <- IH. done.
Qed.

Lemma hack_na_from_ok cols row : ∀ i,
  length row + i ≤ length cols →
  __hack_na_from i row cols = Ok (imap (λ k, hack_cell cols (i + k)) row).
Proof.
  induction row as [|v row IH]; intros i Hlen; [done|].
  simpl in Hlen. cbn [__hack_na_from]. rewrite IH by lia.
  rewrite imap_cons, Nat.add_0_r.
  assert (Hcell : (if bool_decide (v ≠ "NA") then Ok (VStr v)
           else match cols !! i with
                | None => Raise IndexError
                | Some (_, np_float) => Ok NaN
                | Some (_, np_int) => Ok (VInt SENTINEL)
                | Some (_, object) => Ok VNone
                end) = Ok (hack_cell cols i v)).
  { unfold hack_cell. case_bool_decide; [done|].
    destruct (cols !! i) as [[n []]|] eqn:Hc; try done.
    apply lookup_ge_None in Hc. lia. }
  rewrite Hcell. simpl. do 2 f_equal. apply imap_ext. intros k x _.
  simpl. f_equal. lia.
Qed.


Lemma max_list_const n l :
  l ≠ [] → Forall (λ x, x = n) l → max_list l = n.
Proof.
  intros Hne Hall. induction Hall as [|x l -> Hall IH]; [done|].
  simpl. destruct l as [|y l]; [simpl; lia|]. rewrite IH by done. lia.
Qed.

Lemma dict_get_nodup {A} (l : list (string * A)) j k v :
  NoDup l.*1 → l !! j = Some (k, v) → dict_get k l = Some v.
Proof.
  revert j. induction l as [|[k' v'] l IH]; intros j Hnd Hj; [done|].
  rewrite fmap_cons in Hnd. apply NoDup_cons in Hnd as [Hnotin Hnd].
  simpl. destruct j as [|j]; simpl in Hj.
  - injection Hj as -> ->.
    destruct (dict_get k l) as [x|] eqn:Hd.
    + exfalso. apply Hnotin. clear -Hd.
      induction l as [|[k2 v2] l IH]; [done|]. simpl in Hd.
      destruct (dict_get k l); [right; by apply IH|].
      case_bool_decide; [subst; left|done].
    + by rewrite bool_decide_eq_true_2.
  - by rewrite (IH j Hnd Hj).
Qed.

Lemma astype_hack_cell cols j name t v :
  cols !! j = Some (name, t) →
  astype_value t (hack_cell cols j v) = tidy_cell t v.
Proof.
  intros Hc. unfold hack_cell, tidy_cell. rewrite Hc.
  destruct (decide (v = "NA")) as [->|Hv].
  - rewrite bool_decide_eq_false_2 by (intros ?; done).
    rewrite bool_decide_eq_true_2 by done. by destruct t.
  - rewrite bool_decide_eq_true_2 by done.
    by rewrite bool_decide_eq_false_2 by done.
Qed.

(** On rows of full width under a dictionary without repeated names,
    [_TidyTSVParser.read] builds the table of the specification. *)
Lemma frame_of_tsv_decode cols rows :
  NoDup cols.*1 →
  Forall (λ row, length row = length cols) rows →
  frame_of_tsv cols (rows, None) = decode_table cols rows.
Proof.
  intros Hnd Hw. unfold frame_of_tsv, decode_table. simpl.
  rewrite consume_none.
  rewrite (mapM_result_ok _ (λ row, imap (hack_cell cols) row)).
  2:{ intros row Hrow. rewrite Forall_forall in Hw. unfold __hack_na.
      rewrite hack_na_from_ok by (rewrite (Hw row Hrow); lia). done. }
  simpl. unfold frame_of_rows.
  assert (Hcheck : bool_decide ((λ row, imap (hack_cell cols) row) <$> rows ≠ [])
            && negb (max_list (length <$> ((λ row, imap (hack_cell cols) row) <$> rows))
                     =? length cols.*1) = false).
  { destruct rows as [|r rows]; [done|]. apply andb_false_iff. right.
    apply negb_false_iff, Nat.eqb_eq. rewrite length_fmap.
    apply max_list_const; [done|].
    rewrite <- list_fmap_compose. apply Forall_fmap.
    eapply Forall_impl; [exact Hw|]. intros row Hr. simpl. by rewrite length_imap. }
  rewrite Hcheck. unfold astype. cbn [mbind result_bind series nrows].
  rewrite length_fmap, imap_fmap, mapM_result_imap.
  f_equal. apply mapM_result_ext_in.
  intros [j [name t]] Hj. apply elem_of_imap_pair in Hj.
  cbn [fst snd compose s_name s_values].
  rewrite (dict_get_nodup cols j name t Hnd Hj).
  f_equal. rewrite !mapM_result_fmap. apply mapM_result_ext_in.
  intros row Hrow. cbn [compose].
  rewrite Forall_forall in Hw. specialize (Hw row Hrow).
  rewrite list_lookup_imap.
  destruct (row !! j) as [v|] eqn:Hv.
  - simpl. by eapply astype_hack_cell.
  - apply lookup_ge_None in Hv. apply lookup_lt_Some in Hj. lia.
Qed.

(** *** Encoding, then decoding *)

Lemma of_Z_chars z c :
  Str.contains_char c (Str.of_Z z) = true → is_digit c = true ∨ c = "-"%char.
Proof.
  destruct z as [|p|p].
  - intros Hc. left. by apply (of_Z_nonneg_digits 0).
  - intros Hc. left. by apply (of_Z_nonneg_digits (Z.pos p)).
  - unfold Str.of_Z. cbn [Z.to_int NilZero.string_of_int].
    pose proof (DecimalPos.Unsigned.to_uint_nonnil p) as Hnil.
    rewrite string_of_uint_nonnil by done.
    intros [<-|Hc]%contains_char_cons; [by right|left].
    by apply (string_of_uint_digits (Pos.to_uint p)).
Qed.

Lemma of_Z_not_NA z : Str.of_Z z ≠ "NA".
Proof.
  intros Heq. destruct (of_Z_chars z "N") as [?|?]; [|done..].
  rewrite Heq. reflexivity.
Qed.

Lemma cell_round_trip t v :
  cell_ok t v → tidy_cell t (numpy_value_to_tidy v) = Ok v.
Proof.
  unfold cell_ok, tidy_cell, numpy_value_to_tidy.
  destruct t, v as [z|[x|]|s|]; try done.
  - intros Hz. destruct (decide (z = SENTINEL)) as [->|Hs].
    + reflexivity.
    + rewrite (bool_decide_eq_false_2 (z = SENTINEL)) by done.
      rewrite bool_decide_eq_false_2 by apply of_Z_not_NA.
      cbn [astype_value]. by rewrite py_int_of_Z, Hz.
  - intros (Hx & Hna & Hrt).
    rewrite (bool_decide_eq_false_2 (x = _)) by done.
    rewrite bool_decide_eq_false_2 by done.
    cbn [astype_value]. by rewrite Hrt.
  - intros Hs. by rewrite bool_decide_eq_false_2 by done.
Qed.

Lemma upcast_same df s v :
  tidy_safe df → s ∈ series df → cell_ok (s_dtype s) v →
  upcast (common_dtype (s_dtype <$> series df)) v = v.
Proof.
  intros Hsafe Hs Hv. unfold upcast, common_dtype.
  case_bool_decide as Hobj; [done|].
  case_bool_decide as Hfl; [|done].
  destruct v as [z| | |]; try done.
  destruct (safe_rows df Hsafe) as [?|[?|Hint]]; [done..|].
  exfalso. apply Hint. destruct (s_dtype s) eqn:Ht; try done.
  rewrite <- Ht. apply list_elem_of_fmap. eauto.
Qed.

Lemma parse_numpy_type t : parse_type (numpy_type_to_tidy t) = t.
Proof. by destruct t. Qed.

Lemma dictionary_lines_rows df :
  dictionary_lines df
  = ("column_name" +:+ TAB +:+ "type" +:+ TAB +:+ "description")
    :: (Str.join TAB <$> dictionary_rows df).
Proof.
  unfold dictionary_lines, dictionary_rows. f_equal.
  rewrite <- list_fmap_compose. apply list_fmap_ext. intros _ s _.
  unfold Str.join. simpl. done.
Qed.

Lemma data_lines_rows df :
  data_lines df
  = Str.join TAB (s_name <$> series df) :: (Str.join TAB <$> tidy_rows df).
Proof.
  unfold data_lines, tidy_rows. f_equal. by rewrite <- list_fmap_compose.
Qed.

Lemma dictionary_of_rows_ok df :
  dictionary_of_rows (dictionary_rows df, None)
  = Ok ((λ s, (s_name s, s_dtype s)) <$> series df).
Proof.
  unfold dictionary_of_rows, dictionary_rows. simpl. rewrite consume_none.
  rewrite mapM_result_fmap.
  apply mapM_result_ok. intros s _. simpl. by rewrite parse_numpy_type.
Qed.

Lemma seq_lookup_fmap {A} (d : A) l :
  (λ i, default d (l !! i)) <$> List.seq 0 (length l) = l.
Proof.
  apply list_eq. intros i. rewrite list_lookup_fmap.
  destruct (decide (i < length l)) as [Hlt|Hge].
  - rewrite lookup_seq_lt by done. simpl.
    destruct (lookup_lt_is_Some_2 l i Hlt) as [x Hx]. by rewrite Hx.
  - rewrite lookup_seq_ge by lia. simpl. symmetry. apply lookup_ge_None. lia.
Qed.

Lemma tidy_rows_width df row :
  row ∈ tidy_rows df → length row = length (series df).
Proof.
  unfold tidy_rows, iterrows. rewrite <- list_fmap_compose.
  intros (i & -> & _)%list_elem_of_fmap. cbn [compose].
  by rewrite !length_fmap.
Qed.

(** The table of the specification, built from the rows that [write]
    prints, is the table that was written. *)
Lemma decode_tidy_rows df :
  tidy_safe df →
  decode_table ((λ s, (s_name s, s_dtype s)) <$> series df) (tidy_rows df) = Ok df.
Proof.
  intros Hsafe. unfold decode_table.
  rewrite (mapM_result_ok _ (λ jc : nat * (string * dtype),
             {| s_name := jc.2.1; s_dtype := jc.2.2;
                s_values := default [] (s_values <$> series df !! jc.1) |})).
  - cbn [mbind result_bind]. destruct df as [n ss]. f_equal. f_equal.
    + unfold tidy_rows, iterrows. by rewrite !length_fmap, length_seq.
    + cbn [series]. apply list_eq. intros j.
      rewrite list_lookup_fmap, list_lookup_imap, list_lookup_fmap.
      destruct (ss !! j) as [[nm t vs]|] eqn:Hj; simpl; [by rewrite Hj|done].
  - intros [j [name t]] Hj. apply elem_of_imap_pair in Hj.
    rewrite list_lookup_fmap in Hj.
    destruct (series df !! j) as [s|] eqn:Hs; [|done].
    injection Hj as <- <-. cbn [fst snd]. rewrite Hs.
    cbn [fmap option_fmap option_map default].
    assert (Hin : s ∈ series df) by (by eapply list_elem_of_lookup_2).
    pose proof (safe_shape df Hsafe) as Hshape.
    pose proof (safe_cells df Hsafe) as Hcells.
    rewrite Forall_forall in Hshape, Hcells.
    specialize (Hshape s Hin). specialize (Hcells s Hin).
    unfold tidy_rows, iterrows. rewrite <- list_fmap_compose, mapM_result_fmap.
    rewrite (mapM_result_ok _ (λ i, default VNone (s_values s !! i))).
    + cbn [mbind result_bind]. by rewrite <- Hshape, seq_lookup_fmap.
    + intros i Hi%elem_of_seq. cbn [compose].
      rewrite !list_lookup_fmap, Hs. cbn [fmap option_fmap option_map default].
      destruct (lookup_lt_is_Some_2 (s_values s) i) as [v Hv]; [lia|].
      rewrite Hv. cbn [default]. unfold id.
      assert (Hok : cell_ok (s_dtype s) v).
      { rewrite Forall_forall in Hcells. apply Hcells.
        by eapply list_elem_of_lookup_2. }
      rewrite (upcast_same df s v) by done.
      by apply cell_round_trip.
Qed.

Lemma read_printed header rows :
  line_chars header = true →
  Forall (Forall plain) rows →
  Forall (λ l, Str.startswith "#" l = false ∧ Str.strip l ≠ "")
         (header :: (Str.join TAB <$> rows)) →
  Csv.reader (_comment_stripper
                (file_lines (printed (header :: (Str.join TAB <$> rows)))))
  = (rows, None).
Proof.
  intros Hh Hp Hl. rewrite file_lines_printed.
  - rewrite comment_stripper_printed by done. apply csv_reader_rows.
    apply Forall_cons_1 in Hl as [_ Hl]. rewrite Forall_fmap in Hl.
    rewrite Forall_forall in Hp, Hl. apply Forall_forall. intros cells Hin.
    split; [by apply Hp|]. by apply (Hl cells Hin).
  - constructor; [done|]. rewrite Forall_fmap.
    eapply Forall_impl; [exact Hp|]. intros cells. apply line_chars_join.
Qed.

Lemma plain_type_name t : plain (numpy_type_to_tidy t).
Proof. destruct t; repeat split; unfold Csv.field_limit; simpl; lia. Qed.

Lemma read_dictionary_text df :
  tidy_safe df →
  dictionary_of_rows
    (Csv.reader (_comment_stripper (file_lines (printed (dictionary_lines df)))))
  = Ok ((λ s, (s_name s, s_dtype s)) <$> series df).
Proof.
  intros Hsafe. pose proof (safe_lines df Hsafe) as Hl.
  apply Forall_app in Hl as [Hl _]. rewrite dictionary_lines_rows in *.
  rewrite read_printed; [apply dictionary_of_rows_ok|done| |done].
  unfold dictionary_rows. rewrite Forall_fmap.
  eapply Forall_impl; [exact (safe_fields df Hsafe)|].
  intros s [Hn _]. cbn [compose].
  constructor; [done|]. constructor; [apply plain_type_name|].
  constructor; [|constructor].
  repeat split. unfold Csv.field_limit. simpl. lia.
Qed.

Lemma tidy_rows_plain df :
  tidy_safe df → Forall (Forall plain) (tidy_rows df).
Proof.
  intros Hsafe. unfold tidy_rows, iterrows.
  rewrite <- list_fmap_compose, Forall_fmap. apply Forall_forall.
  intros i Hi%elem_of_seq. cbn [compose]. rewrite !Forall_fmap.
  pose proof (safe_shape df Hsafe) as Hshape.
  pose proof (safe_cells df Hsafe) as Hcells.
  pose proof (safe_fields df Hsafe) as Hfields.
  rewrite Forall_forall in Hshape, Hcells, Hfields.
  apply Forall_forall. intros s Hs. cbn [compose].
  destruct (lookup_lt_is_Some_2 (s_values s) i) as [v Hv].
  { rewrite (Hshape s Hs). lia. }
  rewrite Hv. cbn [default].
  apply list_elem_of_lookup_2 in Hv.
  specialize (Hcells s Hs). specialize (Hfields s Hs) as [_ Hfields].
  rewrite Forall_forall in Hcells, Hfields.
  unfold id. rewrite (upcast_same df s v) by auto. by apply Hfields.
Qed.

Lemma read_data_text df :
  tidy_safe df →
  frame_of_tsv ((λ s, (s_name s, s_dtype s)) <$> series df)
    (Csv.reader (_comment_stripper (file_lines (printed (data_lines df)))))
  = Ok df.
Proof.
  intros Hsafe. pose proof (safe_lines df Hsafe) as Hl.
  apply Forall_app in Hl as [_ Hl]. rewrite data_lines_rows in *.
  rewrite read_printed; [|apply line_chars_join|by apply tidy_rows_plain|done].
  - rewrite frame_of_tsv_decode; [by apply decode_tidy_rows|..].
    + rewrite <- list_fmap_compose. exact (safe_names df Hsafe).
    + apply Forall_forall. intros row Hrow.
      by rewrite (tidy_rows_width df row), length_fmap.
  - rewrite Forall_fmap. eapply Forall_impl; [exact (safe_fields df Hsafe)|].
    by intros s [Hn _].
Qed.

End Decoding.

Section DriverProperties.

Context `{Env} `{Float64}.

(** ** The retry loop *)

Lemma launch_trace argv w :
  trace (launch argv w).2 = trace w ++ [EvCall argv (launch argv w).1].
Proof. unfold launch. destruct (exec argv w) as [st fs]. reflexivity. Qed.

Lemma launch_status argv w : (launch argv w).1 = (exec argv w).1.
Proof. unfold launch. destruct (exec argv w) as [st fs]. reflexivity. Qed.

Lemma retry_loop_fuel_mono cmdline m f1 : ∀ f2 r st w res,
  f1 ≤ f2 →
  retry_loop f1 cmdline m r st w = Some res →
  retry_loop f2 cmdline m r st w = Some res.
Proof.
  induction f1 as [|f1 IH]; intros f2 r st w res Hf H1.
  - simpl in H1. destruct f2; simpl; destruct (r <=? m)%Z; done.
  - destruct f2 as [|f2]; [lia|]. simpl in *.
    destruct (r <=? m)%Z; [|done].
    destruct (launch cmdline w) as [s1 w1].
    destruct (s1 =? 0)%Z; [done|]. apply IH; [lia|done].
Qed.

(** What one run of the loop leaves behind: the statuses [sts] of its
    attempts, in order. *)
Lemma retry_loop_trace cmdline m fuel : ∀ r st w,
  Z.to_nat (m + 1 - r) ≤ fuel →
  ∃ st' w' sts,
    retry_loop fuel cmdline m r st w = Some (st', w')
    ∧ trace w' = trace w ++ (EvCall cmdline <$> sts)
    ∧ length sts ≤ Z.to_nat (m + 1 - r)
    ∧ st' = default st (last sts)
    ∧ (∀ i, sts !! i = Some 0%Z → S i = length sts)
    ∧ (length sts < Z.to_nat (m + 1 - r) → last sts = Some 0%Z)
    ∧ ((∀ w0, (exec cmdline w0).1 ≠ 0%Z) → Forall (λ s, s ≠ 0%Z) sts).
Proof.
  induction fuel as [|fuel IH]; intros r st w Hfuel; simpl.
  - destruct (Z.leb_spec r m); [lia|].
    exists st, w, []. rewrite app_nil_r. repeat split; simpl; try lia; try done.
  - destruct (Z.leb_spec r m) as [Hle|Hgt].
    + pose proof (launch_trace cmdline w) as Htr.
      pose proof (launch_status cmdline w) as Hst.
      destruct (launch cmdline w) as [s w1]; simpl in Htr, Hst.
      destruct (Z.eqb_spec s 0) as [->|Hs].
      * exists 0%Z, w1, [0%Z]. rewrite Htr. repeat split; simpl; try lia.
        -- intros [|i]; simpl; [done|]. intros Hi. by destruct i.
        -- intros Hall. specialize (Hall w). congruence.
      * destruct (IH (r + 1)%Z s w1)
          as (st' & w' & sts & Hrun & Htr' & Hlen & Hlast & Hz & Hearly & Hall); [lia|].
        exists st', w', (s :: sts). rewrite Hrun, Htr', Htr, <- app_assoc.
        repeat split; try (simpl; lia).
        -- rewrite Hlast, last_cons. by destruct (last sts).
        -- intros [|i]; simpl; [congruence|]. intros Hi. f_equal. by apply Hz.
        -- intros Hlt. rewrite last_cons, Hearly; [done|]. simpl in Hlt. lia.
        -- intros Hex. constructor; [done|]. by apply Hall.
    + exists st, w, []. rewrite app_nil_r. repeat split; simpl; try lia; try done.
Qed.

(** C1: with [max_retries = n >= 0], the loop of [_Instance.run] returns
    (any bound of at least [n + 1] iterations is enough, and [run_loop]
    uses it); all its events are starts of the command line.  Against an
    engine that exits nonzero every time there are exactly [n + 1] starts and
    the result is the status of the last one.  A start that exits with
    status zero is the last one, and the result is then zero. *)
Theorem retry_loop_attempts (cmdline : list string) (n : Z) (fuel : nat) (w : world) :
  (0 ≤ n)%Z →
  Z.to_nat (n + 1) ≤ fuel →
  ∃ st w' sts,
    retry_loop fuel cmdline n 0 0 w = Some (st, w')
    ∧ run_loop cmdline n w = (Ok st, w')
    ∧ trace w' = trace w ++ (EvCall cmdline <$> sts)
    ∧ ((∀ w0, (exec cmdline w0).1 ≠ 0%Z) →
         length sts = Z.to_nat n + 1 ∧ last sts = Some st ∧ st ≠ 0%Z)
    ∧ (∀ i, sts !! i = Some 0%Z → S i = length sts ∧ st = 0%Z).
Proof.
  intros Hn Hfuel.
  destruct (retry_loop_trace cmdline n fuel 0 0 w)
    as (st & w' & sts & Hrun & Htr & Hlen & Hlast & Hz & Hearly & Hall).
  { by rewrite Z.sub_0_r. }
  rewrite Z.sub_0_r in Hlen, Hearly.
  exists st, w', sts. split; [done|]. split; [|split; [done|split]].
  - unfold run_loop.
    destruct (retry_loop_trace cmdline n (Z.to_nat (n + 1)) 0 0 w)
      as (st2 & w2 & sts2 & Hrun2 & _).
    { by rewrite Z.sub_0_r. }
    rewrite Hrun2.
    apply (retry_loop_fuel_mono _ _ _ fuel) in Hrun2; [|done].
    rewrite Hrun in Hrun2. by injection Hrun2 as <- <-.
  - intros Hfail. specialize (Hall Hfail).
    assert (Hnz : last sts ≠ Some 0%Z).
    { intros Hl. apply last_Some_elem_of in Hl.
      rewrite Forall_forall in Hall. by apply (Hall 0%Z). }
    assert (Hfull : length sts = Z.to_nat (n + 1)) by (destruct (decide (length sts < Z.to_nat (n + 1))); [by apply Hearly in l|lia]).
    split; [lia|].
    destruct (last sts) as [s|] eqn:Hl.
    + simpl in Hlast. subst s. split; [done|]. congruence.
    + apply last_None in Hl. subst sts. simpl in Hfull. lia.
  - intros i Hi. specialize (Hz i Hi). split; [done|].
    assert (Hl : last sts = Some 0%Z).
    { rewrite last_lookup, <- Hz. simpl. done. }
    by rewrite Hl in Hlast.
Qed.

(** ** Configuration errors and the result of [eval] *)

(** The part of [GQL.eval] after its checks and defaults. *)
Lemma GQL_eval_unfold q expr script_path label flags gql_params max_retries w :
  bool_decide (expr = "") ≠ bool_decide (script_path = "") →
  GQL_eval q expr script_path label flags gql_params max_retries w =
    let label' := if bool_decide (label = "") then "anon_expr" else label in
    let temp_path := temp_path_of q label' (seq q) in
    let '(r, w') :=
      (instance ← Instance_init (next_seq q) label' script_path expr
          ((if bool_decide (flags = []) then default_flags q else flags)
             ++ ["--output=" +:+ temp_path])
          (if bool_decide (gql_params = []) then default_params q else gql_params)
          (if (max_retries <? 0)%Z then default_max_retries q else max_retries);
       status ← Instance_run instance;
       if bool_decide (status ≠ 0%Z) then
         raise (Exception ("eval " +:+ expr +:+ ": gql finished with status "
                           +:+ Str.of_Z status))
       else tidytsv_to_dataframe (next_seq q) temp_path) w in
    (r, next_seq q, w').
Proof.
  intros Hne. unfold GQL_eval. rewrite bool_decide_eq_false_2; done.
Qed.

(** C10: once the job of an [eval] call is built and its run has ended with
    status [st], a nonzero [st] makes [eval] raise; only for [st = 0] is the
    output file decoded, and [eval] returns exactly what the decoder
    returns.  So a table comes back only when the final status is zero. *)
Theorem eval_status_gate q expr script_path label flags gql_params max_retries
    (w w1 w2 : world) (inst : Instance) (st : Z) :
  let label' := if bool_decide (label = "") then "anon_expr" else label in
  let temp_path := temp_path_of q label' (seq q) in
  bool_decide (expr = "") ≠ bool_decide (script_path = "") →
  Instance_init (next_seq q) label' script_path expr
    ((if bool_decide (flags = []) then default_flags q else flags)
       ++ ["--output=" +:+ temp_path])
    (if bool_decide (gql_params = []) then default_params q else gql_params)
    (if (max_retries <? 0)%Z then default_max_retries q else max_retries) w
    = (Ok inst, w1) →
  Instance_run inst w1 = (Ok st, w2) →
  let res := GQL_eval q expr script_path label flags gql_params max_retries w in
  (st ≠ 0%Z →
     res = (Raise (Exception ("eval " +:+ expr +:+ ": gql finished with status "
                              +:+ Str.of_Z st)), next_seq q, w2))
  ∧ (st = 0%Z →
     res = ((tidytsv_to_dataframe (next_seq q) temp_path w2).1, next_seq q,
            (tidytsv_to_dataframe (next_seq q) temp_path w2).2))
  ∧ (∀ df, res.1.1 = Ok df →
       st = 0%Z ∧ (tidytsv_to_dataframe (next_seq q) temp_path w2).1 = Ok df).
Proof.
  intros label' temp_path Hne Hinit Hrun res.
  assert (Hres : res =
    let '(r, w') := (if bool_decide (st ≠ 0%Z) then
         raise (Exception ("eval " +:+ expr +:+ ": gql finished with status "
                           +:+ Str.of_Z st))
       else tidytsv_to_dataframe (next_seq q) temp_path) w2 in (r, next_seq q, w')).
  { unfold res. rewrite GQL_eval_unfold by done. cbv zeta.
    fold label'. fold temp_path.
    unfold mbind at 1, M_bind at 1. rewrite Hinit.
    unfold mbind at 1, M_bind at 1. rewrite Hrun. reflexivity. }
  rewrite Hres. clear Hres. split; [|split].
  - intros Hst. rewrite bool_decide_eq_true_2 by done. reflexivity.
  - intros ->. rewrite bool_decide_eq_false_2 by (intros ?; done).
    by destruct (tidytsv_to_dataframe _ _ _).
  - intros df. destruct (decide (st = 0%Z)) as [->|Hst].
    + rewrite bool_decide_eq_false_2 by (intros ?; done).
      destruct (tidytsv_to_dataframe _ _ _) as [r w3]; simpl. by intros ->.
    + rewrite bool_decide_eq_true_2 by done. unfold raise. simpl. discriminate.
Qed.

(** C5 as the code has it.  The entry points [GQL.eval] and [GQL.run]
    refuse a call with neither or both of [expr] and [script_path], before
    anything happens in the world; an empty label is not an error there: it
    stands for [anon_expr], respectively [anon_run].  [_Instance.__init__]
    refuses neither of the two and an empty label, again with the world
    untouched. *)
Theorem configuration_errors q expr script_path label flags gql_params max_retries
    (w : world) :
  (bool_decide (expr = "") = bool_decide (script_path = "") →
     GQL_run q expr script_path label flags gql_params max_retries w
       = (Raise (Exception "run: Exactly one of expr or script_path must be set"), w)
     ∧ GQL_eval q expr script_path label flags gql_params max_retries w
       = (Raise (Exception "run: Exactly one of expr or script_path must be set"), q, w))
  ∧ (script_path = "" ∧ expr = "" →
     Instance_init q label script_path expr flags gql_params max_retries w
       = (Raise (Exception "Exactly one of script_path or expr must be set"), w))
  ∧ (label = "" → ¬ (script_path = "" ∧ expr = "") →
     Instance_init q label script_path expr flags gql_params max_retries w
       = (Raise (Exception "label cannot be empty"), w))
  ∧ GQL_run q expr script_path "" flags gql_params max_retries w
    = GQL_run q expr script_path "anon_run" flags gql_params max_retries w
  ∧ GQL_eval q expr script_path "" flags gql_params max_retries w
    = GQL_eval q expr script_path "anon_expr" flags gql_params max_retries w.
Proof.
  split; [|split; [|split; [|split]]].
  - intros Heq. unfold GQL_run, GQL_eval.
    rewrite !bool_decide_eq_true_2 by done. done.
  - intros [-> ->]. reflexivity.
  - intros -> Hn. unfold Instance_init.
    destruct (bool_decide (script_path = "") && bool_decide (expr = "")) eqn:Hb.
    + apply andb_true_iff in Hb as [H1%bool_decide_eq_true H2%bool_decide_eq_true]. tauto.
    + reflexivity.
  - reflexivity.
  - reflexivity.
Qed.

(** ** The paths of a job *)

Lemma join_relative d l :
  Str.startswith "/" l = false →
  OsPath.join d l
  = (if bool_decide (d = "") || Str.endswith "/" d then d else d +:+ "/") +:+ l.
Proof.
  intros Hl. unfold OsPath.join. rewrite Hl.
  destruct (bool_decide (d = "") || Str.endswith "/" d); [done|].
  by rewrite app_assoc_s.
Qed.


Lemma do_io_ok op w w' :
  do_io op w = (Ok tt, w') →
  trace w' = trace w ++ [EvIO op]
  ∧ files w' =
      match op with
      | OpOpen path => <[path := ""]> (files w)
      | OpWrite path data => <[path := default "" (files w !! path) +:+ data]> (files w)
      | OpClose _ => files w
      end.
Proof.
  unfold do_io. destruct (io_ok w op); [|done]. intros [= <-]. done.
Qed.

Lemma do_io_unit op w : ∀ u w', do_io op w = (Ok u, w') → do_io op w = (Ok tt, w').
Proof. by intros []. Qed.



(** ** Writing a tidy table: the order of the file operations *)

Lemma s3_staging_relative p :
  Str.startswith "s3://" p = true →
  Str.startswith "/" (Str.replace_char "/" "_" p +:+ "tmp") = false.
Proof. intros [t ->]%startswith_spec. reflexivity. Qed.

Lemma backing_distinct tsv_path dict_path :
  _tidy_data_dictionary_path tsv_path = Ok dict_path →
  backing (writer_for dict_path) ≠ backing (writer_for tsv_path).
Proof.
  intros (base & -> & ->)%tidy_data_dictionary_path_app.
  unfold writer_for.
  change (base +:+ "_data_dictionary.tsv")
    with (base +:+ String "_" "data_dictionary.tsv").
  rewrite (startswith_app_notin "s3://" base "_" "data_dictionary.tsv" "." "tsv")
    by reflexivity.
  change (base +:+ String "." "tsv") with (base +:+ ".tsv").
  destruct (Str.startswith "s3://" (base +:+ ".tsv")) eqn:Hs3; simpl.
  - rewrite !join_relative.
    + intros Heq. apply String.app_inj in Heq.
      rewrite !replace_char_app, !app_assoc_s in Heq.
      apply String.app_inj in Heq. vm_compute in Heq. discriminate.
    + by apply s3_staging_relative.
    + apply s3_staging_relative.
      change (base +:+ String "_" "data_dictionary.tsv")
        with (base +:+ "_data_dictionary.tsv").
      change (base +:+ "_data_dictionary.tsv")
        with (base +:+ String "_" "data_dictionary.tsv").
      by rewrite (startswith_app_notin "s3://" base "_" "data_dictionary.tsv" "." "tsv").
  - intros Heq. apply String.app_inj in Heq. discriminate.
Qed.

Lemma do_io_cases op w :
  (∃ p, do_io op w = (Raise (OSError p), w))
  ∨ (∃ w', do_io op w = (Ok tt, w') ∧ trace w' = trace w ++ [EvIO op]
       ∧ files w' =
           match op with
           | OpOpen path => <[path := ""]> (files w)
           | OpWrite path data =>
               <[path := default "" (files w !! path) +:+ data]> (files w)
           | OpClose _ => files w
           end).
Proof.
  unfold do_io. destruct (io_ok w op); [right|left]; eauto.
Qed.

Lemma print_cases h l w old :
  files w !! backing h = Some old →
  ∃ tr,
    trace (print h l w).2 = trace w ++ tr
    ∧ Forall (touches (backing h)) tr
    ∧ (∀ u, (print h l w).1 = Ok u →
         tr = [EvIO (OpWrite (backing h) l); EvIO (OpWrite (backing h) LF)]
         ∧ files (print h l w).2 = <[backing h := (old +:+ l) +:+ LF]> (files w)).
Proof.
  intros Hold. unfold print, writer_write, mbind, M_bind.
  destruct (do_io_cases (OpWrite (backing h) l) w)
    as [[p ->]|(w1 & -> & Ht1 & Hf1)].
  { exists []. simpl. rewrite app_nil_r. done. }
  destruct (do_io_cases (OpWrite (backing h) LF) w1)
    as [[p ->]|(w2 & -> & Ht2 & Hf2)].
  { exists [EvIO (OpWrite (backing h) l)]. simpl. split; [done|].
    split; [|done]. by repeat constructor. }
  rewrite Hold in Hf1. simpl in Hf1.
  exists [EvIO (OpWrite (backing h) l); EvIO (OpWrite (backing h) LF)]. simpl.
  split; [by rewrite Ht2, Ht1, <- app_assoc|]. split; [by repeat constructor|].
  intros _ _. split; [done|].
  rewrite Hf2, Hf1, lookup_insert_eq. simpl. by rewrite insert_insert_eq.
Qed.

(** Printing lines into an open file. *)
Lemma for_each_print h lines : ∀ w old,
  files w !! backing h = Some old →
  ∃ tr,
    trace (for_each lines (print h) w).2 = trace w ++ tr
    ∧ Forall (touches (backing h)) tr
    ∧ ((for_each lines (print h) w).1 = Ok tt →
         tr = line_events (backing h) lines
         ∧ files (for_each lines (print h) w).2
           = <[backing h := old +:+ printed lines]> (files w)).
Proof.
  induction lines as [|l lines IH]; intros w old Hold.
  - exists []. simpl. rewrite app_nil_r. split; [done|]. split; [done|].
    intros _. split; [done|]. unfold printed. simpl.
    rewrite app_nil_r_s. by rewrite insert_id.
  - change (for_each (l :: lines) (print h) w)
      with (match print h l w with
            | (Ok _, w') => for_each lines (print h) w'
            | (Raise e, w') => (Raise e, w')
            end).
    destruct (print_cases h l w old Hold) as (tr1 & Ht1 & Hall1 & Hok1).
    destruct (print h l w) as [[u|e] w1]; simpl in Ht1.
    + destruct (Hok1 u eq_refl) as [-> Hf1]. simpl in Hf1.
      assert (Hold2 : files w1 !! backing h = Some ((old +:+ l) +:+ LF)).
      { rewrite Hf1. apply lookup_insert_eq. }
      destruct (IH w1 _ Hold2) as (tr & Htr & Hall & Hok).
      exists ([EvIO (OpWrite (backing h) l); EvIO (OpWrite (backing h) LF)] ++ tr).
      split; [|split].
      * rewrite Htr, Ht1, <- !app_assoc. done.
      * apply Forall_app. done.
      * intros Hr. destruct (Hok Hr) as [-> Hfs]. split; [done|].
        rewrite Hfs, Hf1, insert_insert_eq. f_equal.
        by rewrite printed_cons, !app_assoc_s.
    + exists tr1. done.
Qed.

Lemma create_file_cases q path w :
  (∃ p, create_file q path w = (Raise (OSError p), w))
  ∨ (∃ w1, create_file q path w = (Ok (writer_for path), w1)
       ∧ trace w1 = trace w ++ [EvIO (OpOpen (backing (writer_for path)))]
       ∧ files w1 = <[backing (writer_for path) := ""]> (files w)).
Proof.
  unfold create_file, writer_for.
  destruct (Str.startswith "s3://" path); unfold mbind, M_bind, mret, M_ret;
    match goal with
    | |- context [do_io ?op w] =>
        destruct (do_io_cases op w) as [[p ->]|(w1 & -> & Ht1 & Hf1)];
          [left; eauto | right; eauto]
    end.
Qed.

Abbreviation on_writer h :=
  (λ ev, touches (backing h) ev ∨ ∃ argv st, ev = EvCall argv st).

Lemma writer_close_cases q h w :
  ∃ tr,
    trace (writer_close q h w).2 = trace w ++ tr
    ∧ Forall (on_writer h) tr
    ∧ ((writer_close q h w).1 = Ok tt →
         tr = closing_events q h
         ∧ (∀ p, h = LocalFile p → files (writer_close q h w).2 = files w)).
Proof.
  destruct h as [p|s3 b]; unfold writer_close.
  - destruct (do_io_cases (OpClose p) w) as [[x ->]|(w1 & -> & Ht1 & Hf1)].
    + exists []. simpl. rewrite app_nil_r. done.
    + exists [EvIO (OpClose p)]. simpl. split; [done|].
      split; [constructor; [by left|constructor]|]. done.
  - unfold mbind, M_bind.
    destruct (do_io_cases (OpClose b) w) as [[x ->]|(w1 & -> & Ht1 & Hf1)].
    + exists []. simpl. rewrite app_nil_r. done.
    + unfold copy_file, try_finally, subprocess_check_call, subprocess_call,
        mbind, M_bind.
      pose proof (launch_trace [grail_file_path q; "cp"; abspath b; abspath s3] w1) as Hl.
      destruct (launch _ w1) as [st w2]. simpl in Hl.
      exists [EvIO (OpClose b);
              EvCall [grail_file_path q; "cp"; abspath b; abspath s3] st].
      assert (Htr : ∀ r, trace (let '(r0, w3) := r in
                 match _removeall s3 w3 with
                 | (Ok _, w4) => (r0, w4)
                 | (Raise e, w4) => (@Raise unit e, w4)
                 end).2 = trace r.2).
      { intros [r0 w3]. unfold _removeall. by destruct (Str.startswith _ _). }
      destruct (Z.eqb_spec st 0) as [->|Hst].
      * rewrite Htr. simpl. rewrite Hl, Ht1, <- app_assoc.
        split; [done|].
        split; [constructor; [by left|]; constructor; [right; eauto|]; constructor|].
        intros _. split; [done|]. intros p [=].
      * rewrite Htr. simpl. rewrite Hl, Ht1, <- app_assoc.
        split; [done|].
        split; [constructor; [by left|]; constructor; [right; eauto|]; constructor|].
        unfold raise, _removeall. destruct (Str.startswith _ _); done.
Qed.

(** One file of the pair: created, filled, closed. *)
Lemma write_phase q path lines w :
  let m := (fd ← create_file q path; with_writer q fd (for_each lines (print fd))) in
  ∃ tr,
    trace (m w).2 = trace w ++ tr
    ∧ Forall (on_writer (writer_for path)) tr
    ∧ (tr ≠ [] → ∃ tr', tr = EvIO (OpOpen (backing (writer_for path))) :: tr')
    ∧ ((m w).1 = Ok tt →
         tr = written_events q (writer_for path) lines
         ∧ (Str.startswith "s3://" path = false →
            files (m w).2 = <[path := printed lines]> (files w))).
Proof.
  intros m. subst m. unfold mbind, M_bind.
  destruct (create_file_cases q path w) as [[p ->]|(w1 & -> & Ht1 & Hf1)].
  { exists []. simpl. rewrite app_nil_r. done. }
  set (h := writer_for path) in *.
  assert (Hold : files w1 !! backing h = Some "").
  { rewrite Hf1. apply lookup_insert_eq. }
  destruct (for_each_print h lines w1 "" Hold) as (tr & Htr & Hall & Hok).
  unfold with_writer.
  destruct (for_each lines (print h) w1) as [[[]|e] w2]; simpl in Htr.
  - destruct (Hok eq_refl) as [-> Hfs]. simpl in Hfs.
    destruct (writer_close_cases q h w2) as (trc & Htc & Hallc & Hokc).
    exists (EvIO (OpOpen (backing h)) :: line_events (backing h) lines ++ trc).
    split; [rewrite Htc, Htr, Ht1, <- !app_assoc; done|].
    split; [|split; [eauto|]].
    + constructor; [by left|]. apply Forall_app. split; [|done].
      eapply Forall_impl; [exact Hall|]. by left.
    + intros Hr. destruct (Hokc Hr) as [-> Hloc]. split; [done|].
      intros Hs3. subst h. unfold writer_for in *. rewrite Hs3 in *.
      rewrite (Hloc _ eq_refl), Hfs, Hf1. simpl. by rewrite insert_insert_eq.
  - destruct (do_io_cases (OpClose (backing h)) w2)
      as [[p ->]|(w3 & -> & Ht3 & Hf3)].
    + exists (EvIO (OpOpen (backing h)) :: tr). simpl.
      rewrite Htr, Ht1, <- app_assoc. split; [done|].
      split; [|split; [eauto|done]].
      constructor; [by left|]. eapply Forall_impl; [exact Hall|]. by left.
    + exists (EvIO (OpOpen (backing h)) :: tr ++ [EvIO (OpClose (backing h))]). simpl.
      rewrite Ht3, Htr, Ht1, <- !app_assoc. split; [done|].
      split; [|split; [eauto|done]].
      constructor; [by left|]. apply Forall_app. split.
      * eapply Forall_impl; [exact Hall|]. by left.
      * constructor; [by left|constructor].
Qed.

Lemma TidyTSVWriter_write_phases q df tsv_path dict_path w :
  _tidy_data_dictionary_path tsv_path = Ok dict_path →
  TidyTSVWriter_write q df tsv_path w =
    match (fd ← create_file q dict_path;
           with_writer q fd (for_each (dictionary_lines df) (print fd))) w with
    | (Ok _, w1) =>
        (fd ← create_file q tsv_path;
         with_writer q fd (for_each (data_lines df) (print fd))) w1
    | (Raise e, w1) => (Raise e, w1)
    end.
Proof.
  intros Hp. unfold TidyTSVWriter_write, lift, mbind, M_bind. rewrite Hp.
  destruct (create_file q dict_path w) as [[fd|e] w1]; [|done].
  destruct (with_writer q fd _ w1) as [[[]|e] w2]; done.
Qed.

(** C9: in the events of one [_TidyTSVWriter.write], every operation on the
    data file comes after the complete events of the dictionary file
    (opened, every line printed, closed, and uploaded when remote); and
    [write] returns normally only when both files were written completely:
    any failure on the way is raised to the caller. *)
Theorem write_dictionary_first q df tsv_path w :
  let r := TidyTSVWriter_write q df tsv_path w in
  match _tidy_data_dictionary_path tsv_path with
  | Raise e => r = (Raise e, w)
  | Ok dict_path =>
      let dict_events := written_events q (writer_for dict_path) (dictionary_lines df) in
      let data_events := written_events q (writer_for tsv_path) (data_lines df) in
      ∃ tr,
        trace r.2 = trace w ++ tr
        ∧ (∀ i ev, tr !! i = Some ev →
             touches (backing (writer_for tsv_path)) ev →
             length dict_events ≤ i ∧ take (length dict_events) tr = dict_events)
        ∧ (r.1 = Ok tt → tr = dict_events ++ data_events)
  end.
Proof.
  intros r. destruct (_tidy_data_dictionary_path tsv_path) as [dict_path|e] eqn:Hp.
  2:{ unfold r, TidyTSVWriter_write, lift, mbind, M_bind. by rewrite Hp. }
  intros dict_events data_events.
  pose proof (backing_distinct _ _ Hp) as Hne.
  unfold r. rewrite (TidyTSVWriter_write_phases _ _ _ _ _ Hp).
  destruct (write_phase q dict_path (dictionary_lines df) w)
    as (tr1 & Ht1 & Hall1 & _ & Hok1).
  assert (Hno : Forall (λ ev, ¬ touches (backing (writer_for tsv_path)) ev) tr1).
  { eapply Forall_impl; [exact Hall1|]. intros ev [Ht|(argv & st & ->)]; [|by intros []].
    intros Ht'. destruct ev as [[p|p d|p]|]; simpl in *; congruence. }
  cbv zeta in Ht1, Hok1.
  destruct ((fd ← create_file q dict_path;
             with_writer q fd (for_each (dictionary_lines df) (print fd))) w)
    as [[[]|e] w1]; simpl in Ht1.
  - destruct (Hok1 eq_refl) as [Htr1 _]. fold dict_events in Htr1. subst tr1.
    destruct (write_phase q tsv_path (data_lines df) w1)
      as (tr2 & Ht2 & Hall2 & _ & Hok2).
    cbv zeta in Ht2, Hok2.
    exists (dict_events ++ tr2). split; [by rewrite Ht2, Ht1, <- app_assoc|]. split.
    + intros i ev Hi Htouch.
      rewrite take_app_length. split; [|done].
      destruct (decide (i < length dict_events)) as [Hlt|]; [|lia].
      rewrite lookup_app_l in Hi by done.
      rewrite Forall_forall in Hno. exfalso. eapply Hno; [|done].
      by eapply list_elem_of_lookup_2.
    + intros Hr. f_equal. by apply Hok2.
  - exists tr1. split; [done|]. split; [|done].
    intros i ev Hi Htouch. exfalso.
    rewrite Forall_forall in Hno. eapply Hno; [|done].
    by eapply list_elem_of_lookup_2.
Qed.

(** ** Writing a table and reading it back *)

Lemma endswith_btsv_tsv base : Str.endswith ".btsv" (base +:+ ".tsv") = false.
Proof. unfold Str.endswith. rewrite rev_app_s. reflexivity. Qed.

Lemma endswith_btsv_dictionary base :
  Str.endswith ".btsv" (base +:+ "_data_dictionary.tsv") = false.
Proof. unfold Str.endswith. rewrite rev_app_s. reflexivity. Qed.

Lemma dictionary_path_differs base :
  base +:+ "_data_dictionary.tsv" ≠ base +:+ ".tsv".
Proof.
  intros Heq. apply (f_equal String.length) in Heq.
  rewrite !length_app_s in Heq. simpl in Heq. lia.
Qed.

Lemma open_tsv_local q path c w :
  Str.startswith "s3://" path = false →
  Str.endswith ".btsv" path = false →
  files w !! path = Some c →
  open_tsv q path w = (Ok (Csv.reader (_comment_stripper (file_lines c))), w).
Proof.
  intros Hs3 Hb Hc. unfold open_tsv, maybe_cache_file. rewrite Hs3.
  unfold mbind, M_bind, mret, M_ret. rewrite Hb.
  unfold read_file. by rewrite Hc.
Qed.

(** C4 (amended): a table that [tidy_safe] admits, written to a local
    path with success, is read back from that path as the same table: the
    same columns in the same order with the same types, and the same cells.
    Reading leaves the world as it was. *)
Theorem tidy_round_trip q df tsv_path w w1 :
  tidy_safe df →
  Str.startswith "s3://" tsv_path = false →
  TidyTSVWriter_write q df tsv_path w = (Ok tt, w1) →
  TidyTSVParser_read q tsv_path w1 = (Ok df, w1).
Proof.
  intros Hsafe Hlocal Hw.
  destruct (_tidy_data_dictionary_path tsv_path) as [dict_path|e] eqn:Hd.
  2:{ unfold TidyTSVWriter_write in Hw. rewrite Hd in Hw. done. }
  rewrite (TidyTSVWriter_write_phases _ _ _ _ _ Hd) in Hw.
  destruct (tidy_data_dictionary_path_app _ _ Hd) as (base & -> & ->).
  assert (Hdlocal : Str.startswith "s3://" (base +:+ "_data_dictionary.tsv") = false).
  { by rewrite (startswith_app_notin "s3://" base "_" "data_dictionary.tsv" "." "tsv"). }
  destruct (write_phase q (base +:+ "_data_dictionary.tsv") (dictionary_lines df) w)
    as (tr1 & _ & _ & _ & H1).
  cbv zeta in H1.
  destruct ((fd ← create_file q (base +:+ "_data_dictionary.tsv");
             with_writer q fd (for_each (dictionary_lines df) (print fd))) w)
    as [[[]|e] wa] eqn:Hm1; [|done].
  destruct (H1 eq_refl) as [_ Hfa]. specialize (Hfa Hdlocal). cbn [snd] in Hfa.
  destruct (write_phase q (base +:+ ".tsv") (data_lines df) wa)
    as (tr2 & _ & _ & _ & H2).
  cbv zeta in H2. rewrite Hw in H2.
  destruct (H2 eq_refl) as [_ Hf1]. specialize (Hf1 Hlocal). cbn [snd] in Hf1.
  unfold TidyTSVParser_read, __read_dictionary. rewrite Hd.
  unfold lift, mbind, M_bind.
  rewrite (open_tsv_local q _ (printed (dictionary_lines df)));
    [|done|apply endswith_btsv_dictionary|].
  2:{ rewrite Hf1, lookup_insert_ne by (symmetry; apply dictionary_path_differs).
      rewrite Hfa. apply lookup_insert_eq. }
  rewrite read_dictionary_text by done.
  rewrite (open_tsv_local q _ (printed (data_lines df)));
    [|done|apply endswith_btsv_tsv|].
  2:{ rewrite Hf1. apply lookup_insert_eq. }
  by rewrite read_data_text.
Qed.

End DriverProperties.

(** ** The sampler thread *)

Lemma wait_pprof_timeout_spec stop now :
  let '(woke, go_on) := Sampler.__wait_pprof_timeout stop now in
  now ≤ woke ≤ now + Sampler.interval
  ∧ (go_on = true → woke = now + Sampler.interval ∧ woke < stop)
  ∧ (go_on = false → stop ≤ woke
       ∧ (now < stop → woke = stop) ∧ (stop ≤ now → woke = now + Sampler.interval)).
Proof.
  unfold Sampler.__wait_pprof_timeout, Sampler.interval.
  destruct (Nat.ltb_spec now stop), (Nat.ltb_spec stop (now + 30)); simpl;
    (split; [lia|]); (split; intros Hg;
      [apply negb_true_iff, Nat.leb_gt in Hg | apply negb_false_iff, Nat.leb_le in Hg]);
    lia.
Qed.




(** ** The cache of remote files *)

(** C7, on the code: [copy_file] removes its destination in a [finally]
    clause, so also after a successful copy.  Two calls of
    [maybe_cache_file] for one remote path start two transfers, the cached
    copy exists after neither, and opening the remote file fails. *)
Theorem cache_copy_is_removed :
  let local := "/tmp/gql_python_cache_u/s3:__bucket_f" in
  let cp := EvCall ["/bin/grail-file"; "cp"; "s3://bucket/f"; local] 0 in
  let r1 := @maybe_cache_file (test_env exec_cp) test_session "s3://bucket/f" empty_world in
  let r2 := @maybe_cache_file (test_env exec_cp) test_session "s3://bucket/f" r1.2 in
  r1.1 = Ok local ∧ files r1.2 !! local = None ∧ trace r1.2 = [cp]
  ∧ r2.1 = Ok local ∧ files r2.2 !! local = None ∧ trace r2.2 = [cp; cp]
  ∧ (@open_file (test_env exec_cp) test_session "s3://bucket/f" empty_world).1
    = Raise (FileNotFoundError local)
  ∧ (@file_exists (test_env exec_cp) test_session "s3://bucket/f" empty_world).1
    = Ok false.
Proof. vm_compute. repeat split; reflexivity. Qed.

(** * Runs in the example environment *)

(** Witness of C1: two retries against an engine that always exits 1. *)
Lemma retry_loop_attempts_witness :
  ∃ st w' sts,
    @retry_loop (test_env (exec_exit 1)) 3 ["gql"] 2 0 0 empty_world = Some (st, w')
    ∧ @run_loop (test_env (exec_exit 1)) ["gql"] 2 empty_world = (Ok st, w')
    ∧ trace w' = trace empty_world ++ (EvCall ["gql"] <$> sts)
    ∧ ((∀ w0, (@exec (test_env (exec_exit 1)) ["gql"] w0).1 ≠ 0%Z) →
         length sts = Z.to_nat 2 + 1 ∧ last sts = Some st ∧ st ≠ 0%Z)
    ∧ (∀ i, sts !! i = Some 0%Z → S i = length sts ∧ st = 0%Z).
Proof.
  apply (@retry_loop_attempts (test_env (exec_exit 1)) ["gql"] 2 3 empty_world).
  - lia.
  - simpl. lia.
Defined.

(** The same loop run: three starts, status 1; and a success on the second
    start ends the loop with status 0 after two starts. *)
Example retry_loop_three_starts :
  @retry_loop (test_env (exec_exit 1)) 3 ["gql"] 2 0 0 empty_world
    = Some (1%Z, {| files := ∅;
                    trace := [EvCall ["gql"] 1; EvCall ["gql"] 1; EvCall ["gql"] 1] |})
  ∧ @retry_loop (test_env (exec_fail_first 1)) 3 ["gql"] 2 0 0 empty_world
    = Some (0%Z, {| files := ∅; trace := [EvCall ["gql"] 1; EvCall ["gql"] 0] |}).
Proof. split; reflexivity. Qed.

(** C2, on the code: the comprehension of [_Instance.run] iterates the
    keys of the parameter dictionary and unpacks each key into two
    characters.  The example of the constructor's docstring makes [run] raise
    [ValueError] before the engine is started; a two-letter key is rendered
    from its own letters, without its value. *)
Theorem render_params_unpacks_keys :
  render_params [("input", "s3://mybucket/file")]
    = Raise (ValueError "too many values to unpack (expected 2)")
  ∧ render_params [("ab", "x")] = Ok ["--a=b"]
  ∧ (let r := @GQL_run (test_env (exec_exit 0)) test_session "" "x.gql" "job" []
                [("input", "s3://mybucket/file")] 0 empty_world in
     r.1 = Raise (ValueError "too many values to unpack (expected 2)")
     ∧ trace r.2 = [EvIO (OpOpen "/tmp/log2018-08-01T00-00-00Z/joblog.txt")]).
Proof. repeat split; reflexivity. Qed.

(** Counterexample to C5 as stated: [GQL.run] with an empty label (as
    run.py calls it) starts the engine and returns its status. *)
Lemma empty_label_runs :
  let r := @GQL_run (test_env (exec_exit 0)) test_session "" "x.gql" "" [] [] 0
             empty_world in
  r.1 = Ok 0%Z
  ∧ trace r.2 =
      [EvIO (OpOpen "/tmp/log2018-08-01T00-00-00Z/anon_runlog.txt");
       EvCall ["/bin/grail-query"; "--pprof=:22007"; "--bigslice.http=:2007";
               "--bigslice.parallelism=8192"; "--bigslice.system=ec2-gql"; "x.gql"] 0].
Proof. split; reflexivity. Qed.

(** [_Instance.__init__] accepts both a script path and an expression: the
    expression is written to a temporary script, which replaces the path. *)
Example instance_accepts_both :
  (i_script_path <$>
     (@Instance_init (test_env (exec_exit 0)) test_session "lab" "x.gql" "1+1" [] [] 0
        empty_world).1)
  = Ok "/tmp/log2018-08-01T00-00-00Z/labscripttmptmp0.gql".
Proof. reflexivity. Qed.

(** Witness of C5 (amended): neither [expr] nor [script_path], empty label. *)
Lemma configuration_errors_witness :
  @GQL_run (test_env (exec_exit 0)) test_session "" "" "" [] [] 0 empty_world
    = (Raise (Exception "run: Exactly one of expr or script_path must be set"), empty_world)
  ∧ @Instance_init (test_env (exec_exit 0)) test_session "" "" "" [] [] 0 empty_world
    = (Raise (Exception "Exactly one of script_path or expr must be set"), empty_world)
  ∧ @Instance_init (test_env (exec_exit 0)) test_session "" "x.gql" "" [] [] 0 empty_world
    = (Raise (Exception "label cannot be empty"), empty_world).
Proof.
  pose proof (@configuration_errors (test_env (exec_exit 0)) Dec.float64
                test_session "" "" "" [] [] 0 empty_world) as (H1 & H2 & _).
  pose proof (@configuration_errors (test_env (exec_exit 0)) Dec.float64
                test_session "" "x.gql" "" [] [] 0 empty_world) as (_ & _ & H3 & _).
  split; [|split].
  - apply H1. reflexivity.
  - apply H2. split; reflexivity.
  - apply H3; [reflexivity|]. intros [? _]. discriminate.
Defined.

(** Witness of C10: the engine exits with status 1 on both attempts. *)
Lemma eval_status_gate_witness :
  @GQL_eval (test_env (exec_exit 1)) Dec.float64 test_session "" "x.gql" "" [] [] 0
    empty_world
  = (Raise (Exception "eval : gql finished with status 1"), next_seq test_session,
     {| files := {[ "/tmp/log2018-08-01T00-00-00Z/anon_exprlog.txt" := "" ]};
        trace :=
          [EvIO (OpOpen "/tmp/log2018-08-01T00-00-00Z/anon_exprlog.txt");
           EvCall ["/bin/grail-query";
                   "--output=/tmp/log2018-08-01T00-00-00Z-anon_expr-expr_to_dataframe_tmp-0.tsv";
                   "--pprof=:22007"; "--bigslice.http=:2007";
                   "--bigslice.parallelism=8192"; "--bigslice.system=ec2-gql";
                   "x.gql"] 1] |}).
Proof.
  refine (proj1 (@eval_status_gate (test_env (exec_exit 1)) Dec.float64
            test_session "" "x.gql" "" [] [] 0 empty_world _ _ _ 1%Z _ _ _) _).
  - simpl. discriminate.
  - reflexivity.
  - vm_compute. reflexivity.
  - discriminate.
Defined.

(** ** Decoding *)



(** ** Paths of two jobs *)



(** ** Writing a table and reading it back: examples *)

Lemma example_frame_safe : @tidy_safe Dec.float64 example_frame.
Proof.
  split.
  - repeat constructor.
  - cbn. apply (bool_decide_unpack _). vm_compute. reflexivity.
  - cbn [series example_frame s_dtype s_values].
    repeat constructor; try reflexivity; try discriminate.
  - cbn [series example_frame s_name s_values].
    repeat constructor; try reflexivity; try (unfold Csv.field_limit; simpl; lia).
  - left. cbn. apply (bool_decide_unpack _). reflexivity.
  - repeat constructor; try reflexivity; try discriminate.
Defined.

(** Witness of C4 (amended): the table of the scenario of the
    specification, written to [/tmp/t.tsv] in a world without files. *)
Lemma tidy_round_trip_witness :
  let E := test_env (exec_exit 0) in
  let wr := @TidyTSVWriter_write E Dec.float64 test_session example_frame
              "/tmp/t.tsv" empty_world in
  wr.1 = Ok tt
  ∧ @TidyTSVParser_read E Dec.float64 test_session "/tmp/t.tsv" wr.2
    = (Ok example_frame, wr.2).
Proof.
  intros E wr. split; [reflexivity|].
  apply (@tidy_round_trip E Dec.float64 test_session example_frame
           "/tmp/t.tsv" empty_world).
  - apply example_frame_safe.
  - reflexivity.
  - transitivity (wr.1, wr.2); [apply surjective_pairing|].
    apply (f_equal (λ r, (r, wr.2))). reflexivity.
Defined.

(** Counterexample to C4 as stated: each of these tables is written with
    success and is not read back.  A string cell that begins with [#], or
    an empty one in a table of one column, makes a line that the reader
    drops; the string [NA] comes back as an absent value and the float
    -9999999 as NaN; a TAB in a cell makes a row of two fields for one
    column; and beside a float column without a string column, [iterrows]
    turns the integer 1 into the float 1.0, whose text [int] rejects. *)
Lemma tidy_round_trip_fails :
  written_and_read (one_column object (VStr "#x")) = (Ok tt, Ok no_rows)
  ∧ written_and_read (one_column object (VStr "")) = (Ok tt, Ok no_rows)
  ∧ written_and_read (one_column object (VStr "NA"))
    = (Ok tt, Ok (one_column object VNone))
  ∧ written_and_read (one_column np_float (VFloat (Some ((-9999999)%Z, 0))))
    = (Ok tt, Ok (one_column np_float NaN))
  ∧ written_and_read (one_column object (VStr ("a" +:+ TAB +:+ "b")))
    = (Ok tt, Raise (ValueError
         "columns passed, passed data had a different number of columns"))
  ∧ written_and_read mixed_frame
    = (Ok tt, Raise (ValueError "invalid literal for int() with base 10")).
Proof. repeat split; reflexivity. Qed.

(** * Further properties of the driver *)

(** ** Comment stripping *)

Lemma comment_stripper_from_filter it : ∀ n,
  _comment_stripper_from n it
  = drop (1 - n)
      (filter (λ l, Str.startswith "#" l = false ∧ Str.strip l ≠ "") it).
Proof.
  induction it as [|l it IH]; intros n; [by rewrite filter_nil, drop_nil|].
  cbn [_comment_stripper_from].
  destruct (Str.startswith "#" l) eqn:Hc.
  { rewrite filter_cons_False by (intros [? _]; congruence). apply IH. }
  case_bool_decide as Hb.
  { rewrite filter_cons_False by (intros [_ ?]; done). apply IH. }
  rewrite filter_cons_True by done.
  destruct n as [|n].
  - rewrite bool_decide_eq_true_2 by done. rewrite IH. reflexivity.
  - rewrite bool_decide_eq_false_2 by lia. rewrite IH.
    replace (1 - S n) with 0 by lia. replace (1 - S (S n)) with 0 by lia.
    reflexivity.
Qed.

(** X1: [_comment_stripper] yields the lines that neither begin with [#]
    nor are blank, in order, without the first of them: the header line is
    dropped whatever it holds, also when comments or blank lines come before
    it. *)
Theorem comment_stripper_drops_header it :
  _comment_stripper it
  = drop 1 (filter (λ l, Str.startswith "#" l = false ∧ Str.strip l ≠ "") it).
Proof. apply (comment_stripper_from_filter it 0). Qed.

(** ** Type names of the dictionary *)

(** X2: the type names that the writer prints are read back as the same
    types; a type name of a dictionary is printed back unchanged exactly when
    it is one of int, float and string: every other name is read as a string
    column. *)
Theorem tidy_type_names name t :
  parse_type (numpy_type_to_tidy t) = t
  ∧ (numpy_type_to_tidy (parse_type name) = name
     ↔ name ∈ ["int"; "float"; "string"]).
Proof.
  split; [by destruct t|]. unfold parse_type.
  rewrite !elem_of_cons, elem_of_nil.
  case_bool_decide as Hi; [subst; simpl; tauto|].
  case_bool_decide as Hf; [subst; simpl; tauto|].
  simpl. split; [auto|]. intros [?|[?|[?|[]]]]; congruence.
Qed.

Section Rows.

Context `{Float64}.

(** ** Rows and the dictionary *)

Lemma hack_na_from_outcome cols row : ∀ i,
  match __hack_na_from i row cols with
  | Ok parsed =>
      length parsed = length row
      ∧ ∀ k, row !! k = Some "NA" → i + k < length cols
  | Raise e =>
      e = IndexError ∧ ∃ k, row !! k = Some "NA" ∧ length cols ≤ i + k
  end.
Proof.
  induction row as [|v row IH]; intros i; cbn [__hack_na_from].
  - split; [done|]. intros k Hk. done.
  - specialize (IH (S i)).
    destruct (decide (v = "NA")) as [->|Hv].
    + rewrite bool_decide_eq_false_2 by (intros ?; done).
      destruct (cols !! i) as [[n t]|] eqn:Hc.
      * apply lookup_lt_Some in Hc.
        assert (Hx : ∃ x, match t with
                          | np_int => Ok (VInt SENTINEL)
                          | np_float => Ok NaN
                          | object => Ok VNone
                          end = Ok x) by (destruct t; eauto).
        destruct Hx as [x Hx]. rewrite Hx. cbn [mbind result_bind].
        destruct (__hack_na_from (S i) row cols) as [xs|e]; cbn [mbind result_bind].
        -- destruct IH as [Hlen Hna]. split; [simpl; lia|].
           intros [|k] Hk; [lia|]. specialize (Hna k Hk). lia.
        -- destruct IH as [-> (k & Hk & Hge)]. split; [done|].
           exists (S k). split; [done|lia].
      * apply lookup_ge_None in Hc. cbn [mbind result_bind]. split; [done|].
        exists 0. split; [done|lia].
    + rewrite bool_decide_eq_true_2 by done. cbn [mbind result_bind].
      destruct (__hack_na_from (S i) row cols) as [xs|e]; cbn [mbind result_bind].
      * destruct IH as [Hlen Hna]. split; [simpl; lia|].
        intros [|k] Hk; [simpl in Hk; congruence|]. specialize (Hna k Hk). lia.
      * destruct IH as [-> (k & Hk & Hge)]. split; [done|].
        exists (S k). split; [done|lia].
Qed.

(** X3: [__hack_na] returns one value for each field of the row, whatever
    the width of the dictionary; it fails, with [IndexError], exactly when
    a field NA stands at a position for which the dictionary has no column.
    Fields beyond the dictionary that are not NA pass. *)
Theorem hack_na_outcome row cols :
  match __hack_na row cols with
  | Ok parsed =>
      length parsed = length row
      ∧ ∀ i, row !! i = Some "NA" → i < length cols
  | Raise e =>
      e = IndexError ∧ ∃ i, row !! i = Some "NA" ∧ length cols ≤ i
  end.
Proof. apply (hack_na_from_outcome cols row 0). Qed.

(** X4: the dictionary read from rows without a reading error has one
    column for each row, named by the row's first field and typed by its
    second; further fields (the description) are ignored.  A row with fewer
    than two fields makes [__read_dictionary] raise [IndexError]. *)
Theorem dictionary_of_rows_outcome rows :
  match dictionary_of_rows (rows, None) with
  | Ok cols =>
      length cols = length rows
      ∧ ∀ i row, rows !! i = Some row →
          ∃ n t rest, row = n :: t :: rest ∧ cols !! i = Some (n, parse_type t)
  | Raise e => e = IndexError ∧ ∃ row, row ∈ rows ∧ length row < 2
  end.
Proof.
  unfold dictionary_of_rows. cbn [fst snd].
  induction rows as [|row rows IH]; cbn [consume].
  - split; [done|]. intros i row Hi. done.
  - destruct row as [|n [|t rest]]; cbn [mbind result_bind].
    + split; [done|]. exists []. split; [left|simpl; lia].
    + split; [done|]. exists [n]. split; [left|simpl; lia].
    + destruct (consume _ rows None) as [cols|e]; cbn [mbind result_bind].
      * destruct IH as [Hlen Hrows]. split; [simpl; lia|].
        intros [|i] row Hi; simpl in Hi.
        -- injection Hi as <-. eauto.
        -- apply Hrows in Hi. done.
      * destruct IH as [-> (row & Hin & Hlt)]. split; [done|].
        exists row. split; [by right|done].
Qed.

(** X5: a non-sentinel integer is never printed as NA, and two integer
    cells are printed alike only when they are equal: the text of an integer
    cell determines it. *)
Theorem int_cells_printed z1 z2 :
  (numpy_value_to_tidy (VInt z1) = "NA" ↔ z1 = SENTINEL)
  ∧ (numpy_value_to_tidy (VInt z1) = numpy_value_to_tidy (VInt z2) → z1 = z2).
Proof.
  cbn [numpy_value_to_tidy]. split.
  - case_bool_decide as H1; [done|]. split; [|done].
    intros Hna. by apply of_Z_not_NA in Hna.
  - case_bool_decide as H1; case_bool_decide as H2; subst.
    + done.
    + intros Hna. symmetry in Hna. by apply of_Z_not_NA in Hna.
    + intros Hna. by apply of_Z_not_NA in Hna.
    + apply of_Z_inj.
Qed.

End Rows.

(** ** The command line *)

(** The argument made from a key of two characters: the characters around
    an equals sign. *)
Lemma render_params_cons k v rest :
  render_params ((k, v) :: rest) =
    match unpack2 k with
    | Ok (a, b) =>
        match render_params rest with
        | Ok args => Ok (("--" +:+ a +:+ "=" +:+ b) :: args)
        | Raise e => Raise e
        end
    | Raise e => Raise e
    end.
Proof.
  unfold render_params. rewrite fmap_cons, mapM_result_cons. cbn [fst].
  by destruct (unpack2 k) as [[a b]|e].
Qed.

Lemma render_params_length gql_params args :
  render_params gql_params = Ok args → length args = length gql_params.
Proof.
  revert args. induction gql_params as [|[k v] rest IH]; intros args.
  - by intros [= <-].
  - rewrite render_params_cons. destruct (unpack2 k) as [[a b]|e]; [|done].
    destruct (render_params rest) as [args'|e]; [|done].
    intros [= <-]. simpl. by rewrite (IH args').
Qed.

(** X6: the parameter arguments of [_Instance.run] come from the keys of
    the dictionary alone.  The rendering succeeds exactly when every key has
    two characters, and then there is one argument for each key, made of the
    key's first character, an equals sign and its second character; with any
    other key [run] raises [ValueError].  No value of the dictionary takes
    part. *)
Theorem render_params_outcome gql_params :
  match render_params gql_params with
  | Ok args =>
      Forall (λ kv, String.length kv.1 = 2) gql_params
      ∧ args = (λ kv, "--" +:+ String.substring 0 1 kv.1 +:+ "="
                      +:+ String.substring 1 1 kv.1) <$> gql_params
  | Raise e =>
      (∃ msg, e = ValueError msg)
      ∧ Exists (λ kv, String.length kv.1 ≠ 2) gql_params
  end.
Proof.
  induction gql_params as [|[k v] rest IH].
  - split; [constructor|done].
  - rewrite render_params_cons.
    destruct k as [|a [|b [|c k]]]; cbn [unpack2].
    + split; [eauto|]. left. simpl. lia.
    + split; [eauto|]. left. simpl. lia.
    + destruct (render_params rest) as [args|e].
      * destruct IH as [Hall ->]. split; [constructor; done|]. reflexivity.
      * destruct IH as [Hmsg Hex]. split; [done|]. by right.
    + split; [eauto|]. left. simpl. lia.
Qed.

(** ** The path of the dictionary file *)

Lemma rpartition_last c h t :
  Str.contains_char c t = false →
  OsPath.rpartition c (h +:+ String c t) = Some (h, t).
Proof.
  intros Ht. assert (Hnone : OsPath.rpartition c t = None).
  { induction t as [|a t IH]; [done|]. cbn [Str.contains_char] in Ht.
    apply orb_false_iff in Ht as [Ha Ht]. cbn [OsPath.rpartition].
    by rewrite IH, Ha. }
  induction h as [|a h IH].
  - rewrite app_nil_l_s. cbn [OsPath.rpartition]. by rewrite Hnone, Ascii.eqb_refl.
  - rewrite app_cons. cbn [OsPath.rpartition]. by rewrite IH.
Qed.

Lemma rpartition_none c s :
  Str.contains_char c s = false → OsPath.rpartition c s = None.
Proof.
  induction s as [|a s IH]; [done|]. cbn [Str.contains_char].
  intros [Ha Hs]%orb_false_iff. cbn [OsPath.rpartition]. by rewrite IH, Ha.
Qed.

(** X7: for a data file named [stem.tsv] in a directory, where [stem]
    holds no slash, the dictionary file is [stem_data_dictionary.tsv] in the
    same directory; but when [stem] is empty or made of dots only,
    [os.path.splitext] finds no extension (the name is a hidden file) and
    the assertion of [_tidy_data_dictionary_path] fails, although the path
    ends in [.tsv]. *)
Theorem dictionary_path_of_stem dir stem :
  Str.contains_char "/" stem = false →
  _tidy_data_dictionary_path (dir +:+ "/" +:+ stem +:+ ".tsv")
  = if OsPath.all_char "." stem then Raise AssertionError
    else Ok (dir +:+ "/" +:+ stem +:+ "_data_dictionary.tsv").
Proof.
  intros Hstem. unfold _tidy_data_dictionary_path, OsPath.splitext.
  change (dir +:+ "/" +:+ stem +:+ ".tsv")
    with (dir +:+ String "/" (stem +:+ ".tsv")).
  rewrite rpartition_last by (by rewrite contains_char_app, Hstem).
  change (stem +:+ ".tsv") with (stem +:+ String "." "tsv").
  rewrite rpartition_last by reflexivity.
  destruct (OsPath.all_char "." stem); [done|].
  rewrite bool_decide_eq_true_2 by done. by rewrite !app_assoc_s.
Qed.

(** Witness of X7: [/data/data2.tsv], and the hidden file [/data/.tsv]. *)
Lemma dictionary_path_of_stem_witness :
  _tidy_data_dictionary_path "/data/data2.tsv" = Ok "/data/data2_data_dictionary.tsv"
  ∧ _tidy_data_dictionary_path "/data/.tsv" = Raise AssertionError.
Proof.
  split.
  - apply (dictionary_path_of_stem "/data" "data2"). reflexivity.
  - apply (dictionary_path_of_stem "/data" ""). reflexivity.
Defined.

Section Files.

Context `{Env} `{Float64}.

(** ** Copies, the cache and [file_exists] *)

(** The cached copy of a remote path is a local path. *)
Lemma cache_path_local p suffix :
  Str.startswith "s3://" p = true →
  ∃ rest, OsPath.join CACHE_DIR (Str.replace_char "/" "_" p +:+ suffix)
          = String "/" rest.
Proof.
  intros [t ->]%startswith_spec. rewrite join_relative by reflexivity.
  unfold CACHE_DIR. destruct (_ || _); eexists; reflexivity.
Qed.

Lemma copy_file_cases q from_path to_path w :
  let cmd := [grail_file_path q; "cp"; abspath from_path; abspath to_path] in
  let r := copy_file q from_path to_path w in
  trace r.2 = trace w ++ [EvCall cmd (exec cmd w).1]
  ∧ r.1 = (if ((exec cmd w).1 =? 0)%Z then Ok tt
           else Raise (CalledProcessError cmd (exec cmd w).1))
  ∧ files r.2 = (if Str.startswith "s3://" to_path then (exec cmd w).2
                 else delete to_path (exec cmd w).2).
Proof.
  intros cmd r. subst r.
  unfold copy_file, try_finally, subprocess_check_call, subprocess_call,
    mbind, M_bind, launch.
  fold cmd. destruct (exec cmd w) as [st fs]. cbn [fst snd].
  unfold _removeall, mret, M_ret, raise, emit, set_files.
  destruct (Str.startswith "s3://" to_path), (st =? 0)%Z; cbn [fst snd files trace];
    repeat split; done.
Qed.


(** A remote path without a cached copy: one transfer, and no copy after
    it. *)
Lemma maybe_cache_file_miss q path w :
  let local_path := OsPath.join CACHE_DIR (Str.replace_char "/" "_" path) in
  let cmd := [grail_file_path q; "cp"; path; os_path_abspath local_path] in
  let r := maybe_cache_file q path w in
  Str.startswith "s3://" path = true → files w !! local_path = None →
  trace r.2 = trace w ++ [EvCall cmd (exec cmd w).1]
  ∧ r.1 = (if ((exec cmd w).1 =? 0)%Z then Ok local_path
           else Raise (CalledProcessError cmd (exec cmd w).1))
  ∧ files r.2 !! local_path = None.
Proof.
  intros local_path cmd r Hs3 Hnone. subst r. unfold maybe_cache_file.
  rewrite Hs3. fold local_path.
  unfold mbind, M_bind, os_path_exists, mret, M_ret.
  rewrite bool_decide_eq_false_2 by (rewrite Hnone; by intros [? ?]).
  cbn [negb].
  destruct (cache_path_local path "" Hs3) as [rest Hrest].
  rewrite app_nil_r_s in Hrest. fold local_path in Hrest.
  assert (Hcmd : [grail_file_path q; "cp"; abspath path; abspath local_path] = cmd).
  { unfold cmd, abspath. apply startswith_spec in Hs3 as [t ->].
    rewrite Hrest. reflexivity. }
  destruct (copy_file_cases q path local_path w) as (Htr & Hres & Hfs).
  rewrite Hcmd in Htr, Hres, Hfs.
  assert (Hgone : files (copy_file q path local_path w).2 !! local_path = None).
  { rewrite Hfs, Hrest. cbn [Str.startswith Ascii.eqb]. cbn.
    rewrite <- Hrest. apply lookup_delete_eq. }
  destruct (copy_file q path local_path w) as [[[]|e] w1]; cbn [fst snd] in *.
  - split; [done|]. split; [|done]. by destruct (_ =? _)%Z.
  - split; [done|]. split; [|done]. destruct (_ =? _)%Z; congruence.
Qed.

(** X9: [maybe_cache_file] returns a local path as it is, and for a remote
    path whose cached copy exists it returns the copy; in both cases nothing
    is started and nothing changes.  For a remote path without a cached
    copy it starts one transfer and, when the transfer succeeds, returns the
    cache path; but the copy does not exist afterwards, since [copy_file]
    removes its destination, so the next call starts a transfer again. *)
Theorem maybe_cache_file_outcome q path w :
  let local_path := OsPath.join CACHE_DIR (Str.replace_char "/" "_" path) in
  let cmd := [grail_file_path q; "cp"; path; os_path_abspath local_path] in
  let r := maybe_cache_file q path w in
  (Str.startswith "s3://" path = false → r = (Ok path, w))
  ∧ (Str.startswith "s3://" path = true → is_Some (files w !! local_path) →
     r = (Ok local_path, w))
  ∧ (Str.startswith "s3://" path = true → files w !! local_path = None →
     trace r.2 = trace w ++ [EvCall cmd (exec cmd w).1]
     ∧ (r.1 = Ok local_path ↔ (exec cmd w).1 = 0%Z)
     ∧ files r.2 !! local_path = None
     ∧ ∃ st, trace (maybe_cache_file q path r.2).2
             = trace w ++ [EvCall cmd (exec cmd w).1; EvCall cmd st]).
Proof.
  intros local_path cmd r. subst r.
  split; [|split].
  - unfold maybe_cache_file. by intros ->.
  - unfold maybe_cache_file. intros -> Hex. fold local_path.
    unfold mbind, M_bind, os_path_exists, mret, M_ret.
    by rewrite bool_decide_eq_true_2.
  - intros Hs3 Hnone.
    destruct (maybe_cache_file_miss q path w Hs3 Hnone) as (Htr & Hres & Hgone).
    fold local_path in Htr, Hres, Hgone. fold cmd in Htr, Hres.
    split; [done|]. split; [|split; [done|]].
    + rewrite Hres. destruct (Z.eqb_spec (exec cmd w).1 0); split; done.
    + destruct (maybe_cache_file_miss q path _ Hs3 Hgone) as (Htr2 & _).
      fold local_path in Htr2. fold cmd in Htr2.
      eexists. rewrite Htr2, Htr, <- app_assoc. reflexivity.
Qed.

(** X10: [file_exists] on a local path tells whether the file exists and
    changes nothing.  On a remote path with a cached copy it answers [True]
    without looking at the remote side.  On a remote path without a cached
    copy it answers [False] whatever the transfer does: a failed transfer is
    caught, and after a successful one the copy has been removed before it
    is opened. *)
Theorem file_exists_outcome q path w :
  let local_path := OsPath.join CACHE_DIR (Str.replace_char "/" "_" path) in
  let r := file_exists q path w in
  (Str.startswith "s3://" path = false →
     r = (Ok (bool_decide (is_Some (files w !! path))), w))
  ∧ (Str.startswith "s3://" path = true → is_Some (files w !! local_path) →
     r = (Ok true, w))
  ∧ (Str.startswith "s3://" path = true → files w !! local_path = None →
     r.1 = Ok false).
Proof.
  intros local_path r. subst r. unfold file_exists, open_file, mbind, M_bind.
  split; [|split].
  - intros Hs3. unfold maybe_cache_file. rewrite Hs3.
    unfold mret, M_ret, read_file.
    destruct (files w !! path) as [c|] eqn:Hc.
    + by rewrite bool_decide_eq_true_2.
    + by rewrite bool_decide_eq_false_2 by (by intros [? ?]).
  - intros Hs3 [c Hc]. unfold maybe_cache_file. rewrite Hs3. fold local_path.
    unfold mbind, M_bind, os_path_exists, mret, M_ret.
    rewrite bool_decide_eq_true_2 by eauto. cbn [negb].
    unfold read_file. by rewrite Hc.
  - intros Hs3 Hnone.
    destruct (maybe_cache_file_miss q path w Hs3 Hnone) as (_ & Hres & Hgone).
    fold local_path in Hres, Hgone.
    destruct (maybe_cache_file q path w) as [[p|e] w1]; cbn [fst snd] in *.
    + destruct (_ =? _)%Z; [|done]. injection Hres as ->.
      unfold read_file. by rewrite Hgone.
    + destruct (_ =? _)%Z; [done|]. by injection Hres as ->.
Qed.

End Files.

Section Reading.

Context `{Env} `{Float64}.

(** ** Opening a table *)

Lemma open_tsv_local_cases q path w :
  Str.startswith "s3://" path = false →
  Str.endswith ".btsv" path = false →
  open_tsv q path w
  = (match files w !! path with
     | Some c => Ok (Csv.reader (_comment_stripper (file_lines c)))
     | None => Raise (FileNotFoundError path)
     end, w).
Proof.
  intros Hs3 Hb. unfold open_tsv, maybe_cache_file. rewrite Hs3.
  unfold mbind, M_bind, mret, M_ret. rewrite Hb.
  unfold read_file. by destruct (files w !! path).
Qed.

(** X11: for a local path that ends in [.btsv], [open_tsv] reads the file
    named by replacing [.btsv] with [.tsv].  When that file exists nothing
    is started.  When it does not, [grail-query] (looked up on the search
    path, not the session's own executable) is started once to translate the
    file; a nonzero exit status raises [CalledProcessError], and after a
    zero status the translated file is read, which fails with
    [FileNotFoundError] when the program did not leave it. *)
Theorem open_tsv_btsv q path w :
  Str.startswith "s3://" path = false →
  Str.endswith ".btsv" path = true →
  let tsv_path := Str.replace ".btsv" ".tsv" path in
  let cmd := ["grail-query"; "-overwrite-files"; "-eval";
              "read(`" +:+ path +:+ "`) | write(`" +:+ tsv_path +:+ "`)"] in
  let r := open_tsv q path w in
  (∀ c, files w !! tsv_path = Some c →
     r = (Ok (Csv.reader (_comment_stripper (file_lines c))), w))
  ∧ (files w !! tsv_path = None →
     trace r.2 = trace w ++ [EvCall cmd (exec cmd w).1]
     ∧ files r.2 = (exec cmd w).2
     ∧ r.1 = (if ((exec cmd w).1 =? 0)%Z then
                match (exec cmd w).2 !! tsv_path with
                | Some c => Ok (Csv.reader (_comment_stripper (file_lines c)))
                | None => Raise (FileNotFoundError tsv_path)
                end
              else Raise (CalledProcessError cmd (exec cmd w).1))).
Proof.
  intros Hs3 Hb tsv_path cmd r. subst r.
  unfold open_tsv, maybe_cache_file. rewrite Hs3.
  unfold mbind, M_bind, mret, M_ret. rewrite Hb. fold tsv_path. fold cmd.
  unfold os_path_exists. split.
  - intros c Hc. rewrite bool_decide_eq_true_2 by eauto. cbn [negb].
    unfold read_file. by rewrite Hc.
  - intros Hnone. rewrite bool_decide_eq_false_2 by (rewrite Hnone; by intros [? ?]).
    cbn [negb]. unfold subprocess_check_call, subprocess_call, mbind, M_bind, launch.
    destruct (exec cmd w) as [st fs]. cbn [fst snd].
    unfold mret, M_ret, raise, read_file, emit, set_files.
    destruct (st =? 0)%Z; cbn [fst snd files trace]; [|done].
    by destruct (fs !! tsv_path).
Qed.

(** X12: reading a table from a local path changes nothing: no file is
    written and nothing is started.  It raises [AssertionError] for a path
    without the extension [.tsv], [FileNotFoundError] naming the dictionary
    file when that file is missing, and returns no table when the data file
    is missing. *)
Theorem read_local_table q tsv_path w :
  Str.startswith "s3://" tsv_path = false →
  let r := TidyTSVParser_read q tsv_path w in
  r.2 = w
  ∧ match _tidy_data_dictionary_path tsv_path with
    | Raise e => e = AssertionError ∧ r.1 = Raise AssertionError
    | Ok dict_path =>
        (files w !! dict_path = None → r.1 = Raise (FileNotFoundError dict_path))
        ∧ (files w !! tsv_path = None → ∀ df, r.1 ≠ Ok df)
    end.
Proof.
  intros Hlocal r. subst r. unfold TidyTSVParser_read, __read_dictionary.
  destruct (_tidy_data_dictionary_path tsv_path) as [dict_path|e] eqn:Hd.
  2:{ unfold _tidy_data_dictionary_path in Hd.
      destruct (OsPath.splitext tsv_path) as [base ext].
      destruct (bool_decide (ext = ".tsv")); [done|]. by injection Hd as <-. }
  destruct (tidy_data_dictionary_path_app _ _ Hd) as (base & -> & ->).
  assert (Hdlocal : Str.startswith "s3://" (base +:+ "_data_dictionary.tsv") = false).
  { by rewrite (startswith_app_notin "s3://" base "_" "data_dictionary.tsv" "." "tsv"). }
  unfold lift, mbind, M_bind.
  rewrite (open_tsv_local_cases q (base +:+ "_data_dictionary.tsv"))
    by (done || apply endswith_btsv_dictionary).
  destruct (files w !! (base +:+ "_data_dictionary.tsv")) as [c|] eqn:Hc.
  2:{ cbn [fst snd]. split; [done|]. split; [done|]. done. }
  destruct (dictionary_of_rows _) as [cols|e]; cbn [fst snd].
  2:{ split; [done|]. split; [done|]. done. }
  rewrite (open_tsv_local_cases q (base +:+ ".tsv"))
    by (done || apply endswith_btsv_tsv).
  destruct (files w !! (base +:+ ".tsv")) as [c2|] eqn:Hc2; cbn [fst snd].
  - split; [done|]. split; [done|]. done.
  - split; [done|]. split; [done|]. done.
Qed.

(** ** The remote writer *)

(** X13: leaving the [with] block of an [_S3FileWriter].  After an
    exception in the block the local staging file is closed and nothing is
    uploaded: no program is started, and the exception goes on to the
    caller (unless closing itself fails).  After a normal end the staging
    file is closed and then uploaded by one [grail-file cp] from the staging
    path to the remote path, whose nonzero status raises
    [CalledProcessError]. *)
Theorem s3_writer_exit q s3_path local_path (body : M unit) w :
  let cp := [grail_file_path q; "cp"; abspath local_path; abspath s3_path] in
  let r := with_writer q (S3FileWriter s3_path local_path) body w in
  match body w with
  | (Raise e, w1) =>
      r = (Raise (OSError local_path), w1)
      ∨ (r.1 = Raise e
         ∧ trace r.2 = trace w1 ++ [EvIO (OpClose local_path)]
         ∧ files r.2 = files w1)
  | (Ok _, w1) =>
      r = (Raise (OSError local_path), w1)
      ∨ ∃ w2, trace w2 = trace w1 ++ [EvIO (OpClose local_path)]
          ∧ files w2 = files w1
          ∧ trace r.2 = trace w2 ++ [EvCall cp (exec cp w2).1]
          ∧ r.1 = (if ((exec cp w2).1 =? 0)%Z then Ok tt
                   else Raise (CalledProcessError cp (exec cp w2).1))
  end.
Proof.
  intros cp r. subst r. unfold with_writer.
  destruct (body w) as [[[]|e] w1]; cbn [backing].
  - unfold writer_close, mbind, M_bind.
    destruct (do_io_cases (OpClose local_path) w1)
      as [[p Hio]|(w2 & Hio & Ht & Hf)]; rewrite Hio.
    + left. unfold do_io in Hio. destruct (io_ok w1 _); [done|].
      by injection Hio as <-.
    + right. exists w2. split; [done|]. split; [done|].
      destruct (copy_file_cases q local_path s3_path w2) as (Htr & Hres & _).
      done.
  - destruct (do_io_cases (OpClose local_path) w1)
      as [[p Hio]|(w2 & Hio & Ht & Hf)]; rewrite Hio.
    + left. unfold do_io in Hio. destruct (io_ok w1 _); [done|].
      by injection Hio as <-.
    + right. done.
Qed.

End Reading.

Section Jobs.

Context `{Env} `{Float64}.

(** ** Building and running a job *)

Lemma mkstemp_from_created dir pre suf n : ∀ k w name w',
  mkstemp_from n k dir pre suf w = (Ok name, w') →
  files w !! name = None
  ∧ files w' = <[name := ""]> (files w)
  ∧ trace w' = trace w ++ [EvIO (OpOpen name)]
  ∧ ∃ j, k ≤ j
       ∧ name = os_path_abspath (OsPath.join dir (pre +:+ temp_candidate w j +:+ suf)).
Proof.
  induction n as [|n IH]; intros k w name w' Hrun; simpl in Hrun; [done|].
  case_bool_decide as Hex.
  - destruct (IH _ _ _ _ Hrun) as (? & ? & ? & j & ? & ?).
    repeat split; try done. exists j. split; [lia|done].
  - unfold mbind, M_bind in Hrun.
    destruct (do_io _ w) as [[[]|e] w1] eqn:Hio; [|done].
    injection Hrun as <- <-.
    apply do_io_ok in Hio as [Htr Hfs].
    split; [by apply eq_None_not_Some|]. split; [done|]. split; [done|].
    exists k. done.
Qed.

(** The job built from an expression. *)
Lemma Instance_init_expr q label script_path expr flags params m w i w' :
  expr ≠ "" →
  Instance_init q label script_path expr flags params m w = (Ok i, w') →
  let name := i_script_path i in
  let prefix := OsPath.join (log_dir q) label +:+ "scripttmp" in
  i = {| i_gql := q; i_label := label; i_script_path := name;
         i_gql_flags := flags; i_gql_params := params; i_max_retries := m;
         i_log_prefix := OsPath.join (log_dir q) label |}
  ∧ files w !! name = None
  ∧ files w' = <[name := expr]> (files w)
  ∧ trace w' = trace w ++ [EvIO (OpOpen name); EvIO (OpWrite name expr);
                           EvIO (OpClose name)]
  ∧ ∃ j, name = os_path_abspath
                  (OsPath.join (OsPath.dirname prefix)
                     (OsPath.basename prefix +:+ temp_candidate w j +:+ ".gql")).
Proof.
  unfold Instance_init. intros Hexpr Hinit.
  destruct (bool_decide (script_path = "") && bool_decide (expr = "")); [done|].
  case_bool_decide as Hlabel; [done|].
  rewrite bool_decide_eq_true_2 in Hinit by done.
  unfold mbind, M_bind, mret, M_ret, NamedTemporaryFile in Hinit.
  destruct (mkstemp_from _ _ _ _ _ w) as [[name|e] w1] eqn:Hmk; [|done].
  apply mkstemp_from_created in Hmk as (Hfresh & Hfs1 & Htr1 & j & _ & Hname).
  destruct (do_io (OpWrite name expr) w1) as [[[]|e] w2] eqn:Hw; [|done].
  destruct (do_io (OpClose name) w2) as [[[]|e] w3] eqn:Hc; [|done].
  injection Hinit as <- <-. cbn [i_script_path].
  apply do_io_ok in Hw as [Htr2 Hfs2]. apply do_io_ok in Hc as [Htr3 Hfs3].
  split; [done|]. split; [done|]. split; [|split].
  - rewrite Hfs3, Hfs2, Hfs1, lookup_insert_eq. cbn [default].
    rewrite app_nil_l_s. by rewrite insert_insert_eq.
  - rewrite Htr3, Htr2, Htr1, <- !app_assoc. done.
  - eauto.
Qed.

(** X14: a job that [_Instance.__init__] builds has a non-empty label and
    records its arguments; its log prefix is the label joined to the log
    directory.  Without an expression the script path is the one given and
    nothing happens in the world.  With an expression the script is a file
    that did not exist, named after the log prefix with [scripttmp], a
    random part and [.gql]; it is opened, written once and closed, it holds
    exactly the expression, and no other file changes. *)
Theorem instance_init_outcome q label script_path expr flags params m w i w' :
  Instance_init q label script_path expr flags params m w = (Ok i, w') →
  label ≠ ""
  ∧ i_gql i = q ∧ i_label i = label ∧ i_gql_flags i = flags
  ∧ i_gql_params i = params ∧ i_max_retries i = m
  ∧ i_log_prefix i = OsPath.join (log_dir q) label
  ∧ (expr = "" → script_path ≠ "" ∧ i_script_path i = script_path ∧ w' = w)
  ∧ (expr ≠ "" →
     let name := i_script_path i in
     let prefix := OsPath.join (log_dir q) label +:+ "scripttmp" in
     files w !! name = None
     ∧ files w' !! name = Some expr
     ∧ (∀ p, p ≠ name → files w' !! p = files w !! p)
     ∧ trace w' = trace w ++ [EvIO (OpOpen name); EvIO (OpWrite name expr);
                              EvIO (OpClose name)]
     ∧ ∃ j, name = os_path_abspath
                     (OsPath.join (OsPath.dirname prefix)
                        (OsPath.basename prefix +:+ temp_candidate w j +:+ ".gql"))).
Proof.
  intros Hinit.
  assert (Hlabel : label ≠ "").
  { intros ->. unfold Instance_init in Hinit.
    destruct (_ && _); [done|]. by rewrite bool_decide_eq_true_2 in Hinit. }
  split; [done|].
  destruct (decide (expr = "")) as [->|Hexpr].
  - unfold Instance_init in Hinit.
    destruct (bool_decide (script_path = "") && bool_decide ("" = "")) eqn:Hboth;
      [done|].
    rewrite (bool_decide_eq_false_2 (label = "")) in Hinit by done.
    rewrite (bool_decide_eq_false_2 ("" ≠ "")) in Hinit by (intros ?; done).
    unfold mbind, M_bind, mret, M_ret in Hinit. injection Hinit as <- <-.
    cbn. repeat split; try done.
    intros ->. by rewrite !bool_decide_eq_true_2 in Hboth.
  - destruct (Instance_init_expr _ _ _ _ _ _ _ _ _ _ Hexpr Hinit)
      as (Hi & Hfresh & Hfs & Htr & Hname).
    cbv zeta in Hi, Hfresh, Hfs, Htr, Hname.
    do 6 (split; [by rewrite Hi|]).
    split; [done|]. intros _. cbv zeta.
    split; [done|]. split; [rewrite Hfs; apply lookup_insert_eq|].
    split; [intros p Hp; rewrite Hfs; by apply lookup_insert_ne|].
    split; done.
Qed.


(** X16: the command line of a job is the engine's path, the job's flags,
    the four profiling and cluster flags, the script path and then the
    parameter arguments, one for each key.  The two ports come from one
    hash of the log path: the bigslice port lies in 2000..21999 and the
    profiling port is that port plus 20000, so the two differ and jobs with
    the same log path get the same ports. *)
Theorem cmdline_shape i cmd :
  cmdline_of i = Ok cmd →
  ∃ bm params,
    (2000 ≤ bm < 22000)%Z
    ∧ bm = (2000 + py_hash (log_path_of (i_log_prefix i)) `mod` 20000)%Z
    ∧ length params = length (i_gql_params i)
    ∧ cmd = gql_path (i_gql i) :: i_gql_flags i
            ++ ["--pprof=:" +:+ Str.of_Z (bm + 20000);
                "--bigslice.http=:" +:+ Str.of_Z bm;
                "--bigslice.parallelism=8192";
                "--bigslice.system=ec2-gql";
                i_script_path i]
            ++ params.
Proof.
  unfold cmdline_of. intros Hcmd.
  destruct (render_params (i_gql_params i)) as [params|e] eqn:Hp; [|done].
  cbn [mbind result_bind] in Hcmd. injection Hcmd as <-.
  set (h := py_hash (log_path_of (i_log_prefix i))).
  exists (2000 + h `mod` 20000)%Z, params.
  pose proof (Z.mod_pos_bound h 20000 ltac:(lia)).
  split; [lia|]. split; [done|]. split; [by apply render_params_length|].
  replace (2000 + h `mod` 20000 + 20000)%Z with (22000 + h `mod` 20000)%Z by lia.
  cbn [app]. f_equal. rewrite <- !app_assoc. reflexivity.
Qed.

Lemma mkstemp_from_trace dir pre suf n : ∀ k w,
  ∃ tr, trace (mkstemp_from n k dir pre suf w).2 = trace w ++ tr
        ∧ Forall (λ ev, ∃ op, ev = EvIO op) tr.
Proof.
  induction n as [|n IH]; intros k w; simpl.
  - exists []. by rewrite app_nil_r.
  - case_bool_decide; [apply IH|]. unfold mbind, M_bind.
    destruct (do_io_cases (OpOpen (os_path_abspath
                (OsPath.join dir (pre +:+ temp_candidate w k +:+ suf)))) w)
      as [[p ->]|(w1 & -> & Htr & _)].
    + exists []. by rewrite app_nil_r.
    + eexists. split; [exact Htr|]. constructor; eauto.
Qed.

Lemma Instance_init_trace q label script_path expr flags params m w :
  ∃ tr, trace (Instance_init q label script_path expr flags params m w).2
        = trace w ++ tr
        ∧ Forall (λ ev, ∃ op, ev = EvIO op) tr.
Proof.
  unfold Instance_init.
  destruct (_ && _); [exists []; by rewrite app_nil_r|].
  case_bool_decide; [exists []; by rewrite app_nil_r|].
  case_bool_decide; [|exists []; by rewrite app_nil_r].
  unfold mbind, M_bind, NamedTemporaryFile.
  destruct (mkstemp_from_trace
              (OsPath.dirname (OsPath.join (log_dir q) label +:+ "scripttmp"))
              (OsPath.basename (OsPath.join (log_dir q) label +:+ "scripttmp"))
              ".gql" TMP_MAX 0 w) as (tr1 & Htr1 & Hio1).
  destruct (mkstemp_from _ _ _ _ _ w) as [[name|e] w1]; cbn [snd] in Htr1;
    [|by exists tr1].
  destruct (do_io_cases (OpWrite name expr) w1) as [[p ->]|(w2 & -> & Htr2 & _)];
    [by exists tr1|].
  destruct (do_io_cases (OpClose name) w2) as [[p ->]|(w3 & -> & Htr3 & _)].
  - exists (tr1 ++ [EvIO (OpWrite name expr)]).
    cbn [snd]. rewrite Htr2, Htr1, <- app_assoc. split; [done|].
    apply Forall_app. split; [done|]. constructor; eauto.
  - exists (tr1 ++ [EvIO (OpWrite name expr); EvIO (OpClose name)]).
    cbn [snd mret M_ret]. rewrite Htr3, Htr2, Htr1, <- !app_assoc. split; [done|].
    apply Forall_app. split; [done|]. repeat constructor; eauto.
Qed.

(** One pass of the loop when no retry is allowed. *)
Lemma run_loop_once cmd w :
  run_loop cmd 0 w = (Ok (launch cmd w).1, (launch cmd w).2).
Proof.
  unfold run_loop. simpl. destruct (launch cmd w) as [st w1].
  destruct (st =? 0)%Z; reflexivity.
Qed.

(** X17: [copy_tsv] builds a job from the expression that reads the source
    and writes the destination, and runs it without retry.  When it returns,
    the engine was started exactly once, after the script and the log file
    were opened, and the result is the engine's exit status, zero or not: a
    failed copy is not an exception.  [copy_tsv] raises only when a file
    operation before the start fails; the engine is then not started, and a
    destination that is not an [s3://] path is removed. *)
Theorem copy_tsv_outcome q from_path to_path w :
  let src := abspath from_path in
  let dst := abspath to_path in
  let expr := "read(`" +:+ src +:+ "`) | write(`" +:+ dst +:+ "`)" in
  let log := log_path_of (OsPath.join (log_dir q) "copy_tsv") in
  let r := copy_tsv q from_path to_path w in
  (∀ e, r.1 = Raise e →
     (∃ tr, trace r.2 = trace w ++ tr ∧ Forall (λ ev, ∃ op, ev = EvIO op) tr)
     ∧ (Str.startswith "s3://" dst = false → files r.2 !! dst = None))
  ∧ (∀ st, r.1 = Ok st →
     ∃ script cmd,
       trace r.2 = trace w ++ [EvIO (OpOpen script); EvIO (OpWrite script expr);
                               EvIO (OpClose script); EvIO (OpOpen log);
                               EvCall cmd st]
       ∧ head cmd = Some (gql_path q)
       ∧ last cmd = Some script
       ∧ "-overwrite-files" ∈ cmd).
Proof.
  intros src dst expr log r. subst r. unfold copy_tsv. fold src dst expr.
  unfold try_except_reraise, mbind, M_bind.
  destruct (Instance_init_trace q "copy_tsv" "" expr ["-overwrite-files"] [] 0 w)
    as (tr1 & Htr1 & Hio1).
  destruct (Instance_init q "copy_tsv" "" expr ["-overwrite-files"] [] 0 w)
    as [[i|e1] w1] eqn:Hinit; cbn [snd] in Htr1.
  2:{ unfold _removeall.
      destruct (Str.startswith "s3://" dst) eqn:Hs3; cbn [fst snd];
        (split; [intros e _|by intros st [=]]).
      - split; [eauto|done].
      - split; [eauto|]. intros _. apply lookup_delete_eq. }
  assert (Hexpr : expr ≠ "") by done.
  destruct (Instance_init_expr _ _ _ _ _ _ _ _ _ _ Hexpr Hinit)
    as (Hi & _ & _ & Htr1' & _). cbv zeta in Hi, Htr1'.
  set (script := i_script_path i) in *.
  unfold Instance_run, mbind, M_bind. rewrite Hi. cbn [i_log_prefix].
  fold log.
  destruct (do_io_cases (OpOpen log) w1) as [[p ->]|(w2 & -> & Htr2 & _)].
  { unfold _removeall.
    destruct (Str.startswith "s3://" dst) eqn:Hs3; cbn [fst snd];
      (split; [intros e _|by intros st [=]]).
    - split; [eauto|done].
    - split; [eauto|]. intros _. apply lookup_delete_eq. }
  unfold lift, cmdline_of. cbn [i_gql_params render_params fmap list_fmap mapM
    mbind result_bind mret result_ret i_gql i_gql_flags i_script_path i_max_retries].
  rewrite run_loop_once.
  match goal with |- context [launch ?c w2] => set (cmd := c) end.
  pose proof (launch_trace cmd w2) as Htr3.
  destruct (launch cmd w2) as [st w3]. cbn [fst snd] in *.
  split; [done|]. intros st' [= <-]. exists script, cmd.
  split; [by rewrite Htr3, Htr2, Htr1', <- !app_assoc|].
  split; [done|]. split; [done|]. unfold cmd. set_solver.
Qed.

End Jobs.

(** ** The period of the sampler *)

(** X18: the snapshots of a sampler are numbered upwards from its counter,
    and snapshot [j] does not begin before one wait and [j] rounds of a
    sleep and a wait have passed: at least 60 time units lie between the
    starts of two snapshots, not 30.  The heap profile is fetched as soon as
    the CPU profile has come, and every snapshot begins before the stop
    signal. *)
Theorem sampler_snapshot_times stop cpu heap fuel : ∀ k now acts fin,
  Sampler.__pprof fuel stop cpu heap k now = Some (acts, fin) →
  ∀ j f u, Sampler.FetchCpu j f u ∈ acts →
    k ≤ j
    ∧ now + Sampler.interval + 2 * Sampler.interval * (j - k) ≤ f
    ∧ f < stop
    ∧ u = f + cpu j
    ∧ Sampler.FetchHeap j u (u + heap j) ∈ acts.
Proof.
  induction fuel as [|fuel IH]; intros k now acts fin Hrun; [done|].
  cbn [Sampler.__pprof] in Hrun.
  pose proof (wait_pprof_timeout_spec stop now) as Hw.
  destruct (Sampler.__wait_pprof_timeout stop now) as [woke go_on].
  destruct Hw as (Hrange & Hgo & Hend).
  destruct go_on.
  - destruct (Hgo eq_refl) as [-> Hlt].
    destruct (Sampler.__pprof fuel stop cpu heap (S k) _) as [[acts' fin']|] eqn:Hrest;
      [|done].
    injection Hrun as <- <-. intros j f u Hel.
    rewrite !elem_of_cons in Hel.
    destruct Hel as [?|[Heq|[?|[?|Hel]]]]; try discriminate.
    + injection Heq as -> -> ->. split; [done|].
      split; [rewrite Nat.sub_diag; lia|]. split; [done|]. split; [done|].
      right. right. left.
    + destruct (IH _ _ _ _ Hrest j f u Hel) as (Hk & Hf & Hs & Hu & Hh).
      split; [lia|]. split; [|split; [done|split; [done|]]].
      * unfold Sampler.interval in *.
        replace (j - k) with (S (j - S k)) by lia. lia.
      * do 4 right. done.
  - injection Hrun as <- <-. intros j f u Hel.
    rewrite elem_of_cons, elem_of_nil in Hel. destruct Hel as [?|[]]. discriminate.
Qed.

(** Witness of X18: stop at time 200, fetches that take 1 and 2 units. *)
Lemma sampler_snapshot_times_witness :
  ∃ acts fin,
    Sampler.__pprof 4 200 (λ _, 1) (λ _, 2) 0 0 = Some (acts, fin)
    ∧ Sampler.FetchCpu 2 156 157 ∈ acts
    ∧ ∀ j f u, Sampler.FetchCpu j f u ∈ acts →
        0 ≤ j
        ∧ 0 + Sampler.interval + 2 * Sampler.interval * (j - 0) ≤ f
        ∧ f < 200
        ∧ u = f + 1
        ∧ Sampler.FetchHeap j u (u + 2) ∈ acts.
Proof.
  eexists _, _. split; [reflexivity|]. split; [set_solver|].
  refine (sampler_snapshot_times 200 (λ _, 1) (λ _, 2) 4 0 0 _ 200 _). reflexivity.
Defined.

(** ** run.py: parameters and jobs *)

Lemma split_eq_app k v :
  Str.contains_char "=" k = false →
  RunPy.split_eq (k +:+ String "=" v) = Some (k, v).
Proof.
  induction k as [|c k IH]; [done|]. cbn [Str.contains_char].
  intros [Hc Hk]%orb_false_iff. rewrite app_cons. cbn [RunPy.split_eq].
  by rewrite Hc, IH.
Qed.

Lemma split_eq_spec s : ∀ k v,
  RunPy.split_eq s = Some (k, v) →
  s = k +:+ String "=" v ∧ Str.contains_char "=" k = false.
Proof.
  induction s as [|c s IH]; intros k v; [done|]. cbn [RunPy.split_eq].
  destruct (Ascii.eqb c "=") eqn:Hc.
  - intros [= <- <-]. apply Ascii.eqb_eq in Hc as ->. done.
  - destruct (RunPy.split_eq s) as [[k' v']|]; [|done]. intros [= <- <-].
    destruct (IH k' v' eq_refl) as [-> Hk]. split; [done|].
    cbn [Str.contains_char]. by rewrite Hc, Hk.
Qed.

Lemma until_newline_id v :
  Str.contains_char "010" v = false → RunPy.until_newline v = v.
Proof.
  induction v as [|c v IH]; [done|]. cbn [Str.contains_char].
  intros [Hc Hv]%orb_false_iff. cbn [RunPy.until_newline]. by rewrite Hc, IH.
Qed.

Lemma until_newline_prefix v :
  Str.contains_char "010" (RunPy.until_newline v) = false
  ∧ Str.startswith (RunPy.until_newline v) v = true.
Proof.
  induction v as [|c v [IH1 IH2]]; [done|]. cbn [RunPy.until_newline].
  destruct (Ascii.eqb c "010") eqn:Hc; [done|].
  cbn [Str.contains_char Str.startswith]. by rewrite Hc, IH1, Ascii.eqb_refl, IH2.
Qed.

Lemma startswith_app_both a s t :
  Str.startswith s t = true → Str.startswith (a +:+ s) (a +:+ t) = true.
Proof.
  intros Hst. induction a as [|c a IH]; [done|].
  rewrite !app_cons. cbn [Str.startswith]. by rewrite Ascii.eqb_refl.
Qed.

(** X19: the parameters of run.py.  A parameter written as two dashes, a
    non-empty key without an equals sign, an equals sign and a value without
    a line feed is matched and gives back that key and that value.  Whatever
    is matched has such a key and such a value and begins with their
    rendering; and the loop of [main] either accepts every parameter or
    raises for the first one that does not match, naming it. *)
Theorem match_param_outcome :
  (∀ k v, k ≠ "" → Str.contains_char "=" k = false →
     Str.contains_char "010" v = false →
     RunPy.match_param ("--" +:+ k +:+ "=" +:+ v) = Some (k, v))
  ∧ (∀ param k v, RunPy.match_param param = Some (k, v) →
       k ≠ "" ∧ Str.contains_char "=" k = false
       ∧ Str.contains_char "010" v = false
       ∧ Str.startswith ("--" +:+ k +:+ "=" +:+ v) param = true)
  ∧ (∀ params d,
       match RunPy.parse_params params d with
       | Ok _ => Forall (λ p, is_Some (RunPy.match_param p)) params
       | Raise e =>
           ∃ pre bad post,
             params = pre ++ bad :: post
             ∧ Forall (λ p, is_Some (RunPy.match_param p)) pre
             ∧ RunPy.match_param bad = None
             ∧ e = Exception
                     ("GQL param must be in form --key=value, but got " +:+ bad)
       end).
Proof.
  split; [|split].
  - intros k v Hk Heq Hnl. unfold RunPy.match_param.
    change ("--" +:+ k +:+ "=" +:+ v)
      with (String "-" (String "-" (k +:+ String "=" v))).
    lazy beta iota. rewrite split_eq_app by done.
    rewrite bool_decide_eq_false_2 by done. by rewrite until_newline_id.
  - intros param k v. unfold RunPy.match_param.
    destruct param as [|c1 [|c2 rest]]; [done|by destruct c1 as [[] [] [] [] [] [] [] []]|].
    destruct (Ascii.eqb_spec c1 "-") as [->|Hc1];
      [|by destruct c1 as [[] [] [] [] [] [] [] []]].
    destruct (Ascii.eqb_spec c2 "-") as [->|Hc2];
      [|by destruct c2 as [[] [] [] [] [] [] [] []]].
    destruct (RunPy.split_eq rest) as [[k' v']|] eqn:Hs; [|done].
    case_bool_decide as Hk; [done|]. intros [= <- <-].
    apply split_eq_spec in Hs as [-> Hnoeq].
    destruct (until_newline_prefix v') as [Hnl Hpre].
    split; [done|]. split; [done|]. split; [done|].
    change ("--" +:+ k' +:+ "=" +:+ RunPy.until_newline v')
      with ("--" +:+ (k' +:+ String "=" (RunPy.until_newline v'))).
    change (String "-" (String "-" (k' +:+ String "=" v')))
      with ("--" +:+ (k' +:+ String "=" v')).
    apply startswith_app_both.
    change (String "=" ?x) with ("=" +:+ x).
    by do 2 apply startswith_app_both.
  - induction params as [|p params IH]; intros d; cbn [RunPy.parse_params].
    + constructor.
    + destruct (RunPy.match_param p) as [[k v]|] eqn:Hp.
      * specialize (IH (RunPy.dict_set k v d)).
        destruct (RunPy.parse_params params _) as [d'|e].
        -- constructor; [by rewrite Hp|done].
        -- destruct IH as (pre & bad & post & -> & Hpre & Hbad & ->).
           exists (p :: pre), bad, post. split; [done|].
           split; [constructor; [by rewrite Hp|done]|]. done.
      * exists [], p, params. split; [done|]. split; [constructor|]. done.
Qed.



Section RunPyJobs.

Context `{Env} `{Float64}.

(** A job of [GQL.run] from a script, once its label and parameters are
    settled. *)
Lemma GQL_run_script q script label flags params m w :
  script ≠ "" →
  let label' := if bool_decide (label = "") then "anon_run" else label in
  let params' := if bool_decide (params = []) then default_params q else params in
  let log := log_path_of (OsPath.join (log_dir q) label') in
  label' ≠ "" →
  GQL_run q "" script label flags params m w
  = match do_io (OpOpen log) w with
    | (Ok _, w1) =>
        match render_params params' with
        | Ok args =>
            run_loop
              ([gql_path q]
               ++ ((if bool_decide (flags = []) then default_flags q else flags)
                   ++ ["--pprof=:" +:+ Str.of_Z (22000 + py_hash log `mod` 20000);
                       "--bigslice.http=:" +:+ Str.of_Z (2000 + py_hash log `mod` 20000);
                       "--bigslice.parallelism=8192";
                       "--bigslice.system=ec2-gql"])
               ++ [script] ++ args)
              (if (m <? 0)%Z then default_max_retries q else m) w1
        | Raise e => (Raise e, w1)
        end
    | (Raise e, w1) => (Raise e, w1)
    end.
Proof.
  intros Hscript label' params' log Hlabel. unfold GQL_run.
  rewrite (bool_decide_eq_true_2 ("" = "")) by done.
  rewrite (bool_decide_eq_false_2 (script = "")) by done.
  rewrite (bool_decide_eq_false_2 (true = false)) by done.
  fold label' params'. unfold Instance_init.
  rewrite (bool_decide_eq_false_2 (script = "")) by done. cbn [andb].
  rewrite (bool_decide_eq_false_2 (label' = "")) by done.
  rewrite (bool_decide_eq_false_2 ("" ≠ "")) by (intros ?; done).
  unfold mbind at 1 2. unfold M_bind at 1 2. unfold mret, M_ret.
  unfold Instance_run. cbn [i_log_prefix]. fold log.
  unfold mbind, M_bind.
  destruct (do_io (OpOpen log) w) as [[[]|e] w1]; [|done].
  unfold lift, cmdline_of.
  cbn [i_gql_params i_log_prefix i_gql i_gql_flags i_script_path i_max_retries].
  fold log. destruct (render_params params') as [args|e]; done.
Qed.



(** X21: without [--quintile] and without parameters, run.py starts the
    engine once and returns its status, whatever it is and whatever the
    session's [default_max_retries]: the job is run with [max_retries = 0],
    which is not negative, so the value given by [--max_retries] is never
    used. *)
Theorem single_job_no_retry q script w :
  script ≠ "" →
  default_params q = [] →
  let log := log_path_of (OsPath.join (log_dir q) "anon_run") in
  let r := RunPy.single_job q script [] w in
  r = (Raise (OSError log), w)
  ∨ ∃ cmd w1,
      trace w1 = trace w ++ [EvIO (OpOpen log)]
      ∧ r.1 = Ok (exec cmd w1).1
      ∧ trace r.2 = trace w1 ++ [EvCall cmd (exec cmd w1).1]
      ∧ head cmd = Some (gql_path q)
      ∧ last cmd = Some script.
Proof.
  intros Hscript Hparams log r. subst r. unfold RunPy.single_job.
  rewrite GQL_run_script by done.
  rewrite (bool_decide_eq_true_2 ("" = "")) by done. fold log.
  rewrite (bool_decide_eq_true_2 ([] = [])) by done. rewrite Hparams.
  change (render_params []) with (@Ok (list string) []).
  destruct (do_io_cases (OpOpen log) w) as [[p Hio]|(w1 & Hio & Htr & _)];
    rewrite Hio.
  - left. unfold do_io in Hio. destruct (io_ok w _); [done|]. by injection Hio as <-.
  - right. change (0 <? 0)%Z with false. cbv iota. rewrite run_loop_once.
    match goal with |- context [launch ?c w1] => set (cmd := c) end.
    exists cmd, w1. split; [done|]. cbn [fst snd].
    rewrite launch_trace, launch_status.
    split; [done|]. split; [done|]. split; [done|].
    unfold cmd. rewrite !last_app. done.
Qed.

End RunPyJobs.

Section Shapes.

Context `{Float64}.

(** ** The shape of the data rows *)

Lemma consume_lengths cols rows : ∀ parsed,
  consume (λ row, __hack_na row cols) rows None = Ok parsed →
  length <$> parsed = length <$> rows.
Proof.
  induction rows as [|row rows IH]; intros parsed; cbn [consume].
  - by intros [= <-].
  - pose proof (hack_na_from_outcome cols row 0) as Hrow. unfold __hack_na.
    destruct (__hack_na_from 0 row cols) as [r|e]; cbn [mbind result_bind]; [|done].
    destruct (consume _ rows None) as [rs|e]; cbn [mbind result_bind]; [|done].
    intros [= <-]. destruct Hrow as [Hlen _].
    rewrite !fmap_cons, Hlen. f_equal. by apply IH.
Qed.

(** X22: the shape that [_TidyTSVParser.read] accepts.  A data file with
    no row after its header gives a table with the columns of the dictionary
    and no rows.  When there are rows, the widest of them must have exactly
    as many fields as the dictionary has columns: otherwise no table is
    returned. *)
Theorem frame_of_tsv_shape cols rows :
  (rows = [] → NoDup cols.*1 →
     frame_of_tsv cols (rows, None)
     = Ok {| nrows := 0;
             series := (λ c, {| s_name := c.1; s_dtype := c.2; s_values := [] |})
                         <$> cols |})
  ∧ (rows ≠ [] → max_list (length <$> rows) ≠ length cols →
     ∀ df, frame_of_tsv cols (rows, None) ≠ Ok df).
Proof.
  split.
  - intros -> Hnd. rewrite frame_of_tsv_decode by (done || constructor).
    unfold decode_table.
    rewrite (mapM_result_ok _ (λ jc : nat * (string * dtype),
               {| s_name := jc.2.1; s_dtype := jc.2.2; s_values := [] |}))
      by done.
    cbn [mbind result_bind length]. do 2 f_equal.
    apply list_eq. intros j. rewrite !list_lookup_fmap, list_lookup_imap.
    by destruct (cols !! j).
  - intros Hne Hmax df. unfold frame_of_tsv. cbn [fst snd].
    destruct (consume _ rows None) as [parsed|e] eqn:Hrows; [|done].
    apply consume_lengths in Hrows. cbn [mbind result_bind].
    unfold frame_of_rows. rewrite Hrows, length_fmap.
    rewrite bool_decide_eq_true_2.
    + apply Nat.eqb_neq in Hmax. by rewrite Hmax.
    + intros ->. by destruct rows.
Qed.

End Shapes.

Section Remote.

Context `{Env} `{Float64}.

(** ** Remote tables and the keys of the cache *)

Lemma startswith_app_cut p b c x :
  Str.contains_char c p = false →
  Str.startswith p (b +:+ String c x) = Str.startswith p b.
Proof.
  revert b. induction p as [|a p IH]; intros b Hc; [done|].
  cbn [Str.contains_char] in Hc. apply orb_false_iff in Hc as [Hac Hc].
  destruct b as [|e b].
  - rewrite app_nil_l_s. cbn [Str.startswith]. by rewrite Hac.
  - rewrite app_cons. cbn [Str.startswith]. destruct (Ascii.eqb a e); [|done].
    by apply IH.
Qed.

Lemma cache_path_of_app base suffix :
  Str.startswith "s3://" base = true →
  Str.contains_char "/" suffix = false →
  ∃ pre, OsPath.join CACHE_DIR (Str.replace_char "/" "_" (base +:+ suffix))
         = pre +:+ suffix.
Proof.
  intros Hs3 Hsuf.
  assert (Hrep : Str.replace_char "/" "_" suffix = suffix).
  { induction suffix as [|c s IH]; [done|]. cbn [Str.contains_char] in Hsuf.
    apply orb_false_iff in Hsuf as [Hc Hs]. cbn [Str.replace_char].
    by rewrite Hc, IH. }
  rewrite replace_char_app, Hrep.
  apply startswith_spec in Hs3 as [t ->].
  rewrite join_relative by reflexivity.
  eexists. by rewrite <- app_assoc_s.
Qed.

(** X23: a table at an [s3://] path whose dictionary has no cached copy is
    never read: [_TidyTSVParser.read] starts a transfer of the dictionary
    and then raises, because a failed transfer raises, and after a
    successful one the cached copy has been removed before it is opened. *)
Theorem read_remote_table q tsv_path w :
  Str.startswith "s3://" tsv_path = true →
  (∀ dict_path, _tidy_data_dictionary_path tsv_path = Ok dict_path →
     files w !! OsPath.join CACHE_DIR (Str.replace_char "/" "_" dict_path) = None) →
  ∀ df, (TidyTSVParser_read q tsv_path w).1 ≠ Ok df.
Proof.
  intros Hs3 Hmiss df. unfold TidyTSVParser_read, __read_dictionary.
  destruct (_tidy_data_dictionary_path tsv_path) as [dict_path|e] eqn:Hd; [|done].
  specialize (Hmiss dict_path eq_refl).
  destruct (tidy_data_dictionary_path_app _ _ Hd) as (base & -> & ->).
  assert (Hds3 : Str.startswith "s3://" (base +:+ "_data_dictionary.tsv") = true).
  { by rewrite (startswith_app_notin "s3://" base "_" "data_dictionary.tsv" "." "tsv"). }
  assert (Hbase : Str.startswith "s3://" base = true).
  { by rewrite <- (startswith_app_cut "s3://" base "." "tsv"). }
  destruct (cache_path_of_app base "_data_dictionary.tsv" Hbase eq_refl) as [pre Hpre].
  destruct (maybe_cache_file_miss q _ w Hds3 Hmiss) as (_ & Hres & Hgone).
  unfold lift, mbind, M_bind, open_tsv. unfold mbind, M_bind.
  destruct (maybe_cache_file q (base +:+ "_data_dictionary.tsv") w) as [[p|e] w1];
    cbn [fst snd] in *; [|done].
  destruct (_ =? _)%Z; [|done]. injection Hres as ->.
  rewrite Hpre, endswith_btsv_dictionary. unfold mret, M_ret, read_file.
  rewrite <- Hpre, Hgone. done.
Qed.

(** X24: the key of the cache does not tell a slash from an underscore.
    Two remote paths that differ in one place, a slash in one and an
    underscore in the other, have the same cached copy: when the copy of the
    first exists, opening the second returns the content cached for the
    first, and [file_exists] answers [True] for the second, with nothing
    started. *)
Theorem cache_key_collision q a b w c :
  let p1 := "s3://" +:+ a +:+ "/" +:+ b in
  let p2 := "s3://" +:+ a +:+ "_" +:+ b in
  files w !! OsPath.join CACHE_DIR (Str.replace_char "/" "_" p1) = Some c →
  p1 ≠ p2
  ∧ open_file q p2 w = (Ok c, w)
  ∧ file_exists q p2 w = (Ok true, w).
Proof.
  intros p1 p2 Hc.
  assert (Hkey : Str.replace_char "/" "_" p1 = Str.replace_char "/" "_" p2).
  { unfold p1, p2.
    change ("s3://" +:+ a +:+ "/" +:+ b) with ("s3://" +:+ (a +:+ ("/" +:+ b))).
    change ("s3://" +:+ a +:+ "_" +:+ b) with ("s3://" +:+ (a +:+ ("_" +:+ b))).
    rewrite !replace_char_app. reflexivity. }
  rewrite Hkey in Hc.
  assert (Hopen : open_file q p2 w = (Ok c, w)).
  { unfold open_file, maybe_cache_file.
    change (Str.startswith "s3://" p2) with true. cbv iota.
    unfold mbind, M_bind, os_path_exists, mret, M_ret.
    rewrite bool_decide_eq_true_2 by eauto. cbn [negb].
    unfold read_file. by rewrite Hc. }
  split; [|split; [done|]].
  - unfold p1, p2. intros Heq. do 2 apply String.app_inj in Heq. discriminate.
  - unfold file_exists. by rewrite Hopen.
Qed.

End Remote.

(** ** Further runs in the example environment *)

(** Witness of X11: the scenario's data file, asked for as [.btsv]. *)
Lemma open_tsv_btsv_witness :
  @open_tsv (test_env (exec_exit 0)) test_session "/data/data2.btsv" example_world
  = (Ok (Csv.reader (_comment_stripper (file_lines example_data_text))), example_world).
Proof.
  apply (proj1 (@open_tsv_btsv (test_env (exec_exit 0)) test_session
                  "/data/data2.btsv" example_world eq_refl eq_refl)).
  reflexivity.
Defined.

(** Witness of X12: a table asked for in a world without files. *)
Lemma read_local_table_witness :
  let r := @TidyTSVParser_read (test_env (exec_exit 0)) Dec.float64 test_session
             "/data/data2.tsv" empty_world in
  r.2 = empty_world
  ∧ r.1 = Raise (FileNotFoundError "/data/data2_data_dictionary.tsv").
Proof.
  intros r.
  destruct (@read_local_table (test_env (exec_exit 0)) Dec.float64 test_session
              "/data/data2.tsv" empty_world eq_refl) as [Hw [Hdict _]].
  split; [exact Hw|]. apply Hdict. reflexivity.
Defined.

(** Witness of X14: a job built from the expression [1+1]. *)
Lemma instance_init_outcome_witness :
  ∃ i w',
    @Instance_init (test_env (exec_exit 0)) test_session "lab" "" "1+1" [] [] 0
      empty_world = (Ok i, w')
    ∧ i_script_path i = "/tmp/log2018-08-01T00-00-00Z/labscripttmptmp0.gql"
    ∧ files w' !! i_script_path i = Some "1+1".
Proof.
  eexists _, _.
  eassert (Hinit : @Instance_init (test_env (exec_exit 0)) test_session "lab" ""
                     "1+1" [] [] 0 empty_world = (Ok _, _)).
  { vm_compute. reflexivity. }
  split; [exact Hinit|]. split; [reflexivity|].
  destruct (instance_init_outcome _ _ _ _ _ _ _ _ _ _ Hinit)
    as (_ & _ & _ & _ & _ & _ & _ & _ & Hexpr).
  apply Hexpr. discriminate.
Defined.


(** Witness of X16: the command line of the example job; the hash of the
    example environment is 7. *)
Lemma cmdline_shape_witness :
  ∃ cmd bm,
    @cmdline_of (test_env (exec_exit 0)) (example_job 0) = Ok cmd
    ∧ (2000 ≤ bm < 22000)%Z
    ∧ "--bigslice.http=:" +:+ Str.of_Z bm ∈ cmd
    ∧ "--pprof=:" +:+ Str.of_Z (bm + 20000) ∈ cmd.
Proof.
  eassert (Hc : @cmdline_of (test_env (exec_exit 0)) (example_job 0) = Ok _)
    by reflexivity.
  destruct (cmdline_shape _ _ Hc) as (bm & params & Hr & _ & _ & Hcmd).
  eexists _, bm. split; [exact Hc|]. split; [exact Hr|].
  rewrite Hcmd. cbn [example_job i_gql_flags app]. split.
  - do 2 apply list_elem_of_further. apply list_elem_of_here.
  - apply list_elem_of_further, list_elem_of_here.
Defined.

(** Witness of X21: the session allows one retry by default and the engine
    exits with status 1. *)
Lemma single_job_no_retry_witness :
  let log := log_path_of (OsPath.join (log_dir test_session) "anon_run") in
  let r := @RunPy.single_job (test_env (exec_exit 1)) test_session "x.gql" []
             empty_world in
  default_max_retries test_session = 1%Z
  ∧ (r = (Raise (OSError log), empty_world)
     ∨ ∃ cmd w1,
         trace w1 = trace empty_world ++ [EvIO (OpOpen log)]
         ∧ r.1 = Ok (@exec (test_env (exec_exit 1)) cmd w1).1
         ∧ trace r.2 = trace w1 ++ [EvCall cmd (@exec (test_env (exec_exit 1)) cmd w1).1]
         ∧ head cmd = Some (gql_path test_session)
         ∧ last cmd = Some "x.gql").
Proof.
  split; [reflexivity|].
  apply (@single_job_no_retry (test_env (exec_exit 1)) test_session "x.gql" empty_world).
  - discriminate.
  - reflexivity.
Defined.

(** Witness of X23: a remote table, with a [grail-file] that copies. *)
Lemma read_remote_table_witness :
  is_ok (@TidyTSVParser_read (test_env exec_cp) Dec.float64 test_session
           "s3://bucket/t.tsv" empty_world).1 = false.
Proof.
  pose proof (@read_remote_table (test_env exec_cp) Dec.float64 test_session
                "s3://bucket/t.tsv" empty_world eq_refl (λ _ _, eq_refl)) as Hno.
  destruct (@TidyTSVParser_read (test_env exec_cp) Dec.float64 test_session
              "s3://bucket/t.tsv" empty_world).1 as [df|e].
  - destruct (Hno df eq_refl).
  - reflexivity.
Defined.

(** Witness of X24: [s3://bucket/x_y] is served from the copy made for
    [s3://bucket/x/y]. *)
Lemma cache_key_collision_witness :
  @open_file (test_env (exec_exit 0)) test_session "s3://bucket/x_y" cached_world
    = (Ok "old", cached_world)
  ∧ @file_exists (test_env (exec_exit 0)) test_session "s3://bucket/x_y" cached_world
    = (Ok true, cached_world).
Proof.
  destruct (@cache_key_collision (test_env (exec_exit 0)) test_session
              "bucket/x" "y" cached_world "old" eq_refl) as (_ & H1 & H2).
  split; [exact H1|exact H2].
Defined.
